(** * QR payload classification and dispatch: a shallow embedding

    The development follows [src/screens/ScannerScreen.js] (the general
    scanner) and [src/screens/AppOnlyScannerScreen.js] (the app-only
    scanner).  JavaScript strings are sequences of UTF-16 code units, the
    React state of each screen is a record, and the handlers are written in
    a small state-and-exception monad so that [try]/[catch] and the calls
    into the platform ([Linking.openURL], [navigation.navigate],
    [Alert.alert], [setTimeout]) stay visible. *)

From Stdlib Require Import List NArith String Ascii Bool Arith Lia.
Import ListNotations.

Set Implicit Arguments.

(** ** JavaScript strings *)

Module JS.

(** A JavaScript string value: its UTF-16 code units. *)
Definition str := list N.

(** An ASCII string literal of the source. *)
Definition lit (s : string) : str := map N_of_ascii (list_ascii_of_string s).

(** [s.startsWith(p)] *)
Fixpoint startsWith (s p : str) {struct p} : bool :=
  match p, s with
  | [], _ => true
  | _ :: _, [] => false
  | a :: p', c :: s' => N.eqb c a && startsWith s' p'
  end.

(** [s.includes(p)] *)
Fixpoint includes (s p : str) : bool :=
  startsWith s p ||
  match s with
  | [] => false
  | _ :: s' => includes s' p
  end.

(** The first occurrence of [p] in [s] (what [StringIndexOf] finds), given
    as the text before it and the text after it. *)
Fixpoint cut (s p : str) : option (str * str) :=
  if startsWith s p then Some ([], skipn (List.length p) s)
  else match s with
       | [] => None
       | c :: s' =>
           match cut s' p with
           | Some (b, a) => Some (c :: b, a)
           | None => None
           end
       end.

(** [s.split(sep)] for a non-empty separator, as the loop of
    [String.prototype.split]: look up the next occurrence from the current
    position, emit the text before it, continue after it; the text after
    the last occurrence is the last element.  Every separator of the
    source is a non-empty literal; each round then consumes at least one
    code unit, so [length s] rounds are enough ([split_loop_fuel] below). *)
Fixpoint split_loop (fuel : nat) (s sep : str) : list str :=
  match cut s sep with
  | None => [s]
  | Some (b, a) =>
      b :: match fuel with
           | O => [a]
           | S f => split_loop f a sep
           end
  end.

Definition split (s sep : str) : list str := split_loop (List.length s) s sep.

(** [xs[i]]: [None] is [undefined]. *)
Definition elemAt {A} (xs : list A) (i : nat) : option A := nth_error xs i.

(** Truthiness of a value that is a string or [undefined]. *)
Definition truthy (v : option str) : bool :=
  match v with
  | None => false
  | Some [] => false
  | Some (_ :: _) => true
  end.

(** *** The regular expressions of the source

    Only the constructs that occur: a literal character, an optional
    literal character ([c?]) and [.+].  The pattern is anchored at the
    start ([^]) and matched with the [i] flag and without the [u], [s] and
    [m] flags. *)

Inductive atom :=
| Lit (c : ascii)
| OptLit (c : ascii)
| AnyPlus.

(** LineTerminator: LF, CR, LS (U+2028), PS (U+2029); [.] matches any
    other code unit. *)
Definition isLineTerminator (c : N) : bool :=
  N.eqb c 10 || N.eqb c 13 || N.eqb c 8232 || N.eqb c 8233.

(** [toUpperCase] on the ASCII range. *)
Definition asciiUpper (c : N) : N :=
  if N.leb 97 c && N.leb c 122 then c - 32 else c.

(** Character comparison under the [i] flag for an ASCII pattern character
    [p]: both sides are canonicalized with [toUpperCase]; a code unit of
    128 or more never canonicalizes to one below 128 (the rule of
    [Canonicalize] without the [u] flag), so it matches no ASCII pattern
    character. *)
Definition matchesIgnoreCase (p : ascii) (c : N) : bool :=
  N.ltb c 128 && N.eqb (asciiUpper c) (asciiUpper (N_of_ascii p)).

(** Backtracking match of a sequence of atoms at the start of [s]; the
    match need not reach the end of [s]. *)
Fixpoint matchHere (re : list atom) : str -> bool :=
  match re with
  | [] => fun _ => true
  | Lit p :: re' =>
      fun s =>
        match s with
        | c :: s' => matchesIgnoreCase p c && matchHere re' s'
        | [] => false
        end
  | OptLit p :: re' =>
      fun s =>
        match s with
        | c :: s' => matchesIgnoreCase p c && matchHere re' s'
        | [] => false
        end || matchHere re' s
  | AnyPlus :: re' =>
      fix plus (s : str) : bool :=
        match s with
        | c :: s' => negb (isLineTerminator c) && (plus s' || matchHere re' s')
        | [] => false
        end
  end.

End JS.

Import JS.

Local Open Scope string_scope.
Local Open Scope list_scope.

(** ** The platform and the handler monad *)

(** Calls that leave the screen: [Linking.openURL(url)],
    [navigation.navigate(screen)] or [navigation.navigate(screen, {id})],
    and [Alert.alert(title, message)]. *)
Inductive call :=
| OpenURL (url : str)
| Navigate (screen : string) (id : option str)
| AlertAlert (title message : string).

(** The functions handed to [setTimeout]: [() => setIsScanning(false)] and
    [() => restartCamera()]. *)
Inductive callback :=
| ResetScanning
| RestartCamera.

(** The platform decides which calls throw. *)
Definition Platform := call -> bool.

(** A platform on which no call throws. *)
Definition reliable : Platform := fun _ => false.

Section Monad.

Variable S : Type.

(** The React state of a screen, the calls made so far (oldest first) and
    the timeouts that are pending, each with its delay in milliseconds. *)
Record World := mkWorld {
  react : S;
  calls : list call;
  timeouts : list (callback * N)
}.

(** A handler: from a world to a result and a world; [None] is a thrown
    exception.  What was done before the [throw] stays done. *)
Definition M (A : Type) := World -> option A * World.

Definition ret {A} (a : A) : M A := fun w => (Some a, w).

Definition bind {A B} (m : M A) (k : A -> M B) : M B :=
  fun w =>
    match m w with
    | (Some a, w') => k a w'
    | (None, w') => (None, w')
    end.

Definition throw {A} : M A := fun w => (None, w).

(** [try { body } catch (error) { handler }] *)
Definition tryCatch {A} (body handler : M A) : M A :=
  fun w =>
    match body w with
    | (Some a, w') => (Some a, w')
    | (None, w') => handler w'
    end.

Definition getState : M S := fun w => (Some (react w), w).

Definition setState (f : S -> S) : M unit :=
  fun w => (Some tt, mkWorld (f (react w)) (calls w) (timeouts w)).

(** A call into the platform: it is recorded, then it returns or throws. *)
Definition perform (P : Platform) (c : call) : M unit :=
  fun w =>
    (if P c then None else Some tt,
     mkWorld (react w) (calls w ++ [c]) (timeouts w)).

(** [setTimeout(cb, delay)] *)
Definition setTimeout (cb : callback) (delay : N) : M unit :=
  fun w => (Some tt, mkWorld (react w) (calls w) (timeouts w ++ [(cb, delay)])).

(** The world in which a handler leaves the screen. *)
Definition exec {A} (m : M A) (w : World) : World := snd (m w).

(** Whether the handler returned (rather than threw). *)
Definition returns {A} (m : M A) (w : World) : bool :=
  match fst (m w) with Some _ => true | None => false end.

End Monad.

Arguments ret {S A} a.
Arguments throw {S A}.
Arguments getState {S}.
Arguments mkWorld {S} _ _ _.

Notation "x <- m ;; k" := (bind m (fun x => k))
  (at level 61, m at next level, right associativity).
Notation "m ;; k" := (bind m (fun _ => k))
  (at level 61, right associativity).

(** A decode event as the handlers use it: the decoded string
    ([event.nativeEvent.codeStringValue]) and the two clock readings the
    handler takes, [Date.now()] and [new Date().toLocaleString()]. *)
Record ScanEvent := mkScanEvent {
  codeStringValue : str;
  dateNow : N;
  localeString : string
}.

(** ** The general scanner (ScannerScreen.js) *)

Module Scanner.

Record DataInfo := mkDataInfo { type : string; action : string }.

Record HistoryItem := mkHistoryItem {
  id : N;
  data : str;
  itemType : string;
  timestamp : string
}.

(** The state variables the handlers read or write.  The world holds the
    state as the setters have left it; a handler is a closure of one render
    and reads the constants of that render, which show the setters' work
    only from the next render on. *)
Record State := mkState {
  scanHistory : list HistoryItem;
  isScanning : bool;
  showResultPage : bool;
  currentScannedData : option (str * DataInfo);
  cameraKey : N
}.

Definition initial : State := mkState [] false false None 0.

Definition setScanHistory (f : list HistoryItem -> list HistoryItem) : M State unit :=
  setState (fun s => mkState (f (scanHistory s)) (isScanning s) (showResultPage s)
                             (currentScannedData s) (cameraKey s)).
Definition setIsScanning (b : bool) : M State unit :=
  setState (fun s => mkState (scanHistory s) b (showResultPage s)
                             (currentScannedData s) (cameraKey s)).
Definition setShowResultPage (b : bool) : M State unit :=
  setState (fun s => mkState (scanHistory s) (isScanning s) b
                             (currentScannedData s) (cameraKey s)).
Definition setCurrentScannedData (d : option (str * DataInfo)) : M State unit :=
  setState (fun s => mkState (scanHistory s) (isScanning s) (showResultPage s)
                             d (cameraKey s)).
Definition setCameraKey (f : N -> N) : M State unit :=
  setState (fun s => mkState (scanHistory s) (isScanning s) (showResultPage s)
                             (currentScannedData s) (f (cameraKey s))).

(** [/^https?:\/\/.+/i] *)
Definition websitePattern : list atom :=
  [Lit "h"; Lit "t"; Lit "t"; Lit "p"; OptLit "s"; Lit ":"; Lit "/"; Lit "/";
   AnyPlus]%char.

Definition identifyDataType (data : str) : DataInfo :=
  if matchHere websitePattern data then
    mkDataInfo "Website" "Open in browser"
  else if startsWith data (lit "tel:") then
    mkDataInfo "Phone" "Open dialer"
  else if startsWith data (lit "sms:") then
    mkDataInfo "SMS" "Open SMS app"
  else if startsWith data (lit "mailto:") then
    mkDataInfo "Email" "Open email client"
  else if startsWith data (lit "BEGIN:VCARD") && includes data (lit "END:VCARD") then
    mkDataInfo "Contact vCard" "Parse → add contact"
  else if startsWith data (lit "BEGIN:VEVENT") && includes data (lit "END:VEVENT") then
    mkDataInfo "Calendar" "Add event"
  else if startsWith data (lit "qrcodeapp://") then
    mkDataInfo "App deep link" "Navigate inside your app"
  else
    mkDataInfo "Text" "Display content".

Section Handlers.

Variable P : Platform.

Definition restartCamera : M State unit :=
  setCameraKey (fun prev => (prev + 1)%N) ;;
  setIsScanning false.

(** The path of a deep link: [parts[1]] of the split at ["://"] when the
    link includes ["://"] (the initial [''] stays when [parts] has one
    element), the whole link otherwise. *)
Definition deepLinkPath (deepLinkUrl : str) : str :=
  if includes deepLinkUrl (lit "://") then
    match elemAt (split deepLinkUrl (lit "://")) 1 with
    | Some p => p
    | None => lit ""
    end
  else deepLinkUrl.

Definition handleDeepLinkNavigation (deepLinkUrl : str) : M State unit :=
  tryCatch
    (let path := deepLinkPath deepLinkUrl in
     if includes path (lit "user/") then
       let userId := elemAt (split path (lit "user/")) 1 in
       if truthy userId then perform P (Navigate "UserDetail" userId)
       else perform P (Navigate "Users" None)
     else if includes path (lit "users") then
       perform P (Navigate "Users" None)
     else if includes path (lit "scanner") then
       ret tt
     else if includes path (lit "home") then
       perform P (Navigate "Home" None)
     else if includes path (lit "profile") then
       perform P (Navigate "Users" None)
     else if includes path (lit "dashboard") then
       perform P (Navigate "Home" None)
     else
       perform P (Navigate "Home" None))
    (setShowResultPage true ;;
     setCurrentScannedData
       (Some (deepLinkUrl, mkDataInfo "App deep link" "Navigation failed"))).

Definition executeAction (data : str) (dataInfo : DataInfo) : M State unit :=
  tryCatch
    (if type dataInfo =? "Website" then perform P (OpenURL data)
     else if type dataInfo =? "Phone" then perform P (OpenURL data)
     else if type dataInfo =? "SMS" then perform P (OpenURL data)
     else if type dataInfo =? "Email" then perform P (OpenURL data)
     else if type dataInfo =? "App deep link" then handleDeepLinkNavigation data
     else if type dataInfo =? "Contact vCard" then
       setShowResultPage true ;;
       setCurrentScannedData (Some (data, dataInfo))
     else if type dataInfo =? "Calendar" then
       setShowResultPage true ;;
       setCurrentScannedData (Some (data, dataInfo))
     else ret tt)
    (setShowResultPage true ;;
     setCurrentScannedData (Some (data, mkDataInfo "Error" "Could not process"))).

(** [handleScannedData] as the render of the state [rendered] creates it:
    [isScanning] is the constant of that render
    ([const [isScanning, setIsScanning] = useState(false)]), whatever the
    setters have done since; the updates of the history are functional
    ([prev => ...]) and work on the state of the world. *)
Definition handleScannedDataIn (rendered : State) (event : ScanEvent) :
  M State unit :=
  if isScanning rendered then ret tt
  else
    let data := codeStringValue event in
    setIsScanning true ;;
    let dataInfo := identifyDataType data in
    let newHistoryItem :=
      mkHistoryItem (dateNow event) data (type dataInfo) (localeString event) in
    setScanHistory (fun prev => newHistoryItem :: firstn 49 prev) ;;
    (if (type dataInfo =? "Website") || (type dataInfo =? "Phone") ||
        (type dataInfo =? "SMS") || (type dataInfo =? "Email") ||
        (type dataInfo =? "App deep link")
     then executeAction data dataInfo
     else
       setShowResultPage true ;;
       setCurrentScannedData (Some (data, dataInfo))) ;;
    setTimeout ResetScanning 100.

(** The handler of the render that shows the state of the world: a decode
    event that arrives once the screen has rendered again after the last
    state change. *)
Definition handleScannedData (event : ScanEvent) : M State unit :=
  rendered <- getState ;;
  handleScannedDataIn rendered event.

Definition runCallback (cb : callback) : M State unit :=
  match cb with
  | ResetScanning => setIsScanning false
  | RestartCamera => restartCamera
  end.

(** The oldest pending timeout fires. *)
Definition fireTimeout : M State unit :=
  fun w =>
    match timeouts w with
    | [] => (Some tt, w)
    | (cb, _) :: rest => runCallback cb (mkWorld (react w) (calls w) rest)
    end.

(** A scan followed by the firing of its timeout. *)
Definition scanAndWait (event : ScanEvent) : M State unit :=
  handleScannedData event ;; fireTimeout.

Fixpoint scanAll (events : list ScanEvent) : M State unit :=
  match events with
  | [] => ret tt
  | e :: rest => scanAndWait e ;; scanAll rest
  end.

End Handlers.

Definition start : World State := mkWorld initial [] [].

End Scanner.

(** ** The app-only scanner (AppOnlyScannerScreen.js) *)

Module AppOnly.

(** The objects [{ isValid, type, action }] of [validateAppQRCode] and of
    the result page. *)
Record Validation := mkValidation {
  isValid : bool;
  type : string;
  action : string
}.

Record HistoryItem := mkHistoryItem {
  id : N;
  data : str;
  itemType : string;
  itemIsValid : bool;
  timestamp : string
}.

Record State := mkState {
  isScanning : bool;
  showResultPage : bool;
  currentScannedData : option (str * Validation);
  appScanHistory : list HistoryItem;
  cameraKey : N
}.

Definition initial : State := mkState false false None [] 0.

Definition setIsScanning (b : bool) : M State unit :=
  setState (fun s => mkState b (showResultPage s) (currentScannedData s)
                             (appScanHistory s) (cameraKey s)).
Definition setShowResultPage (b : bool) : M State unit :=
  setState (fun s => mkState (isScanning s) b (currentScannedData s)
                             (appScanHistory s) (cameraKey s)).
Definition setCurrentScannedData (d : option (str * Validation)) : M State unit :=
  setState (fun s => mkState (isScanning s) (showResultPage s) d
                             (appScanHistory s) (cameraKey s)).
Definition setAppScanHistory (f : list HistoryItem -> list HistoryItem) : M State unit :=
  setState (fun s => mkState (isScanning s) (showResultPage s) (currentScannedData s)
                             (f (appScanHistory s)) (cameraKey s)).
Definition setCameraKey (f : N -> N) : M State unit :=
  setState (fun s => mkState (isScanning s) (showResultPage s) (currentScannedData s)
                             (appScanHistory s) (f (cameraKey s))).

Definition validateAppQRCode (data : str) : Validation :=
  if startsWith data (lit "qrcodeapp://") then
    mkValidation true "App Deep Link" "Navigate within app"
  else
    mkValidation false "External/Invalid" "Not app-related".

Section Handlers.

Variable P : Platform.

Definition restartCamera : M State unit :=
  setCameraKey (fun prev => (prev + 1)%N) ;;
  setIsScanning false.

(** [path] is [deepLinkUrl.split('qrcodeapp://')[1]]; when that is
    [undefined], [path.includes] throws a [TypeError]. *)
Definition handleAppDeepLinkNavigation (deepLinkUrl : str) : M State unit :=
  tryCatch
    (match elemAt (split deepLinkUrl (lit "qrcodeapp://")) 1 with
     | None => throw
     | Some path =>
         if includes path (lit "user/") then
           let userId := elemAt (split path (lit "user/")) 1 in
           if truthy userId then perform P (Navigate "UserDetail" userId)
           else perform P (Navigate "Users" None)
         else if includes path (lit "users") then
           perform P (Navigate "Users" None)
         else if includes path (lit "scanner") then
           perform P (AlertAlert "App Deep Link" "Already on app scanner screen")
         else if includes path (lit "home") then
           perform P (Navigate "Home" None)
         else
           perform P (Navigate "Home" None)
     end)
    (setShowResultPage true ;;
     setCurrentScannedData
       (Some (deepLinkUrl,
              mkValidation false "App Deep Link Error" "Navigation failed"))).

(** [handleAppOnlyScannedData] as the render of the state [rendered]
    creates it: [isScanning] is the constant of that render. *)
Definition handleAppOnlyScannedDataIn (rendered : State) (event : ScanEvent) :
  M State unit :=
  if isScanning rendered then ret tt
  else
    let data := codeStringValue event in
    setIsScanning true ;;
    let validation := validateAppQRCode data in
    let newHistoryItem :=
      mkHistoryItem (dateNow event) data (type validation) (isValid validation)
                    (localeString event) in
    setAppScanHistory (fun prev => newHistoryItem :: firstn 49 prev) ;;
    (if isValid validation then handleAppDeepLinkNavigation data
     else
       setShowResultPage true ;;
       setCurrentScannedData
         (Some (data,
                mkValidation false "Rejected" "This QR code is not app-related"))) ;;
    setTimeout ResetScanning 100.

(** The handler of the render that shows the state of the world. *)
Definition handleAppOnlyScannedData (event : ScanEvent) : M State unit :=
  rendered <- getState ;;
  handleAppOnlyScannedDataIn rendered event.

Definition runCallback (cb : callback) : M State unit :=
  match cb with
  | ResetScanning => setIsScanning false
  | RestartCamera => restartCamera
  end.

(** The oldest pending timeout fires. *)
Definition fireTimeout : M State unit :=
  fun w =>
    match timeouts w with
    | [] => (Some tt, w)
    | (cb, _) :: rest => runCallback cb (mkWorld (react w) (calls w) rest)
    end.

Definition scanAndWait (event : ScanEvent) : M State unit :=
  handleAppOnlyScannedData event ;; fireTimeout.

Fixpoint scanAll (events : list ScanEvent) : M State unit :=
  match events with
  | [] => ret tt
  | e :: rest => scanAndWait e ;; scanAll rest
  end.

End Handlers.

Definition start : World State := mkWorld initial [] [].

End AppOnly.

(** ** The vocabulary of the specification *)

(** The eight content types and the label the classifier gives each. *)
Inductive contentType :=
| Website | Phone | SMS | Email
| ContactCard | CalendarEvent | AppDeepLink | Text.

Definition label (t : contentType) : string :=
  match t with
  | Website => "Website"
  | Phone => "Phone"
  | SMS => "SMS"
  | Email => "Email"
  | ContactCard => "Contact vCard"
  | CalendarEvent => "Calendar"
  | AppDeepLink => "App deep link"
  | Text => "Text"
  end.

(** [s] begins with the ASCII text [p], letter case ignored. *)
Fixpoint startsWithIgnoreCase (s : str) (p : list ascii) {struct p} : bool :=
  match p, s with
  | [], _ => true
  | _ :: _, [] => false
  | a :: p', c :: s' => matchesIgnoreCase a c && startsWithIgnoreCase s' p'
  end.

(** Rule 1 as the specification words it: a case-insensitive prefix
    [http://] or [https://]. *)
Definition schemePrefix (s : str) : bool :=
  startsWithIgnoreCase s (list_ascii_of_string "http://") ||
  startsWithIgnoreCase s (list_ascii_of_string "https://").

(** The code unit at position [n] exists and is not a line terminator. *)
Definition visibleAt (n : nat) (s : str) : bool :=
  match skipn n s with
  | c :: _ => negb (isLineTerminator c)
  | [] => false
  end.

(** Rule 1 with the further condition: the scheme is followed by a code
    unit that is not a line terminator. *)
Definition schemeThenText (s : str) : bool :=
  startsWithIgnoreCase s (list_ascii_of_string "http://") && visibleAt 7 s ||
  startsWithIgnoreCase s (list_ascii_of_string "https://") && visibleAt 8 s.

(** The priority list of the specification, rule 1 left open. *)
Definition classifyWith (rule1 : str -> bool) (s : str) : contentType :=
  if rule1 s then Website
  else if startsWith s (lit "tel:") then Phone
  else if startsWith s (lit "sms:") then SMS
  else if startsWith s (lit "mailto:") then Email
  else if startsWith s (lit "BEGIN:VCARD") && includes s (lit "END:VCARD") then ContactCard
  else if startsWith s (lit "BEGIN:VEVENT") && includes s (lit "END:VEVENT") then CalendarEvent
  else if startsWith s (lit "qrcodeapp://") then AppDeepLink
  else Text.

(** The text that follows the first occurrence of [p] in [s]. *)
Definition following (s p : str) : option str :=
  match cut s p with
  | Some (_, a) => Some a
  | None => None
  end.

(** The text that follows the last occurrence of [p] in [s]. *)
Fixpoint followingLast (fuel : nat) (s p : str) : option str :=
  match cut s p with
  | None => None
  | Some (_, a) =>
      match fuel with
      | O => Some a
      | S f => match followingLast f a p with
               | Some a' => Some a'
               | None => Some a
               end
      end
  end.

(** The text between the first occurrence of [p] in [s] and the next one
    after it, or the end of [s] when there is no next one. *)
Definition segment (s p : str) : option str :=
  match cut s p with
  | None => None
  | Some (_, a) =>
      match cut a p with
      | None => Some a
      | Some (b, _) => Some b
      end
  end.

(** The navigation targets of the specification. *)
Inductive target :=
| UserDetail (userId : str)
| Users
| ScannerScreen
| Home.

(** The call that delivers a target to the router; the scanner target is
    delivered by not navigating. *)
Definition navigation (t : target) : list call :=
  match t with
  | UserDetail userId => [Navigate "UserDetail" (Some userId)]
  | Users => [Navigate "Users" None]
  | ScannerScreen => []
  | Home => [Navigate "Home" None]
  end.

(** The resolver of the specification: the path of the link, then the
    patterns in priority order.  How the path is taken from the link and
    how the identifier is taken from the path are left open. *)
Definition resolveWith (pathOf : str -> str) (idOf : str -> option str)
    (appLink : str) : target :=
  let path := pathOf appLink in
  if includes path (lit "user/") then
    match idOf path with
    | Some (c :: u) => UserDetail (c :: u)
    | _ => Users
    end
  else if includes path (lit "users") then Users
  else if includes path (lit "scanner") then ScannerScreen
  else if includes path (lit "home") then Home
  else if includes path (lit "profile") then Users
  else if includes path (lit "dashboard") then Home
  else Home.

(** As the specification words it: the path is what follows the scheme
    separator (the whole string without one), the identifier is what
    follows [user/]. *)
Definition pathFollowing (appLink : str) : str :=
  match following appLink (lit "://") with
  | Some p => p
  | None => appLink
  end.

Definition resolveFollowing : str -> target :=
  resolveWith pathFollowing (fun path => following path (lit "user/")).

(** With segments in place of what follows: the path ends at the next
    ["://"], the identifier ends at the next ["user/"]. *)
Definition pathSegment (appLink : str) : str :=
  match segment appLink (lit "://") with
  | Some p => p
  | None => appLink
  end.

Definition resolveSegment : str -> target :=
  resolveWith pathSegment (fun path => segment path (lit "user/")).

(** The navigation calls among the calls made. *)
Definition navigations (cs : list call) : list call :=
  filter (fun c => match c with Navigate _ _ => true | _ => false end) cs.

(** A platform on which every call throws. *)
Definition failing : Platform := fun _ => true.

(** The classification shown when the call [c] has thrown in the general
    scanner: the [catch] of [executeAction] for [Linking.openURL], the
    [catch] of [handleDeepLinkNavigation] for the other calls. *)
Definition failureInfo (c : call) : Scanner.DataInfo :=
  match c with
  | OpenURL _ => Scanner.mkDataInfo "Error" "Could not process"
  | _ => Scanner.mkDataInfo "App deep link" "Navigation failed"
  end.

(** [n] pending timeouts fire, oldest first. *)
Fixpoint drain (n : nat) : M Scanner.State unit :=
  match n with
  | O => ret tt
  | S k => Scanner.fireTimeout ;; drain k
  end.

(** The history items the two handlers build for an event. *)
Definition scannerItem (e : ScanEvent) : Scanner.HistoryItem :=
  Scanner.mkHistoryItem (dateNow e) (codeStringValue e)
    (Scanner.type (Scanner.identifyDataType (codeStringValue e)))
    (localeString e).

Definition appOnlyItem (e : ScanEvent) : AppOnly.HistoryItem :=
  AppOnly.mkHistoryItem (dateNow e) (codeStringValue e)
    (AppOnly.type (AppOnly.validateAppQRCode (codeStringValue e)))
    (AppOnly.isValid (AppOnly.validateAppQRCode (codeStringValue e)))
    (localeString e).

(** [n] events, the [k]-th with a one-character payload and the clock
    reading [k]. *)
Definition sampleEvents (n : nat) : list ScanEvent :=
  map (fun k => mkScanEvent [N.of_nat k + 48]%N (N.of_nat k) "t") (seq 0 n).

(** ** Further string built-ins *)

Module JSText.

(** WhiteSpace and LineTerminator code points, the ones [trim] strips:
    TAB, LF, VT, FF, CR, SP, NBSP, U+1680, U+2000 to U+200A, LS, PS,
    U+202F, U+205F, U+3000 and U+FEFF. *)
Definition isWhiteSpace (c : N) : bool :=
  N.eqb c 9 || N.eqb c 10 || N.eqb c 11 || N.eqb c 12 || N.eqb c 13 ||
  N.eqb c 32 || N.eqb c 160 || N.eqb c 5760 ||
  (N.leb 8192 c && N.leb c 8202) ||
  N.eqb c 8232 || N.eqb c 8233 || N.eqb c 8239 || N.eqb c 8287 ||
  N.eqb c 12288 || N.eqb c 65279.

Fixpoint trimStart (s : str) : str :=
  match s with
  | [] => []
  | c :: s' => if isWhiteSpace c then trimStart s' else s
  end.

Definition trimEnd (s : str) : str := rev (trimStart (rev s)).

(** [s.trim()] *)
Definition trim (s : str) : str := trimEnd (trimStart s).

(** The characters [encodeURIComponent] leaves as they are: letters,
    digits and [- _ . ! ~ * ' ( )]. *)
Definition uriUnreserved (c : N) : bool :=
  (N.leb 65 c && N.leb c 90) || (N.leb 97 c && N.leb c 122) ||
  (N.leb 48 c && N.leb c 57) ||
  N.eqb c 45 || N.eqb c 95 || N.eqb c 46 || N.eqb c 33 || N.eqb c 126 ||
  N.eqb c 42 || N.eqb c 39 || N.eqb c 40 || N.eqb c 41.

Definition isLeadSurrogate (c : N) : bool := N.leb 55296 c && N.leb c 56319.
Definition isTrailSurrogate (c : N) : bool := N.leb 56320 c && N.leb c 57343.

(** The code point of a surrogate pair. *)
Definition surrogatePair (lead trail : N) : N :=
  ((lead - 55296) * 1024 + (trail - 56320) + 65536)%N.

(** The UTF-8 octets of a code point. *)
Definition utf8 (cp : N) : list N :=
  (if cp <? 128 then [cp]
   else if cp <? 2048 then [192 + cp / 64; 128 + cp mod 64]
   else if cp <? 65536 then
     [224 + cp / 4096; 128 + (cp / 64) mod 64; 128 + cp mod 64]
   else
     [240 + cp / 262144; 128 + (cp / 4096) mod 64; 128 + (cp / 64) mod 64;
      128 + cp mod 64])%N.

(** An upper-case hexadecimal digit. *)
Definition hexDigit (d : N) : N := (if d <? 10 then 48 + d else 55 + d)%N.

(** [%XY] for an octet. *)
Definition percent (b : N) : str := [37%N; hexDigit (b / 16); hexDigit (b mod 16)].

Definition percentAll (octets : list N) : str := flat_map percent octets.

(** [encodeURIComponent(s)]: an unreserved code unit is copied; any other
    is read as a code point (a lead surrogate with the trail surrogate
    after it), whose UTF-8 octets are written as [%XY]; a surrogate
    without its partner throws a [URIError] ([None]). *)
Fixpoint encodeURIComponent (s : str) : option str :=
  match s with
  | [] => Some []
  | c :: rest =>
      if uriUnreserved c then
        match encodeURIComponent rest with
        | Some out => Some (c :: out)
        | None => None
        end
      else if isTrailSurrogate c then None
      else if isLeadSurrogate c then
        match rest with
        | [] => None
        | d :: rest' =>
            if isTrailSurrogate d then
              match encodeURIComponent rest' with
              | Some out => Some (percentAll (utf8 (surrogatePair c d)) ++ out)
              | None => None
              end
            else None
        end
      else
        match encodeURIComponent rest with
        | Some out => Some (percentAll (utf8 c) ++ out)
        | None => None
        end
  end.

(** No surrogate without its partner ([s.isWellFormed()]). *)
Fixpoint isWellFormed (s : str) : bool :=
  match s with
  | [] => true
  | c :: rest =>
      if isTrailSurrogate c then false
      else if isLeadSurrogate c then
        match rest with
        | [] => false
        | d :: rest' => isTrailSurrogate d && isWellFormed rest'
        end
      else isWellFormed rest
  end.

(** What may stand in an encoded component: an unreserved character or
    the percent sign; neither [&], [=], [#], [?], [/], [:], [+] nor a
    blank is among them. *)
Definition uriSafe (c : N) : bool := uriUnreserved c || N.eqb c 37.

(** Every element is a UTF-16 code unit. *)
Definition codeUnits (s : str) : Prop := Forall (fun c => (c < 65536)%N) s.

End JSText.

Import JSText.

(** ** The whole general scanner screen (ScannerScreen.js) *)

Module ScannerUI.

(** The state of [Scanner.State] together with the remaining state
    variables of the screen, and the text that [Clipboard.setString] has
    put on the clipboard. *)
Record State := mkState {
  base : Scanner.State;
  flashOn : bool;
  showManualInput : bool;
  manualInput : str;
  showHistory : bool;
  clipboard : option str
}.

Definition initial : State := mkState Scanner.initial false false [] false None.

Definition start : World State := mkWorld initial [] [].

Definition setBase (b : Scanner.State) (s : State) : State :=
  mkState b (flashOn s) (showManualInput s) (manualInput s) (showHistory s)
          (clipboard s).

(** The world the handlers of [Scanner] see. *)
Definition baseWorld (w : World State) : World Scanner.State :=
  mkWorld (base (react w)) (calls w) (timeouts w).

(** A handler of [Scanner], run on this screen. *)
Definition liftBase {A} (m : M Scanner.State A) : M State A :=
  fun w =>
    match m (baseWorld w) with
    | (r, w') => (r, mkWorld (setBase (react w') (react w)) (calls w') (timeouts w'))
    end.

Definition setFlashOn (b : bool) : M State unit :=
  setState (fun s => mkState (base s) b (showManualInput s) (manualInput s)
                             (showHistory s) (clipboard s)).
Definition setShowManualInput (b : bool) : M State unit :=
  setState (fun s => mkState (base s) (flashOn s) b (manualInput s)
                             (showHistory s) (clipboard s)).
Definition setManualInput (t : str) : M State unit :=
  setState (fun s => mkState (base s) (flashOn s) (showManualInput s) t
                             (showHistory s) (clipboard s)).
Definition setShowHistory (b : bool) : M State unit :=
  setState (fun s => mkState (base s) (flashOn s) (showManualInput s)
                             (manualInput s) b (clipboard s)).
(** [Clipboard.setString(t)] *)
Definition clipboardSetString (t : str) : M State unit :=
  setState (fun s => mkState (base s) (flashOn s) (showManualInput s)
                             (manualInput s) (showHistory s) (Some t)).

(** [https://www.google.com/search?q=] *)
Definition searchPrefix : str := lit "https://www.google.com/search?q=".

Section Handlers.

Variable P : Platform.

Definition toggleFlash : M State unit :=
  s <- getState ;;
  setFlashOn (negb (flashOn s)).

(** The two clock readings of the scan that the handler starts are given
    with the press.  The handler also calls [identifyDataType] on the
    trimmed text and drops the result. *)
Definition handleManualInput (now : N) (locale : string) : M State unit :=
  s <- getState ;;
  match trim (manualInput s) with
  | [] => ret tt
  | c :: t =>
      liftBase (Scanner.handleScannedData P (mkScanEvent (c :: t) now locale)) ;;
      setManualInput (lit "") ;;
      setShowManualInput false
  end.

Definition copyToClipboard : M State unit :=
  s <- getState ;;
  match Scanner.currentScannedData (base s) with
  | Some (data, _) =>
      clipboardSetString data ;;
      perform P (AlertAlert "Copied!" "Data copied to clipboard")
  | None => ret tt
  end.

Definition searchOnWeb : M State unit :=
  s <- getState ;;
  match Scanner.currentScannedData (base s) with
  | Some (data, _) =>
      match encodeURIComponent data with
      | Some q => perform P (OpenURL (searchPrefix ++ q))
      | None => throw
      end
  | None => ret tt
  end.

(** The close button of the result page. *)
Definition closeResultPage : M State unit :=
  liftBase (Scanner.setShowResultPage false) ;;
  setTimeout RestartCamera 50.

(** The focus effect of the screen. *)
Definition onFocus : M State unit := setTimeout RestartCamera 100.

(** The pending timeout at position [i] fires. *)
Definition fireAt (i : nat) : M State unit :=
  fun w =>
    match nth_error (timeouts w) i with
    | None => (Some tt, w)
    | Some (cb, _) =>
        liftBase (Scanner.runCallback cb)
          (mkWorld (react w) (calls w)
                   (firstn i (timeouts w) ++ skipn (Datatypes.S i) (timeouts w)))
    end.

(** What can happen to the screen: the camera reads a code, a button is
    pressed, the text of the manual input changes, the screen gets the
    focus, a pending timeout fires.  The error callback of the camera,
    which only raises an alert with the text of the error, is left out. *)
Inductive event :=
| ReadCode (e : ScanEvent)
| PressHistory
| PressFlash
| PressRestart
| PressManualInput
| ChangeText (t : str)
| PressCancel
| PressGo (now : N) (locale : string)
| PressCloseHistory
| PressCloseResult
| PressCopy
| PressSearch
| Focus
| Fire (i : nat).

Definition handle (ev : event) : M State unit :=
  match ev with
  | ReadCode e => liftBase (Scanner.handleScannedData P e)
  | PressHistory => setShowHistory true
  | PressFlash => toggleFlash
  | PressRestart => liftBase Scanner.restartCamera
  | PressManualInput => setShowManualInput true
  | ChangeText t => setManualInput t
  | PressCancel => setShowManualInput false
  | PressGo now locale => handleManualInput now locale
  | PressCloseHistory => setShowHistory false
  | PressCloseResult => closeResultPage
  | PressCopy => copyToClipboard
  | PressSearch => searchOnWeb
  | Focus => onFocus
  | Fire i => fireAt i
  end.

(** The events one after the other, each taken by the handlers of the
    render that shows the state it finds; what a handler did before it
    threw stays done. *)
Fixpoint run (evs : list event) (w : World State) : World State :=
  match evs with
  | [] => w
  | ev :: rest => run rest (exec (handle ev) w)
  end.

End Handlers.

End ScannerUI.

(** ** The whole app-only scanner screen (AppOnlyScannerScreen.js) *)

Module AppOnlyUI.

Record State := mkState {
  base : AppOnly.State;
  flashOn : bool;
  showHistory : bool;
  clipboard : option str
}.

Definition initial : State := mkState AppOnly.initial false false None.

Definition start : World State := mkWorld initial [] [].

Definition setBase (b : AppOnly.State) (s : State) : State :=
  mkState b (flashOn s) (showHistory s) (clipboard s).

Definition baseWorld (w : World State) : World AppOnly.State :=
  mkWorld (base (react w)) (calls w) (timeouts w).

Definition liftBase {A} (m : M AppOnly.State A) : M State A :=
  fun w =>
    match m (baseWorld w) with
    | (r, w') => (r, mkWorld (setBase (react w') (react w)) (calls w') (timeouts w'))
    end.

Definition setFlashOn (b : bool) : M State unit :=
  setState (fun s => mkState (base s) b (showHistory s) (clipboard s)).
Definition setShowHistory (b : bool) : M State unit :=
  setState (fun s => mkState (base s) (flashOn s) b (clipboard s)).
Definition clipboardSetString (t : str) : M State unit :=
  setState (fun s => mkState (base s) (flashOn s) (showHistory s) (Some t)).

(** [currentScannedData?.dataInfo?.isValid] *)
Definition shownIsValid (s : AppOnly.State) : bool :=
  match AppOnly.currentScannedData s with
  | Some (_, info) => AppOnly.isValid info
  | None => false
  end.

(** The title of the result page. *)
Definition modalTitle (s : AppOnly.State) : string :=
  if shownIsValid s then "App QR Code" else "Rejected QR Code".

(** The status line of the result page, drawn when there is data. *)
Definition statusText (s : AppOnly.State) : option string :=
  match AppOnly.currentScannedData s with
  | Some (_, info) =>
      Some (if AppOnly.isValid info then "✅ Valid App Code"
            else "❌ Not App-Related")
  | None => None
  end.

Section Handlers.

Variable P : Platform.

Definition toggleFlash : M State unit :=
  s <- getState ;;
  setFlashOn (negb (flashOn s)).

Definition copyToClipboard : M State unit :=
  s <- getState ;;
  match AppOnly.currentScannedData (base s) with
  | Some (data, _) =>
      clipboardSetString data ;;
      perform P (AlertAlert "Copied!" "Data copied to clipboard")
  | None => ret tt
  end.

Definition closeResultPage : M State unit :=
  liftBase (AppOnly.setShowResultPage false) ;;
  setTimeout RestartCamera 50.

Definition onFocus : M State unit := setTimeout RestartCamera 100.

Definition fireAt (i : nat) : M State unit :=
  fun w =>
    match nth_error (timeouts w) i with
    | None => (Some tt, w)
    | Some (cb, _) =>
        liftBase (AppOnly.runCallback cb)
          (mkWorld (react w) (calls w)
                   (firstn i (timeouts w) ++ skipn (Datatypes.S i) (timeouts w)))
    end.

Inductive event :=
| ReadCode (e : ScanEvent)
| PressHistory
| PressFlash
| PressRestart
| PressCloseHistory
| PressCloseResult
| PressCopy
| Focus
| Fire (i : nat).

Definition handle (ev : event) : M State unit :=
  match ev with
  | ReadCode e => liftBase (AppOnly.handleAppOnlyScannedData P e)
  | PressHistory => setShowHistory true
  | PressFlash => toggleFlash
  | PressRestart => liftBase AppOnly.restartCamera
  | PressCloseHistory => setShowHistory false
  | PressCloseResult => closeResultPage
  | PressCopy => copyToClipboard
  | Focus => onFocus
  | Fire i => fireAt i
  end.

Fixpoint run (evs : list event) (w : World State) : World State :=
  match evs with
  | [] => w
  | ev :: rest => run rest (exec (handle ev) w)
  end.

End Handlers.

End AppOnlyUI.

(** ** The user screen and the navigator (UserDetailScreen, App.js) *)

Module UserDetail.

(** [`qrcodeapp://user/${user.user_id}`], the value of the QR code of the
    screen; [userId] is the text of [user.user_id]. *)
Definition deepLink (userId : str) : str := lit "qrcodeapp://user/" ++ userId.

(** The route parameters of the screen: [user], an object, when the list
    of users opened it, and [id], a text, when a deep link did. *)
Record Params (User : Type) := mkParams {
  user : option User;
  id : option str
}.

(** The first value of [loading]: [useState(!userParam)]. *)
Definition initialLoading {User} (p : Params User) : bool :=
  match user p with
  | Some _ => false
  | None => true
  end.

(** The condition of the effect that fetches the user and, when the
    request settles, ends the loading: [!user && userId]. *)
Definition fetches {User} (p : Params User) : bool :=
  match user p with
  | Some _ => false
  | None => truthy (id p)
  end.

End UserDetail.

(** The screens of the stack navigator of [App.js]. *)
Definition registeredScreens : list string :=
  ["Home"; "Users"; "UserDetail"; "Scanner"; "AppOnlyScanner"].

(** ** What the screens are expected to keep *)

(** The classification of a payload is one that is acted on without the
    result page. *)
Definition autoType (t : string) : bool :=
  (t =? "Website") || (t =? "Phone") || (t =? "SMS") || (t =? "Email").

(** A user identifier handed to the router: not empty and without the
    marker [user/]. *)
Definition goodUserId (uid : str) : Prop :=
  uid <> [] /\ includes uid (lit "user/") = false.

(** The navigation calls the scanners may make. *)
Definition goodNavigation (screen : string) (id : option str) : Prop :=
  In screen registeredScreens /\
  ((screen = "UserDetail" /\ exists uid, id = Some uid /\ goodUserId uid) \/
   (screen = "Users" /\ id = None) \/
   (screen = "Home" /\ id = None)).

(** The calls of the general scanner: a URL that is opened is classified
    as Website, Phone, SMS or Email; a navigation is a good one; the only
    alert is the one of the copy button. *)
Definition scannerCall (c : call) : Prop :=
  match c with
  | OpenURL url => autoType (Scanner.type (Scanner.identifyDataType url)) = true
  | Navigate screen id =>
      goodNavigation screen id /\
      forall uid, id = Some uid -> includes uid (lit "://") = false
  | AlertAlert title message =>
      title = "Copied!" /\ message = "Data copied to clipboard"
  end.

(** The calls of the app-only scanner: no URL is opened. *)
Definition appOnlyCall (c : call) : Prop :=
  match c with
  | OpenURL _ => False
  | Navigate screen id => goodNavigation screen id
  | AlertAlert title message =>
      (title = "Copied!" /\ message = "Data copied to clipboard") \/
      (title = "App Deep Link" /\ message = "Already on app scanner screen")
  end.

(** The URLs among the calls made. *)
Definition urlsOpened (cs : list call) : list str :=
  flat_map (fun c => match c with OpenURL url => [url] | _ => [] end) cs.

(** The timeouts the screens schedule. *)
Definition knownTimeout (t : callback * N) : Prop :=
  t = (ResetScanning, 100%N) \/ t = (RestartCamera, 50%N) \/
  t = (RestartCamera, 100%N).

(** An item of the general history carries the classification of its
    payload. *)
Definition scannerItemOk (it : Scanner.HistoryItem) : Prop :=
  Scanner.itemType it = Scanner.type (Scanner.identifyDataType (Scanner.data it)).

(** An item of the app-only history carries the verdict of the gate on its
    payload. *)
Definition appOnlyItemOk (it : AppOnly.HistoryItem) : Prop :=
  AppOnly.itemIsValid it = startsWith (AppOnly.data it) (lit "qrcodeapp://") /\
  AppOnly.itemType it =
    (if AppOnly.itemIsValid it then "App Deep Link" else "External/Invalid").

(** The classifications the result page of the general scanner shows. *)
Definition presentable (data : str) (info : Scanner.DataInfo) : Prop :=
  (info = Scanner.identifyDataType data /\ autoType (Scanner.type info) = false /\
   Scanner.type info <> "App deep link") \/
  info = Scanner.mkDataInfo "Error" "Could not process" \/
  info = Scanner.mkDataInfo "App deep link" "Navigation failed".

(** What holds of the general scanner whatever has happened, in terms of
    its state, the calls made and the timeouts pending. *)
Record scannerKeeps (b : Scanner.State) (cs : list call)
    (ts : list (callback * N)) : Prop := {
  historyBounded : List.length (Scanner.scanHistory b) <= 50;
  historyClassified : Forall scannerItemOk (Scanner.scanHistory b);
  pageHasData :
    Scanner.showResultPage b = true -> Scanner.currentScannedData b <> None;
  pagePresentable :
    forall data info,
      Scanner.currentScannedData b = Some (data, info) -> presentable data info;
  callsAllowed : Forall scannerCall cs;
  timeoutsKnown : Forall knownTimeout ts;
  resetPending :
    Scanner.isScanning b = true -> In (ResetScanning, 100%N) ts
}.

Definition scannerInvariant (w : World ScannerUI.State) : Prop :=
  scannerKeeps (ScannerUI.base (react w)) (calls w) (timeouts w).

(** What holds of the app-only scanner whatever has happened. *)
Record appOnlyKeeps (b : AppOnly.State) (cs : list call)
    (ts : list (callback * N)) : Prop := {
  appHistoryBounded : List.length (AppOnly.appScanHistory b) <= 50;
  appHistoryJudged : Forall appOnlyItemOk (AppOnly.appScanHistory b);
  appPageHasData :
    AppOnly.showResultPage b = true -> AppOnly.currentScannedData b <> None;
  appPageInvalid : AppOnlyUI.shownIsValid b = false;
  appCallsAllowed : Forall appOnlyCall cs;
  appTimeoutsKnown : Forall knownTimeout ts;
  appResetPending :
    AppOnly.isScanning b = true -> In (ResetScanning, 100%N) ts
}.

Definition appOnlyInvariant (w : World AppOnlyUI.State) : Prop :=
  appOnlyKeeps (AppOnlyUI.base (react w)) (calls w) (timeouts w).

(** ** The handlers as functions of the payload *)

(** The call a scan of the general scanner makes, if any. *)
Definition scanCalls (data : str) : list call :=
  let t := Scanner.type (Scanner.identifyDataType data) in
  if autoType t then [OpenURL data]
  else if t =? "App deep link" then navigation (resolveSegment data)
  else [].

(** The result page after the calls [cs] of a handler: raised with [shown]
    when a call has thrown, left as it was otherwise. *)
Definition afterCalls {I} (P : Platform) (cs : list call) (shown : call -> I)
    (data : str) (old : bool * option (str * I)) : bool * option (str * I) :=
  match cs with
  | c :: _ => if P c then (true, Some (data, shown c)) else old
  | [] => old
  end.

(** The result page after a scan of the general scanner. *)
Definition scanPage (P : Platform) (data : str)
    (old : bool * option (str * Scanner.DataInfo)) :
    bool * option (str * Scanner.DataInfo) :=
  let info := Scanner.identifyDataType data in
  if autoType (Scanner.type info) || (Scanner.type info =? "App deep link") then
    afterCalls P (scanCalls data) failureInfo data old
  else (true, Some (data, info)).

(** The world after a scan of the general scanner, idle. *)
Definition scanned (P : Platform) (ev : ScanEvent) (w : World Scanner.State) :
    World Scanner.State :=
  let data := codeStringValue ev in
  let page := scanPage P data (Scanner.showResultPage (react w),
                               Scanner.currentScannedData (react w)) in
  mkWorld
    (Scanner.mkState (scannerItem ev :: firstn 49 (Scanner.scanHistory (react w)))
       true (fst page) (snd page) (Scanner.cameraKey (react w)))
    (calls w ++ scanCalls data)
    (timeouts w ++ [(ResetScanning, 100%N)]).

(** The calls the app-only deep-link handler makes for a path. *)
Definition appOnlyPathCalls (path : str) : list call :=
  if includes path (lit "user/") then
    match segment path (lit "user/") with
    | Some (c :: u) => [Navigate "UserDetail" (Some (c :: u))]
    | _ => [Navigate "Users" None]
    end
  else if includes path (lit "users") then [Navigate "Users" None]
  else if includes path (lit "scanner") then
    [AlertAlert "App Deep Link" "Already on app scanner screen"]
  else [Navigate "Home" None].

(** The calls a scan of the app-only scanner makes. *)
Definition appOnlyScanCalls (data : str) : list call :=
  if startsWith data (lit "qrcodeapp://") then
    match segment data (lit "qrcodeapp://") with
    | Some path => appOnlyPathCalls path
    | None => []
    end
  else [].

Definition appOnlyFailure (c : call) : AppOnly.Validation :=
  AppOnly.mkValidation false "App Deep Link Error" "Navigation failed".

(** The world after a scan of the app-only scanner, idle. *)
Definition appOnlyScanned (P : Platform) (ev : ScanEvent)
    (w : World AppOnly.State) : World AppOnly.State :=
  let data := codeStringValue ev in
  let old := (AppOnly.showResultPage (react w),
              AppOnly.currentScannedData (react w)) in
  let page :=
    if startsWith data (lit "qrcodeapp://") then
      afterCalls P (appOnlyScanCalls data) appOnlyFailure data old
    else
      (true,
       Some (data,
             AppOnly.mkValidation false "Rejected" "This QR code is not app-related")) in
  mkWorld
    (AppOnly.mkState true (fst page) (snd page)
       (appOnlyItem ev :: firstn 49 (AppOnly.appScanHistory (react w)))
       (AppOnly.cameraKey (react w)))
    (calls w ++ appOnlyScanCalls data)
    (timeouts w ++ [(ResetScanning, 100%N)]).

(** * Facts about the string operations *)

Unset Implicit Arguments.

Section StringFacts.

Lemma startsWith_true_iff (s p : str) :
  startsWith s p = true <-> exists r, s = p ++ r.
Proof.
  revert s; induction p as [|a p IH]; intros s; simpl.
  - split; [intros _; now exists s | reflexivity].
  - destruct s as [|c s]; split.
    + discriminate.
    + intros [r H]; discriminate.
    + intros H. apply andb_true_iff in H as [Hc Hs].
      apply N.eqb_eq in Hc; subst c.
      apply IH in Hs as [r ->]. now exists r.
    + intros [r H]. injection H as -> ->.
      rewrite N.eqb_refl. apply IH. now exists r.
Qed.

Lemma startsWith_app (p r : str) : startsWith (p ++ r) p = true.
Proof. apply startsWith_true_iff. now exists r. Qed.

Lemma startsWith_nonempty (s p : str) :
  p <> [] -> startsWith s p = true -> s <> [].
Proof. destruct p, s; simpl; congruence. Qed.

Lemma cut_unfold (s p : str) :
  cut s p =
  if startsWith s p then Some ([], skipn (List.length p) s)
  else match s with
       | [] => None
       | c :: s' =>
           match cut s' p with
           | Some (b, a) => Some (c :: b, a)
           | None => None
           end
       end.
Proof. destruct s; reflexivity. Qed.

Lemma cut_prefix (p r : str) : cut (p ++ r) p = Some ([], r).
Proof.
  rewrite cut_unfold, startsWith_app.
  now rewrite skipn_app, skipn_all, Nat.sub_diag.
Qed.

Lemma cut_none_iff (s p : str) : cut s p = None <-> includes s p = false.
Proof.
  induction s as [|c s IH]; simpl.
  - destruct (startsWith [] p); simpl; split; congruence.
  - destruct (startsWith (c :: s) p); simpl.
    + split; discriminate.
    + rewrite <- IH. destruct (cut s p) as [[b a]|]; split; congruence.
Qed.

Lemma cut_some_iff (s p : str) :
  includes s p = true <-> exists b a, cut s p = Some (b, a).
Proof.
  destruct (cut s p) as [[b a]|] eqn:E.
  - split; [intros _; now exists b, a|].
    intros _. destruct (includes s p) eqn:I; [reflexivity|].
    apply cut_none_iff in I. congruence.
  - apply cut_none_iff in E. rewrite E.
    split; [discriminate | intros (b & a & H); discriminate].
Qed.

Lemma cut_sound (s p b a : str) : cut s p = Some (b, a) -> s = b ++ p ++ a.
Proof.
  revert b; induction s as [|c s IH]; intros b; rewrite cut_unfold.
  - destruct (startsWith [] p) eqn:E; [|discriminate].
    intros H; injection H as <- <-.
    apply startsWith_true_iff in E as [r E].
    destruct p; [reflexivity | discriminate].
  - destruct (startsWith (c :: s) p) eqn:E.
    + intros H; injection H as <- <-.
      apply startsWith_true_iff in E as [r ->].
      now rewrite skipn_app, skipn_all, Nat.sub_diag.
    + destruct (cut s p) as [[b' a']|]; [|discriminate].
      intros H; injection H as <- <-. simpl. f_equal. now apply IH.
Qed.

Lemma cut_shorter (s p b a : str) :
  p <> [] -> cut s p = Some (b, a) -> List.length a < List.length s.
Proof.
  intros Hp H. apply cut_sound in H. subst s.
  rewrite !length_app. destruct p; [congruence|simpl; lia].
Qed.

(** Enough fuel: [length s] rounds, or any larger number, give the same
    list. *)
Lemma split_loop_fuel (sep : str) :
  sep <> [] ->
  forall n m s, List.length s <= n -> List.length s <= m ->
                split_loop n s sep = split_loop m s sep.
Proof.
  intros Hsep. induction n as [|n IH]; intros m s Hn Hm.
  - destruct s; [|simpl in Hn; lia].
    destruct m; simpl; destruct sep; simpl; congruence.
  - destruct m.
    + destruct s; [|simpl in Hm; lia].
      simpl; destruct sep; simpl; congruence.
    + simpl. destruct (cut s sep) as [[b a]|] eqn:E; [|reflexivity].
      f_equal. pose proof (cut_shorter _ _ _ _ Hsep E). apply IH; lia.
Qed.

Lemma split_unfold (s sep : str) :
  sep <> [] ->
  split s sep =
  match cut s sep with
  | None => [s]
  | Some (b, a) => b :: split a sep
  end.
Proof.
  intros Hsep. unfold split.
  destruct (List.length s) eqn:L; simpl;
    destruct (cut s sep) as [[b a]|] eqn:E; try reflexivity;
    pose proof (cut_shorter _ _ _ _ Hsep E) as Hlt.
  - lia.
  - f_equal. apply (split_loop_fuel _ Hsep); lia.
Qed.

Lemma elemAt_split_1 (s sep : str) :
  sep <> [] -> elemAt (split s sep) 1 = segment s sep.
Proof.
  intros Hsep. unfold segment. rewrite (split_unfold s _ Hsep).
  destruct (cut s sep) as [[b a]|]; [|reflexivity].
  rewrite (split_unfold a _ Hsep).
  destruct (cut a sep) as [[b' a']|]; reflexivity.
Qed.

Lemma lit_nonempty (c : ascii) (s : string) : lit (String c s) <> [].
Proof. discriminate. Qed.

Lemma includes_unfold (s p : str) :
  includes s p =
  startsWith s p || match s with [] => false | _ :: s' => includes s' p end.
Proof. destruct s; reflexivity. Qed.

Lemma includes_app (x p y : str) : includes (x ++ p ++ y) p = true.
Proof.
  induction x as [|c x IH].
  - rewrite includes_unfold. simpl app. now rewrite startsWith_app.
  - simpl. rewrite IH. apply orb_true_r.
Qed.

Lemma includes_decompose (s p : str) :
  includes s p = true -> exists x y, s = x ++ p ++ y.
Proof.
  intros H. apply cut_some_iff in H as (b & a & H).
  exists b, a. now apply cut_sound.
Qed.

(** A string that holds [a ++ b] holds [b]. *)
Lemma includes_tail (s a b : str) :
  includes s (a ++ b) = true -> includes s b = true.
Proof.
  intros H. apply includes_decompose in H as (x & y & ->).
  rewrite <- (app_assoc a b y), (app_assoc x a (b ++ y)).
  apply includes_app.
Qed.

End StringFacts.

(** * The classifier *)

Section Classifier.

Import Scanner.

Ltac split_atoms :=
  repeat match goal with
         | |- context [matchesIgnoreCase ?a ?c] =>
             destruct (matchesIgnoreCase a c) eqn:?; simpl
         | |- context [isLineTerminator ?c] =>
             destruct (isLineTerminator c) eqn:?; simpl
         end.

(** What the regular expression accepts. *)
Lemma websitePattern_spec (s : str) :
  matchHere websitePattern s = schemeThenText s.
Proof.
  unfold schemeThenText, visibleAt, websitePattern.
  destruct s as [|c1 [|c2 [|c3 [|c4 [|c5 [|c6 [|c7 [|c8 [|c9 s]]]]]]]]];
    simpl; rewrite ?orb_true_r; split_atoms; reflexivity.
Qed.

Lemma label_injective (t t' : contentType) : label t = label t' -> t = t'.
Proof. destruct t, t'; simpl; intros H; try reflexivity; discriminate H. Qed.

(** The classifier is the priority list with rule 1 read as: scheme, then
    a code unit that is not a line terminator. *)
Lemma identifyDataType_classify (data : str) :
  type (identifyDataType data) = label (classifyWith schemeThenText data).
Proof.
  unfold identifyDataType, classifyWith. rewrite websitePattern_spec.
  repeat match goal with
         | |- context [if ?b then _ else _] => destruct b; try reflexivity
         end.
Qed.

Example identify_https :
  type (identifyDataType (lit "HTTPS://EXAMPLE.COM")) = "Website".
Proof. reflexivity. Qed.

Example identify_tel : type (identifyDataType (lit "tel:123")) = "Phone".
Proof. reflexivity. Qed.

Example identify_deep_link :
  type (identifyDataType (lit "qrcodeapp://user/42")) = "App deep link".
Proof. reflexivity. Qed.

Example identify_text : type (identifyDataType (lit "random text")) = "Text".
Proof. reflexivity. Qed.

Example identify_upper_tel : type (identifyDataType (lit "TEL:123")) = "Text".
Proof. reflexivity. Qed.

(** C1, as amended: the classifier applies the eight rules in priority
    order, first match winning, where rule 1 (Website) asks for a
    case-insensitive [http://] or [https://] that is followed by at least
    one code unit which is not a line terminator; the other prefix rules
    are case-sensitive, the empty string is Text, and every string that
    satisfies rule 1 in this form is a Website. *)
Theorem classifier_priority_order :
  (forall data : str,
      type (identifyDataType data) = label (classifyWith schemeThenText data)) /\
  (forall data : str,
      schemeThenText data = true -> type (identifyDataType data) = "Website") /\
  type (identifyDataType (lit "")) = "Text".
Proof.
  split; [exact identifyDataType_classify|split].
  - intros data H. rewrite identifyDataType_classify.
    unfold classifyWith. now rewrite H.
  - reflexivity.
Qed.

Lemma classifier_priority_order_witness :
  type (identifyDataType (lit "HTTP://a")) = "Website".
Proof.
  destruct classifier_priority_order as (_ & H & _).
  apply H. reflexivity.
Defined.

(** C1 as stated fails at ["http://"]: the string begins with the scheme,
    so the stated rule 1 makes it a Website, and the classifier answers
    Text. *)
Lemma classifier_bare_scheme_is_text :
  schemePrefix (lit "http://") = true /\
  classifyWith schemePrefix (lit "http://") = Website /\
  type (identifyDataType (lit "http://")) = "Text" /\
  type (identifyDataType (lit "http://")) <>
  label (classifyWith schemePrefix (lit "http://")).
Proof. repeat split; try reflexivity. discriminate. Qed.

(** C8: for every string the classifier returns a label, and that label is
    the label of exactly one of the eight content types. *)
Theorem classifier_total (s : str) :
  exists t : contentType,
    type (identifyDataType s) = label t /\
    forall t' : contentType, type (identifyDataType s) = label t' -> t' = t.
Proof.
  exists (classifyWith schemeThenText s). split.
  - apply identifyDataType_classify.
  - intros t' H. rewrite identifyDataType_classify in H.
    symmetry. now apply label_injective.
Qed.

Lemma classifier_total_witness :
  exists t : contentType,
    type (identifyDataType (lit "tel:123")) = label t /\ Phone = t.
Proof.
  destruct (classifier_total (lit "tel:123")) as (t & Ht & Hu).
  exists t. split; [exact Ht|]. apply Hu. reflexivity.
Defined.

(** A string with the app prefix is caught by no earlier rule. *)
Lemma app_prefix_classified (r : str) :
  identifyDataType (lit "qrcodeapp://" ++ r) =
  mkDataInfo "App deep link" "Navigate inside your app".
Proof. reflexivity. Qed.

(** C10: the acceptance test of the app-only scanner holds exactly when
    the classifier of the general scanner answers with the app-deep-link
    type. *)
Theorem validate_iff_app_deep_link (s : str) :
  AppOnly.isValid (AppOnly.validateAppQRCode s) = true <->
  type (identifyDataType s) = "App deep link".
Proof.
  unfold AppOnly.validateAppQRCode. split.
  - destruct (startsWith s (lit "qrcodeapp://")) eqn:E; [|discriminate].
    intros _. apply startsWith_true_iff in E as [r ->].
    now rewrite app_prefix_classified.
  - intros H. rewrite identifyDataType_classify in H.
    apply (label_injective _ AppDeepLink) in H.
    unfold classifyWith in H.
    destruct (startsWith s (lit "qrcodeapp://")); [reflexivity|].
    repeat match type of H with
           | (if ?b then _ else _) = _ => destruct b; try discriminate H
           end.
Qed.

Lemma validate_iff_app_deep_link_witness :
  type (identifyDataType (lit "qrcodeapp://home")) = "App deep link" /\
  AppOnly.isValid (AppOnly.validateAppQRCode (lit "qrcodeapp://users")) = true.
Proof.
  split.
  - apply (proj1 (validate_iff_app_deep_link (lit "qrcodeapp://home"))).
    reflexivity.
  - apply (proj2 (validate_iff_app_deep_link (lit "qrcodeapp://users"))).
    reflexivity.
Defined.

End Classifier.

(** * The handlers of the general scanner *)

Section ScannerFacts.

Import Scanner.

Variable P : Platform.

Ltac run_handler :=
  cbv [handleScannedData handleScannedDataIn executeAction
       handleDeepLinkNavigation restartCamera
       runCallback fireTimeout scanAndWait
       setScanHistory setIsScanning setShowResultPage setCurrentScannedData
       setCameraKey
       tryCatch bind ret throw perform setState getState setTimeout
       exec returns fst snd react calls timeouts truthy navigation
       scanHistory isScanning showResultPage currentScannedData cameraKey].

Ltac split_ifs :=
  repeat match goal with
         | |- context [if ?b then _ else _] => destruct b eqn:?
         end.

(** What a scan does to the dispatcher when it is idle: the handler
    returns, the dispatcher is suppressed, the item is first in the
    history, the camera key is untouched and one reset is scheduled. *)
Lemma handleScannedData_idle (w : World State) (ev : ScanEvent) :
  isScanning (react w) = false ->
  let w' := exec (handleScannedData P ev) w in
  returns (handleScannedData P ev) w = true /\
  isScanning (react w') = true /\
  scanHistory (react w') = scannerItem ev :: firstn 49 (scanHistory (react w)) /\
  cameraKey (react w') = cameraKey (react w) /\
  timeouts w' = timeouts w ++ [(ResetScanning, 100%N)].
Proof.
  intros H. destruct w as [[h sc sh cur key] cs ts]. simpl in H. subst sc.
  run_handler. split_ifs; repeat split; discriminate.
Qed.

Lemma handleScannedData_suppressed (w : World State) (ev : ScanEvent) :
  isScanning (react w) = true -> handleScannedData P ev w = (Some tt, w).
Proof.
  intros H. unfold handleScannedData, handleScannedDataIn, bind, getState.
  now rewrite H.
Qed.

Lemma segment_of_includes (s p : str) :
  includes s p = true -> exists x, segment s p = Some x.
Proof.
  intros H. apply cut_some_iff in H as (b & a & H).
  unfold segment. rewrite H. destruct (cut a p) as [[b' a']|]; eauto.
Qed.

Lemma segment_none (s p : str) : includes s p = false -> segment s p = None.
Proof.
  intros H. apply cut_none_iff in H. unfold segment. now rewrite H.
Qed.

Lemma deepLinkPath_segment (url : str) : deepLinkPath url = pathSegment url.
Proof.
  unfold deepLinkPath, pathSegment.
  rewrite elemAt_split_1 by apply lit_nonempty.
  destruct (includes url (lit "://")) eqn:I.
  - apply segment_of_includes in I as [x ->]. reflexivity.
  - now rewrite (segment_none _ _ I).
Qed.

(** The handler makes the call of the resolved target, and no other. *)
Lemma handleDeepLinkNavigation_calls (w : World State) (url : str) :
  calls (exec (handleDeepLinkNavigation P url) w) =
  calls w ++ navigation (resolveSegment url).
Proof.
  unfold resolveSegment, resolveWith. rewrite <- deepLinkPath_segment.
  unfold handleDeepLinkNavigation.
  rewrite elemAt_split_1 by apply lit_nonempty.
  destruct (includes (deepLinkPath url) (lit "user/")).
  - destruct (segment (deepLinkPath url) (lit "user/")) as [[|c u]|];
      run_handler; split_ifs; reflexivity.
  - run_handler; split_ifs; simpl; rewrite ?app_nil_r; reflexivity.
Qed.

(** When the call does not throw, nothing else changes. *)
Lemma handleDeepLinkNavigation_reliable (w : World State) (url : str) :
  (forall c, In c (navigation (resolveSegment url)) -> P c = false) ->
  handleDeepLinkNavigation P url w =
  (Some tt, mkWorld (react w) (calls w ++ navigation (resolveSegment url))
                    (timeouts w)).
Proof.
  unfold resolveSegment, resolveWith. rewrite <- deepLinkPath_segment.
  unfold handleDeepLinkNavigation.
  rewrite elemAt_split_1 by apply lit_nonempty.
  destruct w as [st cs ts].
  destruct (includes (deepLinkPath url) (lit "user/")).
  - destruct (segment (deepLinkPath url) (lit "user/")) as [[|c u]|];
      simpl; intros H; run_handler; rewrite H by (now left); reflexivity.
  - repeat match goal with
           | |- context [if includes ?a ?b then _ else _] =>
               destruct (includes a b)
           end;
      simpl; intros H; run_handler;
      rewrite ?H by (now left); rewrite ?app_nil_r; reflexivity.
Qed.

(** A link [qrcodeapp://user/<id>] whose identifier holds neither ["://"]
    nor ["user/"]: the identifier is all that follows. *)
Lemma resolveSegment_plain_id (uid : str) :
  includes uid (lit "://") = false ->
  includes uid (lit "user/") = false ->
  resolveSegment (lit "qrcodeapp://user/" ++ uid) =
  match uid with
  | [] => Users
  | _ :: _ => UserDetail uid
  end.
Proof.
  intros H1 H2. apply cut_none_iff in H1, H2.
  unfold resolveSegment, resolveWith, pathSegment, segment.
  cbn in *. rewrite H1. cbn. rewrite H2. destruct uid; reflexivity.
Qed.

(** The call of a scan has thrown: the result page shows the payload with
    the classification of the failure; an [openURL] call belongs to a
    payload that is not a deep link, a [navigate] call to a deep link. *)
Lemma handleScannedData_failed_call (w : World State) (ev : ScanEvent) (c : call) :
  isScanning (react w) = false ->
  calls (exec (handleScannedData P ev) w) = calls w ++ [c] ->
  P c = true ->
  showResultPage (react (exec (handleScannedData P ev) w)) = true /\
  currentScannedData (react (exec (handleScannedData P ev) w)) =
    Some (codeStringValue ev, failureInfo c) /\
  match c with
  | OpenURL url =>
      url = codeStringValue ev /\
      type (identifyDataType (codeStringValue ev)) <> "App deep link"
  | Navigate _ _ =>
      type (identifyDataType (codeStringValue ev)) = "App deep link"
  | AlertAlert _ _ => False
  end.
Proof.
  intros H. destruct w as [[h sc sh cur key] cs ts]. simpl in H. subst sc.
  intros Hc Hp. revert Hc.
  unfold handleScannedData, handleScannedDataIn, executeAction,
    handleDeepLinkNavigation.
  rewrite elemAt_split_1 by apply lit_nonempty.
  destruct (segment (deepLinkPath (codeStringValue ev)) (lit "user/"))
    as [[|u0 u]|];
    run_handler; split_ifs; intros Hc;
    try (apply app_inv_head in Hc; injection Hc as <-);
    try congruence;
    try (exfalso; apply (f_equal (@List.length call)) in Hc;
         rewrite length_app in Hc; simpl in Hc; lia);
    repeat match goal with
           | E : (_ =? _)%string = true |- _ => apply String.eqb_eq in E
           end;
    (split; [reflexivity|split; [reflexivity|]]);
    first [assumption | split; [reflexivity|congruence]].
Qed.

(** A timeout that fires leaves the dispatcher idle and is no longer
    pending. *)
Lemma fireTimeout_pending (w : World State) (t : callback * N)
    (rest : list (callback * N)) :
  timeouts w = t :: rest ->
  returns fireTimeout w = true /\
  isScanning (react (exec fireTimeout w)) = false /\
  timeouts (exec fireTimeout w) = rest.
Proof.
  intros H. destruct w as [[h sc sh cur key] cs ts]. simpl in H. subst ts.
  destruct t as [[] d]; run_handler; repeat split.
Qed.

End ScannerFacts.

(** Once all pending timeouts have fired, the dispatcher is idle. *)
Lemma drain_idle (n : nat) :
  forall w : World Scanner.State,
    List.length (timeouts w) = n ->
    n <> 0 \/ Scanner.isScanning (react w) = false ->
    returns (drain n) w = true /\
    Scanner.isScanning (react (exec (drain n) w)) = false.
Proof.
  induction n as [|n IH]; intros w Hl Hn.
  - destruct Hn as [Hn|Hn]; [congruence|]. split; [reflexivity|exact Hn].
  - destruct (timeouts w) as [|t rest] eqn:E; [discriminate Hl|].
    destruct (fireTimeout_pending w t rest E) as (Hr & Hi & Hq).
    cbn [drain]. unfold exec, returns, bind in *.
    destruct (Scanner.fireTimeout w) as [[[]|] w1]; [|discriminate Hr].
    cbn [fst snd] in *. apply IH.
    + rewrite Hq. simpl in Hl. lia.
    + now right.
Qed.

(** * The handlers of the app-only scanner *)

Section AppOnlyFacts.

Import AppOnly.

Variable P : Platform.

Ltac run_handler :=
  cbv [handleAppOnlyScannedData handleAppOnlyScannedDataIn
       handleAppDeepLinkNavigation restartCamera
       runCallback fireTimeout scanAndWait
       setAppScanHistory setIsScanning setShowResultPage setCurrentScannedData
       setCameraKey
       tryCatch bind ret throw perform setState getState setTimeout
       exec returns fst snd react calls timeouts truthy
       appScanHistory isScanning showResultPage currentScannedData cameraKey].

Ltac split_ifs :=
  repeat match goal with
         | |- context [if ?b then _ else _] => destruct b eqn:?
         end.

Lemma handleAppOnlyScannedData_suppressed (w : World State) (ev : ScanEvent) :
  isScanning (react w) = true -> handleAppOnlyScannedData P ev w = (Some tt, w).
Proof.
  intros H.
  unfold handleAppOnlyScannedData, handleAppOnlyScannedDataIn, bind, getState.
  now rewrite H.
Qed.

(** The deep-link handler writes neither the flag nor the history nor the
    camera key nor the timeouts, and it returns. *)
Lemma handleAppDeepLinkNavigation_frame (w : World State) (url : str) :
  let w' := exec (handleAppDeepLinkNavigation P url) w in
  returns (handleAppDeepLinkNavigation P url) w = true /\
  isScanning (react w') = isScanning (react w) /\
  appScanHistory (react w') = appScanHistory (react w) /\
  cameraKey (react w') = cameraKey (react w) /\
  timeouts w' = timeouts w.
Proof.
  destruct w as [[sc sh cur h key] cs ts].
  unfold handleAppDeepLinkNavigation.
  destruct (elemAt (split url (lit "qrcodeapp://")) 1) as [path|];
    run_handler; split_ifs; repeat split; discriminate.
Qed.

(** What a scan does to the dispatcher when it is idle. *)
Lemma handleAppOnlyScannedData_idle (w : World State) (ev : ScanEvent) :
  isScanning (react w) = false ->
  let w' := exec (handleAppOnlyScannedData P ev) w in
  returns (handleAppOnlyScannedData P ev) w = true /\
  isScanning (react w') = true /\
  appScanHistory (react w') =
    appOnlyItem ev :: firstn 49 (appScanHistory (react w)) /\
  cameraKey (react w') = cameraKey (react w) /\
  timeouts w' = timeouts w ++ [(ResetScanning, 100%N)].
Proof.
  intros H. destruct w as [[sc sh cur h key] cs ts]. simpl in H. subst sc.
  unfold handleAppOnlyScannedData, handleAppOnlyScannedDataIn, appOnlyItem.
  destruct (validateAppQRCode (codeStringValue ev)) as [v ty ac].
  destruct v.
  - unfold handleAppDeepLinkNavigation.
    destruct (elemAt (split (codeStringValue ev) (lit "qrcodeapp://")) 1)
      as [path|];
      run_handler; split_ifs; repeat split; discriminate.
  - run_handler. repeat split.
Qed.

(** A payload without the app prefix: nothing is called, the rejection is
    shown and recorded. *)
Lemma handleAppOnlyScannedData_rejects (w : World State) (ev : ScanEvent) :
  isScanning (react w) = false ->
  startsWith (codeStringValue ev) (lit "qrcodeapp://") = false ->
  handleAppOnlyScannedData P ev w =
  (Some tt,
   mkWorld
     (mkState true true
        (Some (codeStringValue ev,
               mkValidation false "Rejected" "This QR code is not app-related"))
        (mkHistoryItem (dateNow ev) (codeStringValue ev) "External/Invalid"
                       false (localeString ev)
         :: firstn 49 (appScanHistory (react w)))
        (cameraKey (react w)))
     (calls w)
     (timeouts w ++ [(ResetScanning, 100%N)])).
Proof.
  intros H E. destruct w as [[sc sh cur h key] cs ts]. simpl in H. subst sc.
  unfold handleAppOnlyScannedData, handleAppOnlyScannedDataIn, validateAppQRCode. rewrite E.
  reflexivity.
Qed.

(** A payload with the app prefix: the item is recorded as valid, then the
    deep-link handler runs, then the reset is scheduled. *)
Lemma handleAppOnlyScannedData_accepts (w : World State) (ev : ScanEvent) :
  isScanning (react w) = false ->
  startsWith (codeStringValue ev) (lit "qrcodeapp://") = true ->
  exec (handleAppOnlyScannedData P ev) w =
  exec (setTimeout ResetScanning 100)
    (exec (handleAppDeepLinkNavigation P (codeStringValue ev))
       (mkWorld
          (mkState true (showResultPage (react w)) (currentScannedData (react w))
             (mkHistoryItem (dateNow ev) (codeStringValue ev) "App Deep Link"
                            true (localeString ev)
              :: firstn 49 (appScanHistory (react w)))
             (cameraKey (react w)))
          (calls w) (timeouts w))).
Proof.
  intros H E. destruct w as [[sc sh cur h key] cs ts]. simpl in H. subst sc.
  unfold handleAppOnlyScannedData, handleAppOnlyScannedDataIn, validateAppQRCode. rewrite E.
  cbv [bind getState setState setIsScanning setAppScanHistory exec snd react
       isScanning showResultPage currentScannedData appScanHistory cameraKey
       calls timeouts isValid type].
  destruct (handleAppDeepLinkNavigation P (codeStringValue ev) _)
    as [[[]|] w'] eqn:R; try reflexivity.
  match type of R with
  | handleAppDeepLinkNavigation _ _ ?w0 = _ =>
      pose proof (handleAppDeepLinkNavigation_frame w0 (codeStringValue ev))
        as (Hr & _)
  end.
  unfold returns in Hr. rewrite R in Hr. discriminate Hr.
Qed.

End AppOnlyFacts.

(** * Sequences of scans *)

Section Sequencing.

Lemma bind_returns {S A B} (m : M S A) (k : A -> M S B) (w : World S) (a : A) :
  fst (m w) = Some a -> bind m k w = k a (snd (m w)).
Proof. unfold bind. destruct (m w) as [[x|] w']; simpl; congruence. Qed.

Lemma returns_some {S} (m : M S unit) (w : World S) :
  returns m w = true -> fst (m w) = Some tt.
Proof.
  unfold returns. destruct (fst (m w)) as [[]|]; [reflexivity|discriminate].
Qed.

Lemma firstn_app_firstn {A} (n : nat) (xs ys : list A) :
  firstn n (xs ++ firstn n ys) = firstn n (xs ++ ys).
Proof.
  rewrite !firstn_app, firstn_firstn. do 2 f_equal. lia.
Qed.

Lemma firstn_cons_firstn {A} (n : nat) (x : A) (xs ys : list A) :
  firstn (S n) (xs ++ x :: firstn n ys) = firstn (S n) (xs ++ x :: ys).
Proof. apply (firstn_app_firstn (S n) xs (x :: ys)). Qed.

Variable P : Platform.

(** One scan and the firing of its timeout, general scanner. *)
Lemma scanner_scanAndWait (w : World Scanner.State) (ev : ScanEvent) :
  Scanner.isScanning (react w) = false ->
  timeouts w = [] ->
  let w' := exec (Scanner.scanAndWait P ev) w in
  returns (Scanner.scanAndWait P ev) w = true /\
  Scanner.isScanning (react w') = false /\
  timeouts w' = [] /\
  Scanner.scanHistory (react w') =
    scannerItem ev :: firstn 49 (Scanner.scanHistory (react w)).
Proof.
  intros Hi Ht.
  destruct (handleScannedData_idle P w ev Hi) as (Hr & _ & Hh & _ & Hq).
  apply returns_some in Hr.
  unfold Scanner.scanAndWait, exec, returns.
  rewrite (bind_returns _ _ _ tt Hr).
  unfold exec in Hh, Hq. rewrite Ht in Hq. simpl in Hq.
  unfold Scanner.fireTimeout. rewrite Hq. simpl. auto.
Qed.

Lemma scanner_scanAll (events : list ScanEvent) :
  forall w : World Scanner.State,
    Scanner.isScanning (react w) = false ->
    timeouts w = [] ->
    List.length (Scanner.scanHistory (react w)) <= 50 ->
    let w' := exec (Scanner.scanAll P events) w in
    returns (Scanner.scanAll P events) w = true /\
    Scanner.isScanning (react w') = false /\
    timeouts w' = [] /\
    Scanner.scanHistory (react w') =
      firstn 50 (rev (map scannerItem events) ++ Scanner.scanHistory (react w)).
Proof.
  induction events as [|e rest IH]; intros w Hi Ht Hl.
  - cbn [Scanner.scanAll AppOnly.scanAll map rev app].
    unfold exec, returns, ret; cbn [fst snd].
    repeat split; auto. now rewrite firstn_all2.
  - destruct (scanner_scanAndWait w e Hi Ht) as (Hr & Hi' & Ht' & Hh).
    apply returns_some in Hr.
    cbn [Scanner.scanAll]. unfold exec, returns.
    rewrite (bind_returns _ _ _ tt Hr).
    destruct (IH _ Hi' Ht') as (Hr2 & Hi2 & Ht2 & Hh2).
    { unfold exec in *. rewrite Hh. cbn [List.length].
      rewrite length_firstn. lia. }
    repeat split; auto.
    unfold exec in *. rewrite Hh2, Hh. cbn [map rev].
    rewrite <- app_assoc. cbn [app].
    apply (firstn_cons_firstn 49).
Qed.

(** One scan and the firing of its timeout, app-only scanner. *)
Lemma appOnly_scanAndWait (w : World AppOnly.State) (ev : ScanEvent) :
  AppOnly.isScanning (react w) = false ->
  timeouts w = [] ->
  let w' := exec (AppOnly.scanAndWait P ev) w in
  returns (AppOnly.scanAndWait P ev) w = true /\
  AppOnly.isScanning (react w') = false /\
  timeouts w' = [] /\
  AppOnly.appScanHistory (react w') =
    appOnlyItem ev :: firstn 49 (AppOnly.appScanHistory (react w)).
Proof.
  intros Hi Ht.
  destruct (handleAppOnlyScannedData_idle P w ev Hi) as (Hr & _ & Hh & _ & Hq).
  apply returns_some in Hr.
  unfold AppOnly.scanAndWait, exec, returns.
  rewrite (bind_returns _ _ _ tt Hr).
  unfold exec in Hh, Hq. rewrite Ht in Hq. simpl in Hq.
  unfold AppOnly.fireTimeout. rewrite Hq. simpl. auto.
Qed.

Lemma appOnly_scanAll (events : list ScanEvent) :
  forall w : World AppOnly.State,
    AppOnly.isScanning (react w) = false ->
    timeouts w = [] ->
    List.length (AppOnly.appScanHistory (react w)) <= 50 ->
    let w' := exec (AppOnly.scanAll P events) w in
    returns (AppOnly.scanAll P events) w = true /\
    AppOnly.isScanning (react w') = false /\
    timeouts w' = [] /\
    AppOnly.appScanHistory (react w') =
      firstn 50 (rev (map appOnlyItem events) ++ AppOnly.appScanHistory (react w)).
Proof.
  induction events as [|e rest IH]; intros w Hi Ht Hl.
  - cbn [Scanner.scanAll AppOnly.scanAll map rev app].
    unfold exec, returns, ret; cbn [fst snd].
    repeat split; auto. now rewrite firstn_all2.
  - destruct (appOnly_scanAndWait w e Hi Ht) as (Hr & Hi' & Ht' & Hh).
    apply returns_some in Hr.
    cbn [AppOnly.scanAll]. unfold exec, returns.
    rewrite (bind_returns _ _ _ tt Hr).
    destruct (IH _ Hi' Ht') as (Hr2 & Hi2 & Ht2 & Hh2).
    { unfold exec in *. rewrite Hh. cbn [List.length].
      rewrite length_firstn. lia. }
    repeat split; auto.
    unfold exec in *. rewrite Hh2, Hh. cbn [map rev].
    rewrite <- app_assoc. cbn [app].
    apply (firstn_cons_firstn 49).
Qed.

End Sequencing.

(** * The deep-link resolver *)

Example resolve_user_42 :
  resolveSegment (lit "qrcodeapp://user/42") = UserDetail (lit "42").
Proof. reflexivity. Qed.

Example resolve_users : resolveSegment (lit "qrcodeapp://users") = Users.
Proof. reflexivity. Qed.

Example resolve_scanner :
  resolveSegment (lit "qrcodeapp://scanner") = ScannerScreen.
Proof. reflexivity. Qed.

(** C2, as amended: the path of a deep link is the text between its first
    ["://"] and the next ["://"] (to the end when there is none; the whole
    string when it has no ["://"]).  When the path contains [user/], the
    identifier is the text between the first [user/] and the next [user/]
    (to the end of the path when there is none): a non-empty identifier
    gives UserDetail with that [id], an empty one gives Users.  For a link
    [qrcodeapp://user/<id>] whose [<id>] holds neither ["://"] nor [user/]
    the identifier is [<id>].  A path with none of the recognized patterns
    gives Home, and when the router accepts the call nothing else changes.
    [qrcodeapp://user/42] gives UserDetail with id ["42"],
    [qrcodeapp://user/] gives Users, [qrcodeapp://unknownpath] gives
    Home. *)
Theorem deep_link_resolution (P : Platform) (w : World Scanner.State) (url : str) :
  calls (exec (Scanner.handleDeepLinkNavigation P url) w) =
    calls w ++ navigation (resolveSegment url) /\
  Scanner.deepLinkPath url = pathSegment url /\
  (includes (pathSegment url) (lit "user/") = true ->
   exists uid,
     segment (pathSegment url) (lit "user/") = Some uid /\
     resolveSegment url =
       match uid with [] => Users | _ :: _ => UserDetail uid end) /\
  (forall uid,
      includes uid (lit "://") = false ->
      includes uid (lit "user/") = false ->
      resolveSegment (lit "qrcodeapp://user/" ++ uid) =
        match uid with [] => Users | _ :: _ => UserDetail uid end) /\
  (includes (pathSegment url) (lit "user/") = false ->
   includes (pathSegment url) (lit "users") = false ->
   includes (pathSegment url) (lit "scanner") = false ->
   includes (pathSegment url) (lit "home") = false ->
   includes (pathSegment url) (lit "profile") = false ->
   includes (pathSegment url) (lit "dashboard") = false ->
   resolveSegment url = Home /\
   (P (Navigate "Home" None) = false ->
    Scanner.handleDeepLinkNavigation P url w =
      (Some tt,
       mkWorld (react w) (calls w ++ [Navigate "Home" None]) (timeouts w)))) /\
  resolveSegment (lit "qrcodeapp://user/42") = UserDetail (lit "42") /\
  resolveSegment (lit "qrcodeapp://user/") = Users /\
  resolveSegment (lit "qrcodeapp://unknownpath") = Home.
Proof.
  split; [apply handleDeepLinkNavigation_calls|].
  split; [apply deepLinkPath_segment|].
  split; [|split; [apply resolveSegment_plain_id|split]].
  - intros H. destruct (segment_of_includes _ _ H) as [uid Hu].
    exists uid. split; [exact Hu|].
    unfold resolveSegment, resolveWith. rewrite H, Hu.
    destruct uid; reflexivity.
  - intros H1 H2 H3 H4 H5 H6.
    assert (R : resolveSegment url = Home).
    { unfold resolveSegment, resolveWith.
      now rewrite H1, H2, H3, H4, H5, H6. }
    split; [exact R|]. intros Hp.
    rewrite handleDeepLinkNavigation_reliable; rewrite R; [reflexivity|].
    intros c [<-|[]]. exact Hp.
  - repeat split.
Qed.

Lemma deep_link_resolution_witness :
  resolveSegment (lit "qrcodeapp://team/user/7") = UserDetail (lit "7") /\
  resolveSegment (lit "qrcodeapp://user/" ++ lit "ab") = UserDetail (lit "ab") /\
  Scanner.handleDeepLinkNavigation reliable (lit "qrcodeapp://unknownpath")
    Scanner.start =
    (Some tt, mkWorld Scanner.initial [Navigate "Home" None] []).
Proof.
  destruct (deep_link_resolution reliable Scanner.start
              (lit "qrcodeapp://team/user/7")) as (_ & _ & H3 & H4 & _).
  destruct (deep_link_resolution reliable Scanner.start
              (lit "qrcodeapp://unknownpath")) as (_ & _ & _ & _ & H5 & _).
  split; [|split].
  - destruct (H3 eq_refl) as (uid & Hu & Hr).
    vm_compute in Hu. injection Hu as <-. exact Hr.
  - apply (H4 (lit "ab")); reflexivity.
  - apply H5; reflexivity.
Defined.

(** C2 as stated fails at [qrcodeapp://user/1user/2]: what follows
    [user/] in the path is ["1user/2"] (and ["2"] after its last
    occurrence), and the handler navigates with the id ["1"]. *)
Lemma deep_link_second_marker :
  includes (pathFollowing (lit "qrcodeapp://user/1user/2")) (lit "user/") = true /\
  following (pathFollowing (lit "qrcodeapp://user/1user/2")) (lit "user/") =
    Some (lit "1user/2") /\
  followingLast 12 (pathFollowing (lit "qrcodeapp://user/1user/2")) (lit "user/") =
    Some (lit "2") /\
  calls (exec (Scanner.handleDeepLinkNavigation reliable
                 (lit "qrcodeapp://user/1user/2")) Scanner.start) =
    [Navigate "UserDetail" (Some (lit "1"))] /\
  calls (exec (Scanner.handleDeepLinkNavigation reliable
                 (lit "qrcodeapp://user/1user/2")) Scanner.start) <>
    navigation (resolveFollowing (lit "qrcodeapp://user/1user/2")).
Proof. repeat split; try reflexivity. vm_compute. discriminate. Qed.

(** * The two deep-link handlers side by side *)

(** C3 at the link [qrcodeapp://profile]: the general handler navigates
    to Users, the app-only handler, which has no [profile] rule, navigates
    to Home.  On [qrcodeapp://dashboard] both navigate to Home. *)
Theorem profile_link_targets_differ (P : Platform) :
  calls (exec (Scanner.handleDeepLinkNavigation P (lit "qrcodeapp://profile"))
           Scanner.start) = [Navigate "Users" None] /\
  calls (exec (AppOnly.handleAppDeepLinkNavigation P (lit "qrcodeapp://profile"))
           AppOnly.start) = [Navigate "Home" None] /\
  calls (exec (Scanner.handleDeepLinkNavigation P (lit "qrcodeapp://dashboard"))
           Scanner.start) = [Navigate "Home" None] /\
  calls (exec (AppOnly.handleAppDeepLinkNavigation P (lit "qrcodeapp://dashboard"))
           AppOnly.start) = [Navigate "Home" None].
Proof.
  repeat split.
  - rewrite handleDeepLinkNavigation_calls. reflexivity.
  - cbv. destruct (P _); reflexivity.
  - rewrite handleDeepLinkNavigation_calls. reflexivity.
  - cbv. destruct (P _); reflexivity.
Qed.

(** The paths differ as well when the link has a second ["://"]: the
    general handler stops the path there, the app-only handler does
    not. *)
Lemma second_separator_targets_differ (P : Platform) :
  calls (exec (Scanner.handleDeepLinkNavigation P (lit "qrcodeapp://a://user/5"))
           Scanner.start) = [Navigate "Home" None] /\
  calls (exec (AppOnly.handleAppDeepLinkNavigation P (lit "qrcodeapp://a://user/5"))
           AppOnly.start) = [Navigate "UserDetail" (Some (lit "5"))].
Proof.
  split.
  - rewrite handleDeepLinkNavigation_calls. reflexivity.
  - cbv. destruct (P _); reflexivity.
Qed.

(** Apart from these two differences the handlers agree: on a link
    [qrcodeapp://<rest>] whose [<rest>] holds no ["://"] and either holds
    no [profile] or matches an earlier pattern, the app-only handler
    navigates as the general one does. *)
Lemma deep_link_handlers_agree (P : Platform) (ws : World Scanner.State)
    (wa : World AppOnly.State) (rest : str) :
  includes rest (lit "://") = false ->
  includes rest (lit "profile") = false \/
  includes rest (lit "user/") = true \/ includes rest (lit "users") = true \/
  includes rest (lit "scanner") = true \/ includes rest (lit "home") = true ->
  navigations
    (calls (exec (AppOnly.handleAppDeepLinkNavigation P (lit "qrcodeapp://" ++ rest)) wa)) =
    navigations (calls wa) ++ navigation (resolveSegment (lit "qrcodeapp://" ++ rest)) /\
  navigations
    (calls (exec (Scanner.handleDeepLinkNavigation P (lit "qrcodeapp://" ++ rest)) ws)) =
    navigations (calls ws) ++ navigation (resolveSegment (lit "qrcodeapp://" ++ rest)).
Proof.
  intros Hsep Hpat.
  assert (Hgen : navigation (resolveSegment (lit "qrcodeapp://" ++ rest)) =
                 navigations (navigation (resolveSegment (lit "qrcodeapp://" ++ rest)))).
  { destruct (resolveSegment _); reflexivity. }
  split.
  2:{ rewrite handleDeepLinkNavigation_calls. unfold navigations at 1.
      rewrite filter_app. fold (navigations (calls ws)). now rewrite Hgen at 2. }
  assert (Hpath : pathSegment (lit "qrcodeapp://" ++ rest) = rest).
  { unfold pathSegment, segment.
    pose proof (proj2 (cut_none_iff rest (lit "://")) Hsep) as Hc.
    cbn in *. now rewrite Hc. }
  assert (Happ : elemAt (split (lit "qrcodeapp://" ++ rest) (lit "qrcodeapp://")) 1 =
                 Some rest).
  { rewrite elemAt_split_1 by apply lit_nonempty.
    unfold segment. rewrite cut_prefix.
    assert (Hn : includes rest (lit "qrcodeapp://") = false).
    { destruct (includes rest (lit "qrcodeapp://")) eqn:E; [|reflexivity].
      change (lit "qrcodeapp://") with (lit "qrcodeapp" ++ lit "://") in E.
      apply includes_tail in E. congruence. }
    apply cut_none_iff in Hn. now rewrite Hn. }
  unfold resolveSegment, resolveWith. rewrite Hpath.
  unfold AppOnly.handleAppDeepLinkNavigation. rewrite Happ.
  rewrite elemAt_split_1 by apply lit_nonempty.
  destruct wa as [st cs ts].
  destruct (includes rest (lit "user/")) eqn:E1.
  { destruct (segment rest (lit "user/")) as [[|c u]|];
      cbv [AppOnly.setShowResultPage AppOnly.setCurrentScannedData tryCatch bind
           perform setState exec snd react calls timeouts truthy navigation];
      destruct (P _); cbn [calls]; unfold navigations;
      rewrite filter_app; reflexivity. }
  destruct (includes rest (lit "users")) eqn:E2;
    [|destruct (includes rest (lit "scanner")) eqn:E3;
      [|destruct (includes rest (lit "home")) eqn:E4;
        [|destruct (includes rest (lit "profile")) eqn:E5;
          [exfalso; intuition congruence|]]]];
    cbv [AppOnly.setShowResultPage AppOnly.setCurrentScannedData tryCatch bind
         perform setState exec snd react calls timeouts truthy navigation];
    try destruct (includes rest (lit "dashboard"));
    destruct (P _); cbn [calls]; unfold navigations;
    rewrite filter_app; cbn [filter]; rewrite ?app_nil_r; reflexivity.
Qed.

(** * The bounded histories *)

Lemma push_evicts_last {A} (x : A) (h : list A) :
  List.length h = 50 -> x :: firstn 49 h = x :: removelast h.
Proof. intros H. now rewrite removelast_firstn_len, H. Qed.

Lemma newest_first {A} (items : list A) :
  List.length items = 60 ->
  firstn 50 (rev items) = rev (skipn 10 items) /\
  List.length (firstn 50 (rev items)) = 50.
Proof.
  intros H. split.
  - now rewrite firstn_rev, H.
  - rewrite length_firstn, length_rev, H. reflexivity.
Qed.

(** C5: in both scanners a scan taken while idle puts its item first and
    keeps the 49 newest of the items before it, so the history never holds
    more than 50 items and, when it held 50, its last (oldest) item is
    gone.  A run of scans, each followed by the firing of its timeout,
    leaves the 50 newest items, newest first; after 60 scans these are the
    last 50 of the 60, and the length is 50. *)
Theorem history_capped (P : Platform) :
  (forall (w : World Scanner.State) (ev : ScanEvent),
      Scanner.isScanning (react w) = false ->
      let h := Scanner.scanHistory (react w) in
      let h' := Scanner.scanHistory
                  (react (exec (Scanner.handleScannedData P ev) w)) in
      h' = scannerItem ev :: firstn 49 h /\
      List.length h' <= 50 /\
      (List.length h = 50 -> h' = scannerItem ev :: removelast h)) /\
  (forall (w : World AppOnly.State) (ev : ScanEvent),
      AppOnly.isScanning (react w) = false ->
      let h := AppOnly.appScanHistory (react w) in
      let h' := AppOnly.appScanHistory
                  (react (exec (AppOnly.handleAppOnlyScannedData P ev) w)) in
      h' = appOnlyItem ev :: firstn 49 h /\
      List.length h' <= 50 /\
      (List.length h = 50 -> h' = appOnlyItem ev :: removelast h)) /\
  (forall events : list ScanEvent,
      let h := Scanner.scanHistory
                 (react (exec (Scanner.scanAll P events) Scanner.start)) in
      returns (Scanner.scanAll P events) Scanner.start = true /\
      h = firstn 50 (rev (map scannerItem events)) /\
      (List.length events = 60 ->
       List.length h = 50 /\ h = rev (map scannerItem (skipn 10 events)))) /\
  (forall events : list ScanEvent,
      let h := AppOnly.appScanHistory
                 (react (exec (AppOnly.scanAll P events) AppOnly.start)) in
      returns (AppOnly.scanAll P events) AppOnly.start = true /\
      h = firstn 50 (rev (map appOnlyItem events)) /\
      (List.length events = 60 ->
       List.length h = 50 /\ h = rev (map appOnlyItem (skipn 10 events)))).
Proof.
  split; [|split; [|split]].
  - intros w ev H h h'.
    destruct (handleScannedData_idle P w ev H) as (_ & _ & Hh & _).
    subst h h'. rewrite Hh. split; [reflexivity|split].
    + cbn [List.length]. rewrite length_firstn. lia.
    + apply push_evicts_last.
  - intros w ev H h h'.
    destruct (handleAppOnlyScannedData_idle P w ev H) as (_ & _ & Hh & _).
    subst h h'. rewrite Hh. split; [reflexivity|split].
    + cbn [List.length]. rewrite length_firstn. lia.
    + apply push_evicts_last.
  - intros events h.
    destruct (scanner_scanAll P events Scanner.start eq_refl eq_refl)
      as (Hr & _ & _ & Hh); [simpl; lia|].
    subst h. rewrite Hh. cbn [Scanner.start react Scanner.initial Scanner.scanHistory].
    rewrite app_nil_r. split; [exact Hr|split; [reflexivity|]].
    intros H60.
    destruct (newest_first (map scannerItem events)) as (E & L);
      [now rewrite length_map|].
    rewrite L, E, skipn_map. split; reflexivity.
  - intros events h.
    destruct (appOnly_scanAll P events AppOnly.start eq_refl eq_refl)
      as (Hr & _ & _ & Hh); [simpl; lia|].
    subst h. rewrite Hh.
    cbn [AppOnly.start react AppOnly.initial AppOnly.appScanHistory].
    rewrite app_nil_r. split; [exact Hr|split; [reflexivity|]].
    intros H60.
    destruct (newest_first (map appOnlyItem events)) as (E & L);
      [now rewrite length_map|].
    rewrite L, E, skipn_map. split; reflexivity.
Qed.

Lemma history_capped_witness :
  (let w := exec (Scanner.scanAll reliable (sampleEvents 50)) Scanner.start in
   let ev := mkScanEvent (lit "tel:51") 51 "t" in
   Scanner.scanHistory (react (exec (Scanner.handleScannedData reliable ev) w)) =
     scannerItem ev :: removelast (Scanner.scanHistory (react w))) /\
  (let w := exec (AppOnly.scanAll reliable (sampleEvents 50)) AppOnly.start in
   let ev := mkScanEvent (lit "tel:51") 51 "t" in
   AppOnly.appScanHistory
     (react (exec (AppOnly.handleAppOnlyScannedData reliable ev) w)) =
     appOnlyItem ev :: removelast (AppOnly.appScanHistory (react w))) /\
  List.length
    (Scanner.scanHistory
       (react (exec (Scanner.scanAll reliable (sampleEvents 60)) Scanner.start))) = 50 /\
  List.length
    (AppOnly.appScanHistory
       (react (exec (AppOnly.scanAll reliable (sampleEvents 60)) AppOnly.start))) = 50.
Proof.
  destruct (history_capped reliable) as (H1 & H2 & H3 & H4).
  split; [|split; [|split]].
  - intros w ev.
    assert (Hi : Scanner.isScanning (react w) = false) by (vm_compute; reflexivity).
    destruct (H1 w ev Hi) as (_ & _ & H). apply H. vm_compute; reflexivity.
  - intros w ev.
    assert (Hi : AppOnly.isScanning (react w) = false) by (vm_compute; reflexivity).
    destruct (H2 w ev Hi) as (_ & _ & H). apply H. vm_compute; reflexivity.
  - destruct (H3 (sampleEvents 60)) as (_ & _ & H).
    apply H. vm_compute; reflexivity.
  - destruct (H4 (sampleEvents 60)) as (_ & _ & H).
    apply H. vm_compute; reflexivity.
Defined.

(** * The gate of the app-only scanner *)

Section Gate.

Variable P : Platform.

Lemma appOnly_home_link (w : World AppOnly.State) :
  AppOnly.handleAppDeepLinkNavigation P (lit "qrcodeapp://home") w =
  if P (Navigate "Home" None) then
    (Some tt,
     mkWorld
       (AppOnly.mkState (AppOnly.isScanning (react w)) true
          (Some (lit "qrcodeapp://home",
                 AppOnly.mkValidation false "App Deep Link Error" "Navigation failed"))
          (AppOnly.appScanHistory (react w)) (AppOnly.cameraKey (react w)))
       (calls w ++ [Navigate "Home" None]) (timeouts w))
  else
    (Some tt, mkWorld (react w) (calls w ++ [Navigate "Home" None]) (timeouts w)).
Proof.
  destruct w as [[sc sh cur h key] cs ts].
  cbv. destruct (P _); reflexivity.
Qed.

End Gate.

(** C6: the app-only dispatcher, idle.  A payload that does not start with
    [qrcodeapp://] is rejected: no call is made, the result page shows the
    payload with type [Rejected] and the reason [This QR code is not
    app-related], and the history gets an item with [isValid = false].  A
    payload that starts with [qrcodeapp://] is recorded with
    [isValid = true] and handed to the deep-link handler.
    [https://example.com] is rejected; [qrcodeapp://home] navigates to
    Home, and when the router accepts the call no result page is
    raised. *)
Theorem app_only_gate (P : Platform) (w : World AppOnly.State) (ev : ScanEvent) :
  AppOnly.isScanning (react w) = false ->
  let w' := exec (AppOnly.handleAppOnlyScannedData P ev) w in
  (startsWith (codeStringValue ev) (lit "qrcodeapp://") = false ->
   AppOnly.handleAppOnlyScannedData P ev w =
     (Some tt,
      mkWorld
        (AppOnly.mkState true true
           (Some (codeStringValue ev,
                  AppOnly.mkValidation false "Rejected"
                    "This QR code is not app-related"))
           (AppOnly.mkHistoryItem (dateNow ev) (codeStringValue ev)
              "External/Invalid" false (localeString ev)
            :: firstn 49 (AppOnly.appScanHistory (react w)))
           (AppOnly.cameraKey (react w)))
        (calls w)
        (timeouts w ++ [(ResetScanning, 100%N)]))) /\
  (startsWith (codeStringValue ev) (lit "qrcodeapp://") = true ->
   returns (AppOnly.handleAppOnlyScannedData P ev) w = true /\
   AppOnly.appScanHistory (react w') =
     AppOnly.mkHistoryItem (dateNow ev) (codeStringValue ev)
       "App Deep Link" true (localeString ev)
     :: firstn 49 (AppOnly.appScanHistory (react w)) /\
   w' =
     exec (setTimeout ResetScanning 100)
       (exec (AppOnly.handleAppDeepLinkNavigation P (codeStringValue ev))
          (mkWorld
             (AppOnly.mkState true (AppOnly.showResultPage (react w))
                (AppOnly.currentScannedData (react w))
                (AppOnly.mkHistoryItem (dateNow ev) (codeStringValue ev)
                   "App Deep Link" true (localeString ev)
                 :: firstn 49 (AppOnly.appScanHistory (react w)))
                (AppOnly.cameraKey (react w)))
             (calls w) (timeouts w)))) /\
  (codeStringValue ev = lit "https://example.com" ->
   calls w' = calls w /\
   AppOnly.showResultPage (react w') = true /\
   AppOnly.currentScannedData (react w') =
     Some (lit "https://example.com",
           AppOnly.mkValidation false "Rejected" "This QR code is not app-related") /\
   option_map AppOnly.itemIsValid (hd_error (AppOnly.appScanHistory (react w'))) =
     Some false) /\
  (codeStringValue ev = lit "qrcodeapp://home" ->
   calls w' = calls w ++ [Navigate "Home" None] /\
   option_map AppOnly.itemIsValid (hd_error (AppOnly.appScanHistory (react w'))) =
     Some true /\
   (P (Navigate "Home" None) = false ->
    AppOnly.showResultPage (react w') = AppOnly.showResultPage (react w) /\
    AppOnly.currentScannedData (react w') = AppOnly.currentScannedData (react w))).
Proof.
  intros Hi w'. split; [|split; [|split]].
  - apply handleAppOnlyScannedData_rejects. exact Hi.
  - intros E.
    destruct (handleAppOnlyScannedData_idle P w ev Hi) as (Hr & _ & Hh & _).
    split; [exact Hr|]. split.
    + subst w'. rewrite Hh. unfold appOnlyItem, AppOnly.validateAppQRCode.
      now rewrite E.
    + now apply handleAppOnlyScannedData_accepts.
  - intros E. subst w'. unfold exec.
    rewrite handleAppOnlyScannedData_rejects; [|exact Hi|now rewrite E].
    rewrite E. repeat split.
  - intros E. subst w'.
    rewrite handleAppOnlyScannedData_accepts; [|exact Hi|now rewrite E].
    rewrite E. unfold exec. rewrite appOnly_home_link.
    destruct (P (Navigate "Home" None)); repeat split; discriminate.
Qed.

Lemma app_only_gate_witness :
  (let w' := exec (AppOnly.handleAppOnlyScannedData reliable
                     (mkScanEvent (lit "https://example.com") 7 "t"))
                  AppOnly.start in
   calls w' = [] /\
   AppOnly.appScanHistory (react w') =
     [AppOnly.mkHistoryItem 7 (lit "https://example.com") "External/Invalid"
        false "t"]) /\
  (let w' := exec (AppOnly.handleAppOnlyScannedData reliable
                     (mkScanEvent (lit "qrcodeapp://home") 8 "t"))
                  AppOnly.start in
   calls w' = [Navigate "Home" None] /\
   AppOnly.showResultPage (react w') = false /\
   AppOnly.appScanHistory (react w') =
     [AppOnly.mkHistoryItem 8 (lit "qrcodeapp://home") "App Deep Link" true "t"]).
Proof.
  split.
  - destruct (app_only_gate reliable AppOnly.start
                (mkScanEvent (lit "https://example.com") 7 "t") eq_refl)
      as (H1 & _ & H3 & _).
    destruct (H3 eq_refl) as (Hc & _).
    split; [exact Hc|]. unfold exec. rewrite (H1 eq_refl). reflexivity.
  - destruct (app_only_gate reliable AppOnly.start
                (mkScanEvent (lit "qrcodeapp://home") 8 "t") eq_refl)
      as (_ & H2 & _ & H4).
    destruct (H4 eq_refl) as (Hc & _ & Hs).
    destruct (Hs eq_refl) as (Hp & _).
    destruct (H2 eq_refl) as (_ & Hh & _).
    repeat split; assumption.
Defined.

(** * Failures of the platform calls *)

(** C7, as amended: take a scan in the general dispatcher, idle, whose
    call into the platform throws.  When it is the [Linking.openURL] call
    of a Website, Phone, SMS or Email payload, [executeAction] catches it
    and the result page shows the raw payload with type [Error] and action
    [Could not process]; when it is the [navigation.navigate] call of an
    app deep link, [handleDeepLinkNavigation] catches it itself and the
    result page shows the raw payload with type [App deep link] and action
    [Navigation failed].  In both cases the handler returns, the reset of
    the scanning flag is scheduled, and once the pending timeouts have
    fired the dispatcher is idle. *)
Theorem failed_action_presented (P : Platform) (w : World Scanner.State)
    (ev : ScanEvent) (c : call) :
  Scanner.isScanning (react w) = false ->
  calls (exec (Scanner.handleScannedData P ev) w) = calls w ++ [c] ->
  P c = true ->
  let w' := exec (Scanner.handleScannedData P ev) w in
  returns (Scanner.handleScannedData P ev) w = true /\
  Scanner.showResultPage (react w') = true /\
  Scanner.currentScannedData (react w') =
    Some (codeStringValue ev,
          match c with
          | OpenURL _ => Scanner.mkDataInfo "Error" "Could not process"
          | _ => Scanner.mkDataInfo "App deep link" "Navigation failed"
          end) /\
  match c with
  | OpenURL url =>
      url = codeStringValue ev /\
      Scanner.type (Scanner.identifyDataType (codeStringValue ev)) <> "App deep link"
  | Navigate _ _ =>
      Scanner.type (Scanner.identifyDataType (codeStringValue ev)) = "App deep link"
  | AlertAlert _ _ => False
  end /\
  timeouts w' = timeouts w ++ [(ResetScanning, 100%N)] /\
  returns (drain (List.length (timeouts w'))) w' = true /\
  Scanner.isScanning (react (exec (drain (List.length (timeouts w'))) w')) = false.
Proof.
  intros Hi Hc Hp w'.
  destruct (handleScannedData_idle P w ev Hi) as (Hr & _ & _ & _ & Hq).
  destruct (handleScannedData_failed_call P w ev c Hi Hc Hp) as (Hs & Hd & Hk).
  fold w' in Hq, Hs, Hd.
  repeat (split; [assumption|]).
  apply drain_idle; [reflexivity|].
  left. rewrite Hq, length_app. simpl. lia.
Qed.

Lemma failed_action_presented_witness :
  Scanner.currentScannedData
    (react (exec (Scanner.handleScannedData failing
                    (mkScanEvent (lit "tel:123") 3 "t")) Scanner.start)) =
    Some (lit "tel:123", Scanner.mkDataInfo "Error" "Could not process") /\
  Scanner.isScanning
    (react (exec (drain 1)
              (exec (Scanner.handleScannedData failing
                       (mkScanEvent (lit "tel:123") 3 "t")) Scanner.start))) = false.
Proof.
  destruct (failed_action_presented failing Scanner.start
              (mkScanEvent (lit "tel:123") 3 "t") (OpenURL (lit "tel:123"))
              eq_refl eq_refl eq_refl) as (_ & _ & Hd & _ & _ & _ & Hi).
  split; [exact Hd | exact Hi].
Defined.

(** C7 as stated fails at [qrcodeapp://home] on a platform whose router
    throws: the scan is auto-category, its call throws, and the result
    page carries the type [App deep link], not [Error]. *)
Lemma failed_navigation_keeps_type :
  Scanner.isScanning (react Scanner.start) = false /\
  Scanner.type (Scanner.identifyDataType (lit "qrcodeapp://home")) = "App deep link" /\
  calls (exec (Scanner.handleScannedData failing
                 (mkScanEvent (lit "qrcodeapp://home") 1 "t")) Scanner.start) =
    calls Scanner.start ++ [Navigate "Home" None] /\
  failing (Navigate "Home" None) = true /\
  Scanner.currentScannedData
    (react (exec (Scanner.handleScannedData failing
                    (mkScanEvent (lit "qrcodeapp://home") 1 "t")) Scanner.start)) =
    Some (lit "qrcodeapp://home",
          Scanner.mkDataInfo "App deep link" "Navigation failed") /\
  Scanner.currentScannedData
    (react (exec (Scanner.handleScannedData failing
                    (mkScanEvent (lit "qrcodeapp://home") 1 "t")) Scanner.start)) <>
    Some (lit "qrcodeapp://home", Scanner.mkDataInfo "Error" "Could not process").
Proof. repeat split; try reflexivity. vm_compute. discriminate. Qed.

(** * Restarting the camera *)

(** C9: in both scanners, whatever the state and whatever timeouts are
    pending, [restartCamera] returns and leaves the dispatcher idle, and a
    second call right after it does the same: it changes the camera key,
    which counts the restarts, and nothing else.  The pending timeouts are
    left as they were, and the dispatcher is idle when the next one
    fires. *)
Theorem restart_idempotent :
  (forall w : World Scanner.State,
      let w1 := exec Scanner.restartCamera w in
      let w2 := exec Scanner.restartCamera w1 in
      returns Scanner.restartCamera w = true /\
      returns Scanner.restartCamera w1 = true /\
      Scanner.isScanning (react w1) = false /\
      Scanner.isScanning (react w2) = false /\
      w2 = mkWorld
             (Scanner.mkState (Scanner.scanHistory (react w1))
                (Scanner.isScanning (react w1)) (Scanner.showResultPage (react w1))
                (Scanner.currentScannedData (react w1))
                (Scanner.cameraKey (react w1) + 1))
             (calls w1) (timeouts w1) /\
      timeouts w2 = timeouts w /\
      Scanner.isScanning (react (exec Scanner.fireTimeout w2)) = false) /\
  (forall w : World AppOnly.State,
      let w1 := exec AppOnly.restartCamera w in
      let w2 := exec AppOnly.restartCamera w1 in
      returns AppOnly.restartCamera w = true /\
      returns AppOnly.restartCamera w1 = true /\
      AppOnly.isScanning (react w1) = false /\
      AppOnly.isScanning (react w2) = false /\
      w2 = mkWorld
             (AppOnly.mkState (AppOnly.isScanning (react w1))
                (AppOnly.showResultPage (react w1))
                (AppOnly.currentScannedData (react w1))
                (AppOnly.appScanHistory (react w1))
                (AppOnly.cameraKey (react w1) + 1))
             (calls w1) (timeouts w1) /\
      timeouts w2 = timeouts w /\
      AppOnly.isScanning (react (exec AppOnly.fireTimeout w2)) = false).
Proof.
  split.
  - intros [[h sc sh cur key] cs ts]. cbn.
    repeat split. destruct ts as [|[[] d] ts]; reflexivity.
  - intros [[sc sh cur h key] cs ts]. cbn.
    repeat split. destruct ts as [|[[] d] ts]; reflexivity.
Qed.

(** * More facts about the string operations *)

Section MoreStringFacts.

Lemma includes_inside (l x r q : str) :
  includes x q = true -> includes (l ++ x ++ r) q = true.
Proof.
  intros H. apply includes_decompose in H as (a & b & ->).
  replace (l ++ (a ++ q ++ b) ++ r) with ((l ++ a) ++ q ++ (b ++ r))
    by (now rewrite <- !app_assoc).
  apply includes_app.
Qed.

(** The text before the first occurrence holds no occurrence. *)
Lemma cut_before_excludes (s p b a : str) :
  p <> [] -> cut s p = Some (b, a) -> includes b p = false.
Proof.
  intros Hp. revert b. induction s as [|c s IH]; intros b; rewrite cut_unfold.
  - destruct (startsWith [] p) eqn:E; [|discriminate].
    destruct p; [congruence|discriminate E].
  - destruct (startsWith (c :: s) p) eqn:E.
    + intros H; injection H as <- <-. destruct p; [congruence|reflexivity].
    + destruct (cut s p) as [[b' a']|] eqn:C; [|discriminate].
      intros H; injection H as <- <-.
      rewrite includes_unfold, (IH b' eq_refl), orb_false_r.
      destruct (startsWith (c :: b') p) eqn:E'; [|reflexivity].
      apply startsWith_true_iff in E' as [r E'].
      apply cut_sound in C. rewrite <- E. symmetry.
      apply startsWith_true_iff. exists (r ++ p ++ a').
      rewrite C, app_comm_cons, E'. now rewrite <- app_assoc.
Qed.

(** No element of a split holds the separator; here for the element the
    handlers take. *)
Lemma segment_excludes (s p x : str) :
  p <> [] -> segment s p = Some x -> includes x p = false.
Proof.
  intros Hp. unfold segment.
  destruct (cut s p) as [[b a]|]; [|discriminate].
  destruct (cut a p) as [[b' a']|] eqn:C; intros H; injection H as <-.
  - now apply (cut_before_excludes a p b' a').
  - now apply cut_none_iff.
Qed.

Lemma segment_inside (s p x : str) :
  segment s p = Some x -> exists l r, s = l ++ x ++ r.
Proof.
  unfold segment.
  destruct (cut s p) as [[b a]|] eqn:C1; [|discriminate].
  apply cut_sound in C1.
  destruct (cut a p) as [[b' a']|] eqn:C2; intros H; injection H as <-.
  - apply cut_sound in C2. exists (b ++ p), (p ++ a').
    rewrite C1, C2. now rewrite <- !app_assoc.
  - exists (b ++ p), []. rewrite C1, app_nil_r. now rewrite <- app_assoc.
Qed.

(** The path of a deep link holds no ["://"]. *)
Lemma pathSegment_no_separator (url : str) :
  includes (pathSegment url) (lit "://") = false.
Proof.
  unfold pathSegment.
  destruct (segment url (lit "://")) as [x|] eqn:E.
  - apply (segment_excludes url); [apply lit_nonempty|exact E].
  - unfold segment in E.
    destruct (cut url (lit "://")) as [[b a]|] eqn:C.
    + destruct (cut a (lit "://")) as [[b' a']|]; discriminate E.
    + now apply cut_none_iff.
Qed.

(** *** [trim] *)

Lemma trimStart_split (s : str) :
  exists l, s = l ++ trimStart s /\ forallb isWhiteSpace l = true.
Proof.
  induction s as [|c s (l & Hs & Hl)]; simpl.
  - now exists [].
  - destruct (isWhiteSpace c) eqn:E.
    + exists (c :: l). simpl. rewrite E, Hl. split; [congruence|reflexivity].
    + now exists [].
Qed.

Lemma trimStart_head (s : str) (c : N) (t : str) :
  trimStart s = c :: t -> isWhiteSpace c = false.
Proof.
  induction s as [|d s IH]; simpl; [discriminate|].
  destruct (isWhiteSpace d) eqn:E; [exact IH|].
  intros H; injection H as -> _. exact E.
Qed.

Lemma trimStart_fixed (s : str) (c : N) :
  isWhiteSpace c = false -> trimStart (c :: s) = c :: s.
Proof. intros H. simpl. now rewrite H. Qed.

Lemma trimStart_blank (s : str) :
  trimStart s = [] <-> forallb isWhiteSpace s = true.
Proof.
  induction s as [|c s IH]; simpl; [tauto|].
  destruct (isWhiteSpace c); simpl; [exact IH|].
  split; discriminate.
Qed.

(** What [trim] returns: the text between a blank prefix and a blank
    suffix, neither starting nor ending with a blank. *)
Lemma trim_spec (s : str) :
  exists l r,
    s = l ++ trim s ++ r /\
    forallb isWhiteSpace l = true /\ forallb isWhiteSpace r = true /\
    (forall c t, trim s = c :: t -> isWhiteSpace c = false) /\
    (forall t c, trim s = t ++ [c] -> isWhiteSpace c = false).
Proof.
  destruct (trimStart_split s) as (l & Hs & Hl).
  destruct (trimStart_split (rev (trimStart s))) as (r & Hr & Hrl).
  exists l, (rev r). unfold trim, trimEnd.
  split; [|split; [exact Hl|split; [|split]]].
  - rewrite <- rev_app_distr, <- Hr, rev_involutive. exact Hs.
  - rewrite forallb_forall in *. intros x Hx. apply Hrl.
    now apply in_rev in Hx.
  - intros c t H.
    destruct (trimStart s) as [|c0 t0] eqn:E.
    + simpl in H. discriminate H.
    + assert (Hc0 : isWhiteSpace c0 = false) by (eapply trimStart_head; eauto).
      assert (Hin : rev (c0 :: t0) = r ++ trimStart (rev (c0 :: t0))) by exact Hr.
      destruct (trimStart (rev (c0 :: t0))) as [|d u] eqn:E2.
      * simpl in H. discriminate H.
      * assert (Hrev : c0 :: t0 = rev (d :: u) ++ rev r).
        { rewrite <- rev_app_distr, <- Hin. now rewrite rev_involutive. }
        rewrite H in Hrev. injection Hrev as -> _. exact Hc0.
  - intros t c H.
    apply (f_equal (@rev N)) in H. rewrite rev_involutive, rev_app_distr in H.
    simpl in H. now apply trimStart_head in H.
Qed.

Lemma trim_blank (s : str) :
  trim s = [] <-> forallb isWhiteSpace s = true.
Proof.
  split.
  - intros H. destruct (trim_spec s) as (l & r & Hs & Hl & Hr & _).
    rewrite H in Hs. rewrite Hs. simpl. rewrite forallb_app, Hl, Hr. reflexivity.
  - intros H. unfold trim, trimEnd.
    apply trimStart_blank in H. rewrite H. reflexivity.
Qed.

(** A text that neither starts nor ends with a blank is left as it is. *)
Lemma trim_fixed (c : N) (t : str) :
  isWhiteSpace c = false ->
  isWhiteSpace (last (c :: t) c) = false ->
  trim (c :: t) = c :: t.
Proof.
  intros Hc Hl. unfold trim, trimEnd. rewrite (trimStart_fixed t c Hc).
  destruct (exists_last (l := c :: t) ltac:(discriminate)) as (u & d & E).
  rewrite E in *. rewrite last_last in Hl.
  rewrite rev_app_distr. change (rev [d] ++ rev u) with (d :: rev u).
  rewrite (trimStart_fixed _ d Hl).
  change (d :: rev u) with ([d] ++ rev u).
  now rewrite rev_app_distr, rev_involutive.
Qed.

End MoreStringFacts.

(** * The handlers as functions of the payload *)

Section Runs.

Variable P : Platform.

Ltac unfold_monad :=
  cbv [Scanner.setScanHistory Scanner.setIsScanning Scanner.setShowResultPage
       Scanner.setCurrentScannedData Scanner.setCameraKey
       AppOnly.setAppScanHistory AppOnly.setIsScanning AppOnly.setShowResultPage
       AppOnly.setCurrentScannedData AppOnly.setCameraKey
       tryCatch bind ret throw perform setState getState setTimeout
       exec returns fst snd react calls timeouts truthy navigation afterCalls
       Scanner.scanHistory Scanner.isScanning Scanner.showResultPage
       Scanner.currentScannedData Scanner.cameraKey
       AppOnly.appScanHistory AppOnly.isScanning AppOnly.showResultPage
       AppOnly.currentScannedData AppOnly.cameraKey].

(** The deep-link handler of the general scanner: it makes the call of
    the resolved target and raises the result page when the call
    throws. *)
Lemma handleDeepLinkNavigation_run (w : World Scanner.State) (url : str) :
  Scanner.handleDeepLinkNavigation P url w =
  (Some tt,
   let page := afterCalls P (navigation (resolveSegment url)) failureInfo url
                 (Scanner.showResultPage (react w),
                  Scanner.currentScannedData (react w)) in
   mkWorld
     (Scanner.mkState (Scanner.scanHistory (react w)) (Scanner.isScanning (react w))
        (fst page) (snd page) (Scanner.cameraKey (react w)))
     (calls w ++ navigation (resolveSegment url))
     (timeouts w)).
Proof.
  unfold resolveSegment, resolveWith. rewrite <- deepLinkPath_segment.
  unfold Scanner.handleDeepLinkNavigation.
  rewrite elemAt_split_1 by apply lit_nonempty.
  destruct w as [[h sc sh cur key] cs ts].
  destruct (includes (Scanner.deepLinkPath url) (lit "user/")).
  - destruct (segment (Scanner.deepLinkPath url) (lit "user/")) as [[|c u]|];
      unfold_monad; destruct (P _); reflexivity.
  - repeat match goal with
           | |- context [if includes ?a ?b then _ else _] =>
               destruct (includes a b)
           end;
      unfold_monad; try destruct (P _); rewrite ?app_nil_r; reflexivity.
Qed.

Lemma autoType_cases (t : string) :
  autoType t = true ->
  t = "Website" \/ t = "Phone" \/ t = "SMS" \/ t = "Email".
Proof.
  unfold autoType. intros H.
  repeat (apply orb_true_iff in H as [H|H]);
    apply String.eqb_eq in H; auto.
Qed.

(** The handler of a render that saw the dispatcher idle takes the event,
    whatever the flag of the world says by then. *)
Lemma handleScannedDataIn_run (rendered : Scanner.State)
    (w : World Scanner.State) (ev : ScanEvent) :
  Scanner.isScanning rendered = false ->
  Scanner.handleScannedDataIn P rendered ev w = (Some tt, scanned P ev w).
Proof.
  intros Hi. destruct w as [[h sc sh cur key] cs ts].
  unfold scanned, scanPage, scanCalls, scannerItem.
  unfold Scanner.handleScannedDataIn, Scanner.executeAction. rewrite Hi.
  cbn [react calls timeouts codeStringValue dateNow localeString
       Scanner.scanHistory Scanner.isScanning Scanner.showResultPage
       Scanner.currentScannedData Scanner.cameraKey].
  set (data := codeStringValue ev).
  set (t := Scanner.type (Scanner.identifyDataType data)).
  destruct (autoType t) eqn:Ha.
  - apply autoType_cases in Ha.
    destruct Ha as [Ha|[Ha|[Ha|Ha]]]; rewrite Ha;
      unfold_monad; cbn; destruct (P _); reflexivity.
  - unfold autoType in Ha.
    repeat (apply orb_false_iff in Ha as [Ha ?]).
    rewrite Ha, H, H0, H1. cbn [orb].
    destruct (t =? "App deep link") eqn:Hd.
    + unfold bind, getState, Scanner.setIsScanning, Scanner.setScanHistory,
        setState, tryCatch, setTimeout.
      cbn [react calls timeouts Scanner.isScanning Scanner.scanHistory
           Scanner.showResultPage Scanner.currentScannedData Scanner.cameraKey].
      rewrite handleDeepLinkNavigation_run. reflexivity.
    + unfold_monad. rewrite app_nil_r. reflexivity.
Qed.

(** A scan of the general scanner, idle, as a function of the payload. *)
Lemma handleScannedData_run (w : World Scanner.State) (ev : ScanEvent) :
  Scanner.isScanning (react w) = false ->
  Scanner.handleScannedData P ev w = (Some tt, scanned P ev w).
Proof.
  intros Hi. unfold Scanner.handleScannedData, bind, getState.
  now apply handleScannedDataIn_run.
Qed.

Lemma startsWith_includes (s p : str) :
  startsWith s p = true -> includes s p = true.
Proof. intros H. rewrite includes_unfold, H. reflexivity. Qed.

(** The deep-link handler of the app-only scanner, given the path. *)
Lemma handleAppDeepLinkNavigation_run (w : World AppOnly.State) (url path : str) :
  segment url (lit "qrcodeapp://") = Some path ->
  AppOnly.handleAppDeepLinkNavigation P url w =
  (Some tt,
   let page := afterCalls P (appOnlyPathCalls path) appOnlyFailure url
                 (AppOnly.showResultPage (react w),
                  AppOnly.currentScannedData (react w)) in
   mkWorld
     (AppOnly.mkState (AppOnly.isScanning (react w)) (fst page) (snd page)
        (AppOnly.appScanHistory (react w)) (AppOnly.cameraKey (react w)))
     (calls w ++ appOnlyPathCalls path)
     (timeouts w)).
Proof.
  intros Hp. unfold AppOnly.handleAppDeepLinkNavigation, appOnlyPathCalls.
  rewrite elemAt_split_1 by apply lit_nonempty. rewrite Hp.
  rewrite elemAt_split_1 by apply lit_nonempty.
  destruct w as [[sc sh cur h key] cs ts].
  destruct (includes path (lit "user/")).
  - destruct (segment path (lit "user/")) as [[|c u]|];
      unfold_monad; destruct (P _); reflexivity.
  - repeat match goal with
           | |- context [if includes ?a ?b then _ else _] =>
               destruct (includes a b)
           end;
      unfold_monad; destruct (P _); reflexivity.
Qed.

(** When the link has no second element in its split, the handler throws
    inside its [try] and shows the failure. *)
Lemma handleAppDeepLinkNavigation_no_path (w : World AppOnly.State) (url : str) :
  includes url (lit "qrcodeapp://") = false ->
  AppOnly.handleAppDeepLinkNavigation P url w =
  (Some tt,
   mkWorld
     (AppOnly.mkState (AppOnly.isScanning (react w)) true
        (Some (url, AppOnly.mkValidation false "App Deep Link Error"
                      "Navigation failed"))
        (AppOnly.appScanHistory (react w)) (AppOnly.cameraKey (react w)))
     (calls w) (timeouts w)).
Proof.
  intros H. unfold AppOnly.handleAppDeepLinkNavigation.
  rewrite elemAt_split_1 by apply lit_nonempty.
  rewrite (segment_none _ _ H).
  destruct w as [[sc sh cur h key] cs ts]. reflexivity.
Qed.

(** The handler of a render that saw the app-only dispatcher idle takes
    the event, whatever the flag of the world says by then. *)
Lemma handleAppOnlyScannedDataIn_run (rendered : AppOnly.State)
    (w : World AppOnly.State) (ev : ScanEvent) :
  AppOnly.isScanning rendered = false ->
  AppOnly.handleAppOnlyScannedDataIn P rendered ev w =
    (Some tt, appOnlyScanned P ev w).
Proof.
  intros Hi. destruct w as [[sc sh cur h key] cs ts].
  unfold appOnlyScanned, appOnlyScanCalls, appOnlyItem.
  unfold AppOnly.handleAppOnlyScannedDataIn, AppOnly.validateAppQRCode.
  rewrite Hi.
  cbn [react calls timeouts AppOnly.appScanHistory AppOnly.isScanning
       AppOnly.showResultPage AppOnly.currentScannedData AppOnly.cameraKey].
  destruct (startsWith (codeStringValue ev) (lit "qrcodeapp://")) eqn:E.
  - destruct (segment_of_includes _ _ (startsWith_includes _ _ E)) as [path Hp].
    rewrite Hp.
    unfold bind, getState, AppOnly.setIsScanning, AppOnly.setAppScanHistory,
      setState, setTimeout.
    cbn [react calls timeouts AppOnly.appScanHistory AppOnly.isScanning
         AppOnly.showResultPage AppOnly.currentScannedData AppOnly.cameraKey
         AppOnly.isValid AppOnly.type].
    rewrite (handleAppDeepLinkNavigation_run _ _ path Hp). reflexivity.
  - unfold_monad. cbn. rewrite app_nil_r. reflexivity.
Qed.

(** A scan of the app-only scanner, idle, as a function of the payload. *)
Lemma handleAppOnlyScannedData_run (w : World AppOnly.State) (ev : ScanEvent) :
  AppOnly.isScanning (react w) = false ->
  AppOnly.handleAppOnlyScannedData P ev w = (Some tt, appOnlyScanned P ev w).
Proof.
  intros Hi. unfold AppOnly.handleAppOnlyScannedData, bind, getState.
  now apply handleAppOnlyScannedDataIn_run.
Qed.

End Runs.

(** * The suppression window *)

(** C4: the guard of both dispatchers tests the [isScanning] of the render
    the handler belongs to.  A handler whose render shows the flag drops
    every decode event: it returns and the world is the same, so nothing is
    classified, recorded, called or scheduled; this is the case of an event
    that arrives once the screen has rendered again after a scan.  The
    handler of the render that saw the dispatcher idle still sees it idle
    after its own scan: a second event that reaches it before the next
    render is scanned like the first, with its history item, its calls and
    a second reset, as the two scans from the opening screens show. *)
Theorem stale_render_takes_second_scan (P : Platform) :
  (forall (rendered : Scanner.State) (w : World Scanner.State) (y : ScanEvent),
      Scanner.isScanning rendered = true ->
      Scanner.handleScannedDataIn P rendered y w = (Some tt, w)) /\
  (forall (rendered : AppOnly.State) (w : World AppOnly.State) (y : ScanEvent),
      AppOnly.isScanning rendered = true ->
      AppOnly.handleAppOnlyScannedDataIn P rendered y w = (Some tt, w)) /\
  (forall (w : World Scanner.State) (x y : ScanEvent),
      Scanner.isScanning (react w) = false ->
      let w1 := exec (Scanner.handleScannedDataIn P (react w) x) w in
      Scanner.handleScannedDataIn P (react w1) y w1 = (Some tt, w1)) /\
  (forall (w : World AppOnly.State) (x y : ScanEvent),
      AppOnly.isScanning (react w) = false ->
      let w1 := exec (AppOnly.handleAppOnlyScannedDataIn P (react w) x) w in
      AppOnly.handleAppOnlyScannedDataIn P (react w1) y w1 = (Some tt, w1)) /\
  (forall (w : World Scanner.State) (x y : ScanEvent),
      Scanner.isScanning (react w) = false ->
      let w1 := exec (Scanner.handleScannedDataIn P (react w) x) w in
      let w2 := exec (Scanner.handleScannedDataIn P (react w) y) w1 in
      Scanner.isScanning (react w1) = true /\
      Scanner.handleScannedDataIn P (react w) y w1 = (Some tt, scanned P y w1) /\
      Scanner.scanHistory (react w2) =
        scannerItem y ::
          firstn 49 (scannerItem x :: firstn 49 (Scanner.scanHistory (react w))) /\
      calls w2 =
        (calls w ++ scanCalls (codeStringValue x)) ++ scanCalls (codeStringValue y) /\
      timeouts w2 =
        (timeouts w ++ [(ResetScanning, 100%N)]) ++ [(ResetScanning, 100%N)]) /\
  (forall (w : World AppOnly.State) (x y : ScanEvent),
      AppOnly.isScanning (react w) = false ->
      let w1 := exec (AppOnly.handleAppOnlyScannedDataIn P (react w) x) w in
      let w2 := exec (AppOnly.handleAppOnlyScannedDataIn P (react w) y) w1 in
      AppOnly.isScanning (react w1) = true /\
      AppOnly.handleAppOnlyScannedDataIn P (react w) y w1 =
        (Some tt, appOnlyScanned P y w1) /\
      AppOnly.appScanHistory (react w2) =
        appOnlyItem y ::
          firstn 49 (appOnlyItem x :: firstn 49 (AppOnly.appScanHistory (react w))) /\
      calls w2 =
        (calls w ++ appOnlyScanCalls (codeStringValue x)) ++
          appOnlyScanCalls (codeStringValue y) /\
      timeouts w2 =
        (timeouts w ++ [(ResetScanning, 100%N)]) ++ [(ResetScanning, 100%N)]) /\
  (let x := mkScanEvent (lit "tel:1") 1 "t" in
   let y := mkScanEvent (lit "tel:2") 2 "t" in
   let w2 :=
     exec (Scanner.handleScannedDataIn P Scanner.initial y)
       (exec (Scanner.handleScannedDataIn P Scanner.initial x) Scanner.start) in
   Scanner.scanHistory (react w2) =
     [Scanner.mkHistoryItem 2 (lit "tel:2") "Phone" "t";
      Scanner.mkHistoryItem 1 (lit "tel:1") "Phone" "t"] /\
   calls w2 = [OpenURL (lit "tel:1"); OpenURL (lit "tel:2")] /\
   timeouts w2 = [(ResetScanning, 100%N); (ResetScanning, 100%N)]) /\
  (let x := mkScanEvent (lit "qrcodeapp://home") 1 "t" in
   let y := mkScanEvent (lit "qrcodeapp://users") 2 "t" in
   let w2 :=
     exec (AppOnly.handleAppOnlyScannedDataIn P AppOnly.initial y)
       (exec (AppOnly.handleAppOnlyScannedDataIn P AppOnly.initial x)
          AppOnly.start) in
   AppOnly.appScanHistory (react w2) =
     [AppOnly.mkHistoryItem 2 (lit "qrcodeapp://users") "App Deep Link" true "t";
      AppOnly.mkHistoryItem 1 (lit "qrcodeapp://home") "App Deep Link" true "t"] /\
   calls w2 = [Navigate "Home" None; Navigate "Users" None] /\
   timeouts w2 = [(ResetScanning, 100%N); (ResetScanning, 100%N)]).
Proof.
  split; [|split; [|split; [|split; [|split; [|split; [|split]]]]]].
  - intros rendered w y H. unfold Scanner.handleScannedDataIn. now rewrite H.
  - intros rendered w y H. unfold AppOnly.handleAppOnlyScannedDataIn.
    now rewrite H.
  - intros w x y H. cbv zeta. unfold exec.
    rewrite (handleScannedDataIn_run P (react w) w x H). cbn [snd].
    reflexivity.
  - intros w x y H. cbv zeta. unfold exec.
    rewrite (handleAppOnlyScannedDataIn_run P (react w) w x H). cbn [snd].
    reflexivity.
  - intros w x y H. cbv zeta. unfold exec.
    rewrite (handleScannedDataIn_run P (react w) w x H). cbn [snd].
    rewrite (handleScannedDataIn_run P (react w) (scanned P x w) y H).
    cbn [snd]. repeat split.
  - intros w x y H. cbv zeta. unfold exec.
    rewrite (handleAppOnlyScannedDataIn_run P (react w) w x H). cbn [snd].
    rewrite (handleAppOnlyScannedDataIn_run P (react w) (appOnlyScanned P x w) y H).
    cbn [snd]. repeat split.
  - cbv zeta. unfold exec.
    rewrite (handleScannedDataIn_run P Scanner.initial Scanner.start _ eq_refl).
    cbn [snd].
    rewrite (handleScannedDataIn_run P Scanner.initial _ _ eq_refl).
    cbn [snd]. repeat split.
  - cbv zeta. unfold exec.
    rewrite (handleAppOnlyScannedDataIn_run P AppOnly.initial AppOnly.start _ eq_refl).
    cbn [snd].
    rewrite (handleAppOnlyScannedDataIn_run P AppOnly.initial _ _ eq_refl).
    cbn [snd]. repeat split.
Qed.

(** * What the screens keep *)

Section Keeping.

Variable P : Platform.

Lemma Forall_firstn_keeps {A} (Q : A -> Prop) (n : nat) (l : list A) :
  Forall Q l -> Forall Q (firstn n l).
Proof.
  intros H. revert n. induction H as [|x l Hx Hl IH]; intros [|n]; simpl;
    constructor; auto.
Qed.

Lemma Forall_skipn_keeps {A} (Q : A -> Prop) (n : nat) (l : list A) :
  Forall Q l -> Forall Q (skipn n l).
Proof.
  intros H. revert n. induction H as [|x l Hx Hl IH]; intros [|n]; simpl;
    try constructor; auto.
Qed.

(** The identifier of a resolved user target. *)
Lemma resolveSegment_user (url uid : str) :
  resolveSegment url = UserDetail uid ->
  goodUserId uid /\ includes uid (lit "://") = false.
Proof.
  unfold resolveSegment, resolveWith.
  destruct (includes (pathSegment url) (lit "user/")) eqn:I.
  - destruct (segment (pathSegment url) (lit "user/")) as [[|c u]|] eqn:E;
      try discriminate.
    intros H; injection H as <-. split; [split|].
    + discriminate.
    + apply (segment_excludes (pathSegment url)); [apply lit_nonempty|exact E].
    + destruct (includes (c :: u) (lit "://")) eqn:C; [|reflexivity].
      apply segment_inside in E as (l & r & E).
      pose proof (pathSegment_no_separator url) as N.
      rewrite E in N. rewrite (includes_inside l (c :: u) r _ C) in N.
      discriminate N.
  - repeat match goal with
           | |- (if ?b then _ else _) = _ -> _ => destruct b
           end; discriminate.
Qed.

Lemma navigation_allowed (url : str) :
  Forall scannerCall (navigation (resolveSegment url)).
Proof.
  destruct (resolveSegment url) as [uid| | |] eqn:E; simpl.
  - apply resolveSegment_user in E as [Hg Hs].
    constructor; [|constructor]. split.
    + split; [simpl; tauto|]. left. split; [reflexivity|]. now exists uid.
    + intros u H. now injection H as <-.
  - constructor; [|constructor]. split; [|discriminate].
    split; [simpl; tauto|]. right. left. now split.
  - constructor.
  - constructor; [|constructor]. split; [|discriminate].
    split; [simpl; tauto|]. right. right. now split.
Qed.

Lemma scanCalls_allowed (data : str) : Forall scannerCall (scanCalls data).
Proof.
  unfold scanCalls.
  destruct (autoType (Scanner.type (Scanner.identifyDataType data))) eqn:A.
  - repeat constructor. exact A.
  - destruct (_ =? _); [apply navigation_allowed|constructor].
Qed.

Lemma failureInfo_presentable (data : str) (c : call) :
  presentable data (failureInfo c).
Proof. destruct c; simpl; unfold presentable; auto. Qed.

(** A scan keeps what the general scanner keeps. *)
Lemma scanned_keeps (w : World Scanner.State) (ev : ScanEvent) :
  scannerKeeps (react w) (calls w) (timeouts w) ->
  scannerKeeps (react (scanned P ev w)) (calls (scanned P ev w))
               (timeouts (scanned P ev w)).
Proof.
  intros [Hb Hc Hd Hp Hcs Hts Hr].
  unfold scanned. cbn [react calls timeouts].
  set (data := codeStringValue ev).
  set (old := (Scanner.showResultPage (react w),
               Scanner.currentScannedData (react w))).
  assert (Hpage :
    (fst (scanPage P data old) = true -> snd (scanPage P data old) <> None) /\
    (forall d i, snd (scanPage P data old) = Some (d, i) -> presentable d i)).
  { unfold scanPage.
    destruct (autoType (Scanner.type (Scanner.identifyDataType data))) eqn:A;
      [|destruct (Scanner.type (Scanner.identifyDataType data) =? "App deep link")
          eqn:D].
    1,2: cbn [orb]; unfold afterCalls;
      destruct (scanCalls data) as [|c cs']; [|destruct (P c)];
      cbn [fst snd]; (split; [first [exact Hd|discriminate]|]);
      intros d i H; first [now apply Hp|injection H as <- <-];
      apply failureInfo_presentable.
    cbn [orb fst snd]. split; [discriminate|].
    intros d i H; injection H as <- <-. left.
    split; [reflexivity|split; [exact A|]].
    intros E. rewrite E in D. discriminate D. }
  destruct Hpage as [Hpage1 Hpage2].
  constructor; cbn [Scanner.scanHistory Scanner.showResultPage
                    Scanner.currentScannedData].
  - cbn [List.length]. rewrite length_firstn. lia.
  - constructor; [reflexivity|now apply Forall_firstn_keeps].
  - exact Hpage1.
  - exact Hpage2.
  - apply Forall_app. split; [exact Hcs|apply scanCalls_allowed].
  - apply Forall_app. split; [exact Hts|].
    repeat constructor.
  - intros _. apply in_or_app. right. now left.
Qed.

Lemma handleScannedData_keeps (w : World Scanner.State) (ev : ScanEvent) :
  scannerKeeps (react w) (calls w) (timeouts w) ->
  let w' := exec (Scanner.handleScannedData P ev) w in
  scannerKeeps (react w') (calls w') (timeouts w').
Proof.
  intros H w'. subst w'. unfold exec.
  destruct (Scanner.isScanning (react w)) eqn:E.
  - now rewrite handleScannedData_suppressed.
  - rewrite handleScannedData_run by exact E. now apply scanned_keeps.
Qed.

(** The callbacks of the timeouts and the close button keep it too. *)
Lemma runCallback_keeps (w : World Scanner.State) (cb : callback)
    (before : list (callback * N)) :
  scannerKeeps (react w) (calls w) before ->
  Forall knownTimeout (timeouts w) ->
  let w' := exec (Scanner.runCallback cb) w in
  scannerKeeps (react w') (calls w') (timeouts w') /\
  Scanner.runCallback cb w = (Some tt, w').
Proof.
  intros [Hb Hc Hd Hp Hcs Hts Hr] Hk. destruct w as [[h sc sh cur key] cs ts].
  destruct cb; cbn; (split; [constructor; first [assumption|discriminate]|reflexivity]).
Qed.

Lemma search_url_classified (q : str) :
  Scanner.type (Scanner.identifyDataType (ScannerUI.searchPrefix ++ q)) = "Website".
Proof. rewrite identifyDataType_classify. reflexivity. Qed.

Lemma liftBase_exec {A} (m : M Scanner.State A) (w : World ScannerUI.State) :
  exec (ScannerUI.liftBase m) w =
  mkWorld (ScannerUI.setBase (react (exec m (ScannerUI.baseWorld w))) (react w))
          (calls (exec m (ScannerUI.baseWorld w)))
          (timeouts (exec m (ScannerUI.baseWorld w))).
Proof.
  unfold exec, ScannerUI.liftBase.
  now destruct (m (ScannerUI.baseWorld w)).
Qed.

Lemma liftBase_scan (w : World ScannerUI.State) (e : ScanEvent) :
  ScannerUI.liftBase (Scanner.handleScannedData P e) w =
  (Some tt, exec (ScannerUI.liftBase (Scanner.handleScannedData P e)) w).
Proof.
  unfold exec, ScannerUI.liftBase.
  destruct (Scanner.isScanning (react (ScannerUI.baseWorld w))) eqn:E.
  - now rewrite handleScannedData_suppressed.
  - now rewrite handleScannedData_run.
Qed.

(** Every event keeps what the general scanner screen keeps. *)
Lemma scanner_handle_keeps (w : World ScannerUI.State) (ev : ScannerUI.event) :
  scannerInvariant w -> scannerInvariant (exec (ScannerUI.handle P ev) w).
Proof.
  unfold scannerInvariant. intros H.
  destruct ev; cbn [ScannerUI.handle].
  - rewrite liftBase_exec. cbn. now apply handleScannedData_keeps.
  - exact H.
  - exact H.
  - rewrite liftBase_exec. cbn.
    apply (runCallback_keeps (ScannerUI.baseWorld w) RestartCamera _ H).
    now destruct H.
  - exact H.
  - exact H.
  - exact H.
  - unfold ScannerUI.handleManualInput, exec, bind, getState. cbn [fst snd].
    destruct (trim (ScannerUI.manualInput (react w))) as [|c t]; [exact H|].
    rewrite liftBase_scan.
    unfold ScannerUI.setManualInput, ScannerUI.setShowManualInput, setState.
    cbn [fst snd react calls timeouts ScannerUI.base].
    rewrite liftBase_exec. cbn [react calls timeouts ScannerUI.base ScannerUI.setBase].
    now apply handleScannedData_keeps.
  - exact H.
  - destruct H as [Hb Hc Hd Hp Hcs Hts Hr].
    destruct w as [[[h sc sh cur key] f sm mi shh cl] cs ts].
    cbn in *. constructor; cbn; try assumption; [discriminate| |].
    + apply Forall_app. split; [assumption|].
      constructor; [|constructor]. right. now left.
    + intros Hs. apply in_or_app. left. now apply Hr.
  - destruct H as [Hb Hc Hd Hp Hcs Hts Hr].
    destruct w as [[[h sc sh cur key] f sm mi shh cl] cs ts].
    cbn in *. destruct cur as [[d i]|]; cbn.
    + constructor; cbn; try assumption.
      apply Forall_app; split; [assumption|]. repeat constructor.
    + constructor; assumption.
  - destruct H as [Hb Hc Hd Hp Hcs Hts Hr].
    destruct w as [[[h sc sh cur key] f sm mi shh cl] cs ts].
    cbn in *. unfold ScannerUI.searchOnWeb, exec, bind, getState.
    cbn [react ScannerUI.base Scanner.currentScannedData fst snd].
    destruct cur as [[d i]|]; [destruct (encodeURIComponent d) as [q|]|];
      cbn; constructor; cbn; try assumption.
    apply Forall_app; split; [assumption|]. constructor; [|constructor].
    change (autoType (Scanner.type
              (Scanner.identifyDataType (ScannerUI.searchPrefix ++ q))) = true).
    now rewrite search_url_classified.
  - destruct H as [Hb Hc Hd Hp Hcs Hts Hr].
    destruct w as [[[h sc sh cur key] f sm mi shh cl] cs ts].
    cbn in *. constructor; cbn; try assumption.
    + apply Forall_app. split; [assumption|].
      constructor; [|constructor]. right. now right.
    + intros Hs. apply in_or_app. left. now apply Hr.
  - unfold ScannerUI.fireAt, exec.
    destruct (nth_error (timeouts w) i) as [[cb d]|] eqn:E; [|exact H].
    set (w0 := mkWorld (react w) (calls w)
                 (firstn i (timeouts w) ++ skipn (Datatypes.S i) (timeouts w))).
    pose proof (liftBase_exec (Scanner.runCallback cb) w0) as L.
    unfold exec in L at 1. rewrite L. cbn.
    apply (runCallback_keeps (ScannerUI.baseWorld w0) cb _ H).
    destruct H as [Hb Hc Hd Hp Hcs Hts Hr].
    cbn [ScannerUI.baseWorld react calls timeouts w0]. apply Forall_app. split.
    + now apply Forall_firstn_keeps.
    + now apply (Forall_skipn_keeps _ (Datatypes.S i)).
Qed.

Lemma scanner_run_keeps (evs : list ScannerUI.event) :
  forall w, scannerInvariant w -> scannerInvariant (ScannerUI.run P evs w).
Proof.
  induction evs as [|ev rest IH]; intros w H; [exact H|].
  cbn [ScannerUI.run]. apply IH. now apply scanner_handle_keeps.
Qed.

Lemma scanner_start_keeps : scannerInvariant ScannerUI.start.
Proof.
  constructor; cbn; try constructor; try discriminate. lia.
Qed.

End Keeping.

Section KeepingAppOnly.

Variable P : Platform.

Lemma appOnlyPathCalls_allowed (path : str) :
  Forall appOnlyCall (appOnlyPathCalls path).
Proof.
  unfold appOnlyPathCalls.
  destruct (includes path (lit "user/")).
  - destruct (segment path (lit "user/")) as [[|c u]|] eqn:E;
      (constructor; [|constructor]); (split; [cbv [In registeredScreens]; auto 10|]).
    + right. left. now split.
    + left. split; [reflexivity|]. exists (c :: u). split; [reflexivity|].
      split; [discriminate|].
      apply (segment_excludes path); [apply lit_nonempty|exact E].
    + right. left. now split.
  - destruct (includes path (lit "users"));
      [|destruct (includes path (lit "scanner"))];
      (constructor; [|constructor]).
    + split; [cbv [In registeredScreens]; auto 10|]. right. left. now split.
    + right. now split.
    + split; [cbv [In registeredScreens]; auto 10|]. right. right. now split.
Qed.

Lemma appOnlyScanCalls_allowed (data : str) :
  Forall appOnlyCall (appOnlyScanCalls data).
Proof.
  unfold appOnlyScanCalls.
  destruct (startsWith data (lit "qrcodeapp://")); [|constructor].
  destruct (segment data (lit "qrcodeapp://")); [|constructor].
  apply appOnlyPathCalls_allowed.
Qed.

Lemma appOnlyItem_judged (ev : ScanEvent) : appOnlyItemOk (appOnlyItem ev).
Proof.
  unfold appOnlyItemOk, appOnlyItem, AppOnly.validateAppQRCode.
  destruct (startsWith (codeStringValue ev) (lit "qrcodeapp://")) eqn:E;
    cbn [AppOnly.itemIsValid AppOnly.data AppOnly.itemType AppOnly.isValid
         AppOnly.type];
    rewrite E; now split.
Qed.

(** A scan keeps what the app-only scanner keeps. *)
Lemma appOnlyScanned_keeps (w : World AppOnly.State) (ev : ScanEvent) :
  appOnlyKeeps (react w) (calls w) (timeouts w) ->
  appOnlyKeeps (react (appOnlyScanned P ev w)) (calls (appOnlyScanned P ev w))
               (timeouts (appOnlyScanned P ev w)).
Proof.
  intros [Hb Hc Hd Hp Hcs Hts Hr].
  unfold appOnlyScanned. cbn [react calls timeouts].
  set (data := codeStringValue ev).
  unfold AppOnlyUI.shownIsValid in Hp.
  constructor; cbn [AppOnly.appScanHistory AppOnly.showResultPage
                    AppOnly.currentScannedData].
  - cbn [List.length]. rewrite length_firstn. lia.
  - constructor; [apply appOnlyItem_judged|now apply Forall_firstn_keeps].
  - destruct (startsWith data (lit "qrcodeapp://")); [|discriminate].
    unfold afterCalls.
    destruct (appOnlyScanCalls data) as [|c cs']; [exact Hd|].
    destruct (P c); [discriminate|exact Hd].
  - unfold AppOnlyUI.shownIsValid. cbn [AppOnly.currentScannedData].
    destruct (startsWith data (lit "qrcodeapp://")); [|reflexivity].
    unfold afterCalls.
    destruct (appOnlyScanCalls data) as [|c cs']; [exact Hp|].
    destruct (P c); [reflexivity|exact Hp].
  - apply Forall_app. split; [exact Hcs|apply appOnlyScanCalls_allowed].
  - apply Forall_app. split; [exact Hts|].
    constructor; [|constructor]. now left.
  - intros _. apply in_or_app. right. now left.
Qed.

Lemma handleAppOnlyScannedData_keeps (w : World AppOnly.State) (ev : ScanEvent) :
  appOnlyKeeps (react w) (calls w) (timeouts w) ->
  let w' := exec (AppOnly.handleAppOnlyScannedData P ev) w in
  appOnlyKeeps (react w') (calls w') (timeouts w').
Proof.
  intros H w'. subst w'. unfold exec.
  destruct (AppOnly.isScanning (react w)) eqn:E.
  - now rewrite handleAppOnlyScannedData_suppressed.
  - rewrite handleAppOnlyScannedData_run by exact E. now apply appOnlyScanned_keeps.
Qed.

Lemma appOnly_runCallback_keeps (w : World AppOnly.State) (cb : callback)
    (before : list (callback * N)) :
  appOnlyKeeps (react w) (calls w) before ->
  Forall knownTimeout (timeouts w) ->
  let w' := exec (AppOnly.runCallback cb) w in
  appOnlyKeeps (react w') (calls w') (timeouts w').
Proof.
  intros [Hb Hc Hd Hp Hcs Hts Hr] Hk. destruct w as [[sc sh cur h key] cs ts].
  destruct cb; cbn; constructor; first [assumption|discriminate].
Qed.

Lemma appOnly_liftBase_exec {A} (m : M AppOnly.State A) (w : World AppOnlyUI.State) :
  exec (AppOnlyUI.liftBase m) w =
  mkWorld (AppOnlyUI.setBase (react (exec m (AppOnlyUI.baseWorld w))) (react w))
          (calls (exec m (AppOnlyUI.baseWorld w)))
          (timeouts (exec m (AppOnlyUI.baseWorld w))).
Proof.
  unfold exec, AppOnlyUI.liftBase.
  now destruct (m (AppOnlyUI.baseWorld w)).
Qed.

(** Every event keeps what the app-only scanner screen keeps. *)
Lemma appOnly_handle_keeps (w : World AppOnlyUI.State) (ev : AppOnlyUI.event) :
  appOnlyInvariant w -> appOnlyInvariant (exec (AppOnlyUI.handle P ev) w).
Proof.
  unfold appOnlyInvariant. intros H.
  destruct ev; cbn [AppOnlyUI.handle].
  - rewrite appOnly_liftBase_exec. cbn. now apply handleAppOnlyScannedData_keeps.
  - exact H.
  - exact H.
  - rewrite appOnly_liftBase_exec. cbn.
    apply (appOnly_runCallback_keeps (AppOnlyUI.baseWorld w) RestartCamera _ H).
    now destruct H.
  - exact H.
  - destruct H as [Hb Hc Hd Hp Hcs Hts Hr].
    destruct w as [[[sc sh cur h key] f shh cl] cs ts].
    cbn in *. constructor; cbn; try assumption; [discriminate| |].
    + apply Forall_app. split; [assumption|].
      constructor; [|constructor]. right. now left.
    + intros Hs. apply in_or_app. left. now apply Hr.
  - destruct H as [Hb Hc Hd Hp Hcs Hts Hr].
    destruct w as [[[sc sh cur h key] f shh cl] cs ts].
    cbn in *. destruct cur as [[d i]|]; cbn.
    + constructor; cbn; try assumption.
      apply Forall_app; split; [assumption|].
      constructor; [|constructor]. left. now split.
    + constructor; assumption.
  - destruct H as [Hb Hc Hd Hp Hcs Hts Hr].
    destruct w as [[[sc sh cur h key] f shh cl] cs ts].
    cbn in *. constructor; cbn; try assumption.
    + apply Forall_app. split; [assumption|].
      constructor; [|constructor]. right. now right.
    + intros Hs. apply in_or_app. left. now apply Hr.
  - unfold AppOnlyUI.fireAt, exec.
    destruct (nth_error (timeouts w) i) as [[cb d]|] eqn:E; [|exact H].
    set (w0 := mkWorld (react w) (calls w)
                 (firstn i (timeouts w) ++ skipn (Datatypes.S i) (timeouts w))).
    pose proof (appOnly_liftBase_exec (AppOnly.runCallback cb) w0) as L.
    unfold exec in L at 1. rewrite L. cbn.
    apply (appOnly_runCallback_keeps (AppOnlyUI.baseWorld w0) cb _ H).
    destruct H as [Hb Hc Hd Hp Hcs Hts Hr].
    cbn [AppOnlyUI.baseWorld react calls timeouts w0]. apply Forall_app. split.
    + now apply Forall_firstn_keeps.
    + now apply (Forall_skipn_keeps _ (Datatypes.S i)).
Qed.

Lemma appOnly_run_keeps (evs : list AppOnlyUI.event) :
  forall w, appOnlyInvariant w -> appOnlyInvariant (AppOnlyUI.run P evs w).
Proof.
  induction evs as [|ev rest IH]; intros w H; [exact H|].
  cbn [AppOnlyUI.run]. apply IH. now apply appOnly_handle_keeps.
Qed.

Lemma appOnly_start_keeps : appOnlyInvariant AppOnlyUI.start.
Proof.
  constructor; cbn; try constructor; try discriminate. lia.
Qed.

End KeepingAppOnly.

(** * [encodeURIComponent] *)

Section Encoding.

Local Open Scope N_scope.

Lemma hexDigit_unreserved (d : N) : d < 16 -> uriUnreserved (hexDigit d) = true.
Proof.
  intros H.
  assert (E : d = 0 \/ d = 1 \/ d = 2 \/ d = 3 \/ d = 4 \/ d = 5 \/ d = 6 \/
              d = 7 \/ d = 8 \/ d = 9 \/ d = 10 \/ d = 11 \/ d = 12 \/
              d = 13 \/ d = 14 \/ d = 15) by lia.
  repeat (destruct E as [->|E]; [reflexivity|]). now subst.
Qed.

Lemma percent_safe (b : N) : b < 256 -> forallb uriSafe (percent b) = true.
Proof.
  intros H. unfold percent, uriSafe. cbn [forallb].
  rewrite !hexDigit_unreserved; [reflexivity| |].
  - pose proof (N.mod_upper_bound b 16). lia.
  - apply N.Div0.div_lt_upper_bound. lia.
Qed.

Lemma percentAll_safe (bs : list N) :
  Forall (fun b => b < 256) bs -> forallb uriSafe (percentAll bs) = true.
Proof.
  induction 1 as [|b bs Hb _ IH]; [reflexivity|].
  unfold percentAll. cbn [flat_map]. rewrite forallb_app.
  rewrite percent_safe by exact Hb. exact IH.
Qed.

Lemma utf8_octets (cp : N) : cp < 1114112 -> Forall (fun b => b < 256) (utf8 cp).
Proof.
  intros H. unfold utf8.
  destruct (cp <? 128) eqn:E1; [apply N.ltb_lt in E1; repeat constructor; lia|].
  destruct (cp <? 2048) eqn:E2.
  { apply N.ltb_lt in E2. repeat constructor.
    - assert (cp / 64 < 32) by (apply N.Div0.div_lt_upper_bound; lia). lia.
    - pose proof (N.mod_upper_bound cp 64). lia. }
  destruct (cp <? 65536) eqn:E3.
  { apply N.ltb_lt in E3. repeat constructor.
    - assert (cp / 4096 < 16) by (apply N.Div0.div_lt_upper_bound; lia). lia.
    - pose proof (N.mod_upper_bound (cp / 64) 64). lia.
    - pose proof (N.mod_upper_bound cp 64). lia. }
  repeat constructor.
  - assert (cp / 262144 < 5) by (apply N.Div0.div_lt_upper_bound; lia). lia.
  - pose proof (N.mod_upper_bound (cp / 4096) 64). lia.
  - pose proof (N.mod_upper_bound (cp / 64) 64). lia.
  - pose proof (N.mod_upper_bound cp 64). lia.
Qed.

Lemma surrogatePair_bound (lead trail : N) :
  isLeadSurrogate lead = true -> isTrailSurrogate trail = true ->
  surrogatePair lead trail < 1114112.
Proof.
  unfold isLeadSurrogate, isTrailSurrogate, surrogatePair.
  rewrite !andb_true_iff, !N.leb_le. lia.
Qed.

(** An induction that follows the encoder: one code unit at a time, or a
    surrogate pair at a time. *)
Lemma str_pair_ind (Q : str -> Prop) :
  Q [] ->
  (forall c, Q [c]) ->
  (forall c d s, Q s -> Q (d :: s) -> Q (c :: d :: s)) ->
  forall s, Q s.
Proof.
  intros H0 H1 H2 s.
  enough (Q s /\ forall c, Q (c :: s)) by tauto.
  induction s as [|d s [IH1 IH2]]; split; auto.
Qed.

Lemma encodeURIComponent_cons (c : N) (rest : str) :
  encodeURIComponent (c :: rest) =
  if uriUnreserved c then
    match encodeURIComponent rest with
    | Some out => Some (c :: out)
    | None => None
    end
  else if isTrailSurrogate c then None
  else if isLeadSurrogate c then
    match rest with
    | [] => None
    | d :: rest' =>
        if isTrailSurrogate d then
          match encodeURIComponent rest' with
          | Some out => Some (percentAll (utf8 (surrogatePair c d)) ++ out)
          | None => None
          end
        else None
    end
  else
    match encodeURIComponent rest with
    | Some out => Some (percentAll (utf8 c) ++ out)
    | None => None
    end.
Proof. reflexivity. Qed.

Lemma isWellFormed_cons (c : N) (rest : str) :
  isWellFormed (c :: rest) =
  if isTrailSurrogate c then false
  else if isLeadSurrogate c then
    match rest with
    | [] => false
    | d :: rest' => isTrailSurrogate d && isWellFormed rest'
    end
  else isWellFormed rest.
Proof. reflexivity. Qed.

Lemma unreserved_not_surrogate (c : N) :
  uriUnreserved c = true ->
  isTrailSurrogate c = false /\ isLeadSurrogate c = false.
Proof.
  unfold uriUnreserved, isTrailSurrogate, isLeadSurrogate. intros U.
  repeat (rewrite ?orb_true_iff, ?andb_true_iff, ?N.leb_le, ?N.eqb_eq in U).
  split; apply andb_false_iff; rewrite !N.leb_gt; lia.
Qed.

(** The encoder throws exactly on a surrogate without its partner. *)
Lemma encodeURIComponent_throws (s : str) :
  encodeURIComponent s = None <-> isWellFormed s = false.
Proof.
  induction s as [|c|c d s IH1 IH2] using str_pair_ind.
  - simpl. split; discriminate.
  - simpl. destruct (uriUnreserved c) eqn:U.
    + destruct (unreserved_not_surrogate c U) as [-> ->]. split; discriminate.
    + destruct (isTrailSurrogate c); [tauto|].
      destruct (isLeadSurrogate c); [tauto|]. split; discriminate.
  - rewrite (encodeURIComponent_cons c (d :: s)), (isWellFormed_cons c (d :: s)).
    cbv beta iota.
    destruct (uriUnreserved c) eqn:U.
    + destruct (unreserved_not_surrogate c U) as [-> ->].
      destruct (encodeURIComponent (d :: s)); rewrite <- IH2; split; congruence.
    + destruct (isTrailSurrogate c); [tauto|].
      destruct (isLeadSurrogate c).
      * destruct (isTrailSurrogate d); cbn [andb]; [|tauto].
        destruct (encodeURIComponent s); rewrite <- IH1; split; congruence.
      * destruct (encodeURIComponent (d :: s)); rewrite <- IH2; split; congruence.
Qed.

(** The encoded text holds unreserved characters and percent signs
    only. *)
Lemma encodeURIComponent_safe (s : str) :
  codeUnits s ->
  forall q, encodeURIComponent s = Some q -> forallb uriSafe q = true.
Proof.
  unfold codeUnits.
  induction s as [|c|c d s IH1 IH2] using str_pair_ind; intros Hs q.
  - simpl. intros H; injection H as <-. reflexivity.
  - simpl. destruct (uriUnreserved c) eqn:U.
    + intros H; injection H as <-. cbn. unfold uriSafe. now rewrite U.
    + destruct (isTrailSurrogate c); [discriminate|].
      destruct (isLeadSurrogate c); [discriminate|].
      intros H; injection H as <-. rewrite app_nil_r.
      apply percentAll_safe, utf8_octets. inversion Hs; subst. lia.
  - rewrite (encodeURIComponent_cons c (d :: s)). cbv beta iota.
    assert (Hc : c < 65536) by (inversion Hs; assumption).
    assert (Hds : Forall (fun c => c < 65536) (d :: s)) by (inversion Hs; assumption).
    assert (Hss : Forall (fun c => c < 65536) s) by (inversion Hds; assumption).
    destruct (uriUnreserved c) eqn:U.
    + destruct (encodeURIComponent (d :: s)) as [out|] eqn:E; [|discriminate].
      intros H; injection H as <-. cbn [forallb]. unfold uriSafe at 1.
      rewrite U. cbn [orb andb]. now apply IH2.
    + destruct (isTrailSurrogate c); [discriminate|].
      destruct (isLeadSurrogate c) eqn:L.
      * destruct (isTrailSurrogate d) eqn:T; [|discriminate].
        destruct (encodeURIComponent s) as [out|] eqn:E; [|discriminate].
        intros H; injection H as <-. rewrite forallb_app.
        rewrite percentAll_safe, (IH1 Hss out eq_refl); [reflexivity|].
        apply utf8_octets. now apply surrogatePair_bound.
      * destruct (encodeURIComponent (d :: s)) as [out|] eqn:E; [|discriminate].
        intros H; injection H as <-. rewrite forallb_app.
        rewrite percentAll_safe, (IH2 Hds out eq_refl); [reflexivity|].
        apply utf8_octets. lia.
Qed.

End Encoding.

(** * The screens under any sequence of events *)

Section Reachable.

Lemma urlsOpened_in (cs : list call) (url : str) :
  In url (urlsOpened cs) <-> In (OpenURL url) cs.
Proof.
  unfold urlsOpened. rewrite in_flat_map. split.
  - intros (c & Hc & Hu). destruct c; simpl in Hu; try tauto.
    destruct Hu as [<-|[]]. exact Hc.
  - intros H. exists (OpenURL url). split; [exact H|now left].
Qed.

(** What the four automatic types say about the text of a payload. *)
Lemma autoType_scheme (url : str) :
  autoType (Scanner.type (Scanner.identifyDataType url)) = true ->
  schemeThenText url = true \/ startsWith url (lit "tel:") = true \/
  startsWith url (lit "sms:") = true \/ startsWith url (lit "mailto:") = true.
Proof.
  intros H. apply autoType_cases in H. rewrite identifyDataType_classify in H.
  unfold classifyWith in H.
  destruct (schemeThenText url); [now left|].
  destruct (startsWith url (lit "tel:")); [now right; left|].
  destruct (startsWith url (lit "sms:")); [now right; right; left|].
  destruct (startsWith url (lit "mailto:")); [now right; right; right|].
  exfalso.
  repeat match type of H with
         | context [if ?b then _ else _] => destruct b
         end;
    cbn in H; intuition discriminate.
Qed.

End Reachable.

(** X1: whatever happens on the general scanner screen (codes read,
    buttons pressed, text typed, timeouts fired, in any order), every URL
    handed to [Linking.openURL] begins with [http://] or [https://]
    (letter case ignored, and followed by a character that is not a line
    terminator), or with [tel:], [sms:] or [mailto:]. *)
Theorem scanner_opens_known_schemes (P : Platform) (evs : list ScannerUI.event)
    (url : str) :
  In url (urlsOpened (calls (ScannerUI.run P evs ScannerUI.start))) ->
  schemeThenText url = true \/ startsWith url (lit "tel:") = true \/
  startsWith url (lit "sms:") = true \/ startsWith url (lit "mailto:") = true.
Proof.
  intros H. apply urlsOpened_in in H.
  pose proof (scanner_run_keeps P evs _ scanner_start_keeps) as K.
  destruct K as [_ _ _ _ Hcs _ _]. rewrite Forall_forall in Hcs.
  apply autoType_scheme. exact (Hcs _ H).
Qed.

Lemma scanner_opens_known_schemes_witness :
  schemeThenText (lit "tel:123") = true \/
  startsWith (lit "tel:123") (lit "tel:") = true \/
  startsWith (lit "tel:123") (lit "sms:") = true \/
  startsWith (lit "tel:123") (lit "mailto:") = true.
Proof.
  apply (scanner_opens_known_schemes reliable
           [ScannerUI.ReadCode (mkScanEvent (lit "tel:123") 1 "t")]).
  vm_compute. now left.
Defined.

(** X2: whatever happens on either scanner screen, every call of
    [navigation.navigate] names a screen of the navigator of [App.js], and
    it is UserDetail with an identifier that is not empty and holds no
    [user/], or Users or Home without one; in the general scanner the
    identifier holds no ["://"] either. *)
Theorem scanners_navigate_to_known_screens (P : Platform) :
  (forall (evs : list ScannerUI.event) (screen : string) (id : option str),
      In (Navigate screen id) (calls (ScannerUI.run P evs ScannerUI.start)) ->
      In screen registeredScreens /\
      ((screen = "UserDetail" /\
        exists uid, id = Some uid /\ uid <> [] /\
                    includes uid (lit "user/") = false /\
                    includes uid (lit "://") = false) \/
       (screen = "Users" /\ id = None) \/ (screen = "Home" /\ id = None))) /\
  (forall (evs : list AppOnlyUI.event) (screen : string) (id : option str),
      In (Navigate screen id) (calls (AppOnlyUI.run P evs AppOnlyUI.start)) ->
      In screen registeredScreens /\
      ((screen = "UserDetail" /\
        exists uid, id = Some uid /\ uid <> [] /\
                    includes uid (lit "user/") = false) \/
       (screen = "Users" /\ id = None) \/ (screen = "Home" /\ id = None))).
Proof.
  split.
  - intros evs screen id H.
    pose proof (scanner_run_keeps P evs _ scanner_start_keeps) as K.
    destruct K as [_ _ _ _ Hcs _ _]. rewrite Forall_forall in Hcs.
    destruct (Hcs _ H) as [[Hreg Hnav] Hsep]. split; [exact Hreg|].
    destruct Hnav as [[-> (uid & -> & Hne & Hu)]|[[-> ->]|[-> ->]]]; auto.
    left. split; [reflexivity|]. exists uid. auto.
  - intros evs screen id H.
    pose proof (appOnly_run_keeps P evs _ appOnly_start_keeps) as K.
    destruct K as [_ _ _ _ Hcs _ _]. rewrite Forall_forall in Hcs.
    destruct (Hcs _ H) as [Hreg Hnav]. split; [exact Hreg|].
    destruct Hnav as [[-> (uid & -> & Hne & Hu)]|[[-> ->]|[-> ->]]]; auto.
    left. split; [reflexivity|]. exists uid. auto.
Qed.

Lemma scanners_navigate_to_known_screens_witness :
  In "UserDetail" registeredScreens /\ In "Home" registeredScreens.
Proof.
  destruct (scanners_navigate_to_known_screens reliable) as [H1 H2].
  split.
  - apply (H1 [ScannerUI.ReadCode (mkScanEvent (lit "qrcodeapp://user/42") 1 "t")]
              "UserDetail" (Some (lit "42"))).
    vm_compute. now left.
  - apply (H2 [AppOnlyUI.ReadCode (mkScanEvent (lit "qrcodeapp://profile") 1 "t")]
              "Home" None).
    vm_compute. now left.
Defined.

(** X3: whatever happens on the app-only scanner screen, it never hands a
    URL to [Linking.openURL], and the result page never reports a valid
    code: its title is [Rejected QR Code] and its status line, when drawn,
    is the one for a code that is not app-related. *)
Theorem app_only_opens_nothing (P : Platform) (evs : list AppOnlyUI.event) :
  let w := AppOnlyUI.run P evs AppOnlyUI.start in
  urlsOpened (calls w) = [] /\
  AppOnlyUI.modalTitle (AppOnlyUI.base (react w)) = "Rejected QR Code" /\
  (AppOnlyUI.statusText (AppOnlyUI.base (react w)) = None \/
   AppOnlyUI.statusText (AppOnlyUI.base (react w)) = Some "❌ Not App-Related") /\
  match AppOnly.currentScannedData (AppOnlyUI.base (react w)) with
  | Some _ => True
  | None => AppOnly.showResultPage (AppOnlyUI.base (react w)) = false
  end.
Proof.
  intros w.
  pose proof (appOnly_run_keeps P evs _ appOnly_start_keeps) as K.
  fold w in K. destruct K as [_ _ Hd Hp Hcs _ _].
  split; [|split; [|split]].
  - destruct (urlsOpened (calls w)) as [|u us] eqn:E; [reflexivity|].
    assert (Hu : In u (urlsOpened (calls w))) by (rewrite E; now left).
    apply urlsOpened_in in Hu. rewrite Forall_forall in Hcs.
    destruct (Hcs _ Hu).
  - unfold AppOnlyUI.modalTitle. now rewrite Hp.
  - unfold AppOnlyUI.statusText. unfold AppOnlyUI.shownIsValid in Hp.
    destruct (AppOnly.currentScannedData (AppOnlyUI.base (react w)))
      as [[d i]|]; [|now left].
    right. now rewrite Hp.
  - destruct (AppOnly.currentScannedData (AppOnlyUI.base (react w)));
      [exact I|].
    destruct (AppOnly.showResultPage (AppOnlyUI.base (react w)));
      [|reflexivity].
    now destruct (Hd eq_refl).
Qed.

(** X4: whatever happens on either scanner screen, the history holds at
    most 50 items, and each item carries the verdict on its own payload:
    in the general scanner the type the classifier gives it, in the
    app-only scanner the outcome of the prefix test and the matching
    type. *)
Theorem histories_stay_consistent (P : Platform) :
  (forall evs : list ScannerUI.event,
      let h := Scanner.scanHistory
                 (ScannerUI.base (react (ScannerUI.run P evs ScannerUI.start))) in
      List.length h <= 50 /\
      Forall (fun it => Scanner.itemType it =
                        Scanner.type (Scanner.identifyDataType (Scanner.data it))) h) /\
  (forall evs : list AppOnlyUI.event,
      let h := AppOnly.appScanHistory
                 (AppOnlyUI.base (react (AppOnlyUI.run P evs AppOnlyUI.start))) in
      List.length h <= 50 /\
      Forall (fun it =>
                AppOnly.itemIsValid it =
                  startsWith (AppOnly.data it) (lit "qrcodeapp://") /\
                AppOnly.itemType it =
                  (if AppOnly.itemIsValid it then "App Deep Link"
                   else "External/Invalid")) h).
Proof.
  split; intros evs h.
  - pose proof (scanner_run_keeps P evs _ scanner_start_keeps) as K.
    destruct K as [Hb Hc _ _ _ _ _]. split; [exact Hb|exact Hc].
  - pose proof (appOnly_run_keeps P evs _ appOnly_start_keeps) as K.
    destruct K as [Hb Hc _ _ _ _ _]. split; [exact Hb|exact Hc].
Qed.

Lemma manual_label (data : str) :
  autoType (Scanner.type (Scanner.identifyDataType data)) = false ->
  Scanner.type (Scanner.identifyDataType data) <> "App deep link" ->
  In (Scanner.type (Scanner.identifyDataType data))
     ["Contact vCard"; "Calendar"; "Text"].
Proof.
  rewrite identifyDataType_classify.
  destruct (classifyWith schemeThenText data); cbn; intros A D;
    try discriminate A; try congruence; auto.
Qed.

(** X5: whatever happens on the general scanner screen, the result page
    is never up without data, and what it shows is the payload with its
    own classification, which is then Contact vCard, Calendar or Text, or
    one of the two failure notices ([Error] / [Could not process], or
    [App deep link] / [Navigation failed]). *)
Theorem result_page_shows_manual_or_failure (P : Platform)
    (evs : list ScannerUI.event) :
  let b := ScannerUI.base (react (ScannerUI.run P evs ScannerUI.start)) in
  match Scanner.currentScannedData b with
  | Some (data, info) =>
      (info = Scanner.identifyDataType data /\
       In (Scanner.type info) ["Contact vCard"; "Calendar"; "Text"]) \/
      info = Scanner.mkDataInfo "Error" "Could not process" \/
      info = Scanner.mkDataInfo "App deep link" "Navigation failed"
  | None => Scanner.showResultPage b = false
  end.
Proof.
  intros b.
  pose proof (scanner_run_keeps P evs _ scanner_start_keeps) as K.
  fold b in K. destruct K as [_ _ Hd Hp _ _ _].
  destruct (Scanner.currentScannedData b) as [[data info]|] eqn:C.
  - destruct (Hp data info C) as [[E [A D]]|[E|E]]; subst info; auto.
    left. split; [reflexivity|now apply manual_label].
  - destruct (Scanner.showResultPage b) eqn:S; [|reflexivity].
    now destruct (Hd S).
Qed.

(** X6: neither dispatcher gets stuck.  Whatever has happened on a
    scanner screen, either the dispatcher is idle or the reset of the
    scanning flag is among the pending timeouts; and whichever pending
    timeout fires, the dispatcher is idle afterwards. *)
Theorem dispatchers_never_stuck (P : Platform) :
  (forall evs : list ScannerUI.event,
      let w := ScannerUI.run P evs ScannerUI.start in
      (Scanner.isScanning (ScannerUI.base (react w)) = false \/
       In (ResetScanning, 100%N) (timeouts w)) /\
      forall i, i < List.length (timeouts w) ->
        Scanner.isScanning
          (ScannerUI.base (react (exec (ScannerUI.fireAt i) w))) = false) /\
  (forall evs : list AppOnlyUI.event,
      let w := AppOnlyUI.run P evs AppOnlyUI.start in
      (AppOnly.isScanning (AppOnlyUI.base (react w)) = false \/
       In (ResetScanning, 100%N) (timeouts w)) /\
      forall i, i < List.length (timeouts w) ->
        AppOnly.isScanning
          (AppOnlyUI.base (react (exec (AppOnlyUI.fireAt i) w))) = false).
Proof.
  split; intros evs w.
  - pose proof (scanner_run_keeps P evs _ scanner_start_keeps) as K.
    fold w in K. destruct K as [_ _ _ _ _ _ Hr]. split.
    + destruct (Scanner.isScanning (ScannerUI.base (react w)));
        [right; now apply Hr|now left].
    + intros i Hi. unfold ScannerUI.fireAt, exec.
      destruct (nth_error (timeouts w) i) as [[[] d]|] eqn:E.
      * destruct w as [[[h sc sh cur key] f sm mi shh cl] cs ts]. reflexivity.
      * destruct w as [[[h sc sh cur key] f sm mi shh cl] cs ts]. reflexivity.
      * apply nth_error_None in E. lia.
  - pose proof (appOnly_run_keeps P evs _ appOnly_start_keeps) as K.
    fold w in K. destruct K as [_ _ _ _ _ _ Hr]. split.
    + destruct (AppOnly.isScanning (AppOnlyUI.base (react w)));
        [right; now apply Hr|now left].
    + intros i Hi. unfold AppOnlyUI.fireAt, exec.
      destruct (nth_error (timeouts w) i) as [[[] d]|] eqn:E.
      * destruct w as [[[sc sh cur h key] f shh cl] cs ts]. reflexivity.
      * destruct w as [[[sc sh cur h key] f shh cl] cs ts]. reflexivity.
      * apply nth_error_None in E. lia.
Qed.

Lemma dispatchers_never_stuck_witness :
  Scanner.isScanning
    (ScannerUI.base
       (react (exec (ScannerUI.fireAt 0)
                 (ScannerUI.run reliable
                    [ScannerUI.ReadCode (mkScanEvent (lit "hello") 1 "t")]
                    ScannerUI.start)))) = false /\
  AppOnly.isScanning
    (AppOnlyUI.base
       (react (exec (AppOnlyUI.fireAt 0)
                 (AppOnlyUI.run reliable
                    [AppOnlyUI.ReadCode (mkScanEvent (lit "hello") 1 "t")]
                    AppOnlyUI.start)))) = false.
Proof.
  destruct (dispatchers_never_stuck reliable) as [H1 H2].
  split.
  - destruct (H1 [ScannerUI.ReadCode (mkScanEvent (lit "hello") 1 "t")])
      as [_ H]. apply H. vm_compute. lia.
  - destruct (H2 [AppOnlyUI.ReadCode (mkScanEvent (lit "hello") 1 "t")])
      as [_ H]. apply H. vm_compute. lia.
Defined.

(** X7: what a scan does by the type of the payload, in the general
    scanner, idle.  A Contact vCard, Calendar or Text payload makes no
    call and is shown on the result page with its classification.  A
    Website, Phone, SMS or Email payload is handed to [Linking.openURL],
    and nothing else is called; when the call returns, the result page is
    left as it was.  An app deep link makes the call of its resolved
    target and no other. *)
Theorem scan_dispatches_by_type (P : Platform) (w : World Scanner.State)
    (ev : ScanEvent) :
  Scanner.isScanning (react w) = false ->
  let data := codeStringValue ev in
  let t := Scanner.type (Scanner.identifyDataType data) in
  let w' := exec (Scanner.handleScannedData P ev) w in
  (In t ["Contact vCard"; "Calendar"; "Text"] ->
   calls w' = calls w /\
   Scanner.showResultPage (react w') = true /\
   Scanner.currentScannedData (react w') =
     Some (data, Scanner.identifyDataType data)) /\
  (In t ["Website"; "Phone"; "SMS"; "Email"] ->
   calls w' = calls w ++ [OpenURL data] /\
   (P (OpenURL data) = false ->
    Scanner.showResultPage (react w') = Scanner.showResultPage (react w) /\
    Scanner.currentScannedData (react w') = Scanner.currentScannedData (react w))) /\
  (t = "App deep link" ->
   calls w' = calls w ++ navigation (resolveSegment data)).
Proof.
  intros Hi data t w'.
  assert (E : w' = scanned P ev w).
  { subst w'. unfold exec. now rewrite handleScannedData_run. }
  rewrite E. unfold scanned, scanPage, scanCalls.
  fold data. fold t. cbn [react calls timeouts Scanner.showResultPage
                         Scanner.currentScannedData].
  split; [|split].
  - intros [Ht|[Ht|[Ht|[]]]]; rewrite <- Ht; cbn;
      rewrite app_nil_r; repeat split.
  - intros [Ht|[Ht|[Ht|[Ht|[]]]]]; rewrite <- Ht; cbn;
      (split; [reflexivity|]); intros ->; split; reflexivity.
  - intros Ht. rewrite Ht. reflexivity.
Qed.

Lemma scan_dispatches_by_type_witness :
  calls (exec (Scanner.handleScannedData reliable
                 (mkScanEvent (lit "just text") 1 "t")) Scanner.start) = [] /\
  calls (exec (Scanner.handleScannedData reliable
                 (mkScanEvent (lit "mailto:a@b.c") 1 "t")) Scanner.start) =
    [OpenURL (lit "mailto:a@b.c")] /\
  calls (exec (Scanner.handleScannedData reliable
                 (mkScanEvent (lit "qrcodeapp://users") 1 "t")) Scanner.start) =
    [Navigate "Users" None].
Proof.
  split; [|split].
  - destruct (scan_dispatches_by_type reliable Scanner.start
                (mkScanEvent (lit "just text") 1 "t") eq_refl) as (H & _).
    destruct H as (H & _); [vm_compute; tauto|exact H].
  - destruct (scan_dispatches_by_type reliable Scanner.start
                (mkScanEvent (lit "mailto:a@b.c") 1 "t") eq_refl) as (_ & H & _).
    destruct H as (H & _); [vm_compute; tauto|exact H].
  - destruct (scan_dispatches_by_type reliable Scanner.start
                (mkScanEvent (lit "qrcodeapp://users") 1 "t") eq_refl)
      as (_ & _ & H).
    exact (H eq_refl).
Defined.

(** * The manual input *)

Section ManualInput.

Variable P : Platform.

Lemma handleManualInput_text (w : World ScannerUI.State) (now : N)
    (locale : string) (c : N) (t : str) :
  trim (ScannerUI.manualInput (react w)) = c :: t ->
  ScannerUI.handleManualInput P now locale w =
  (Some tt,
   let w1 := exec (Scanner.handleScannedData P (mkScanEvent (c :: t) now locale))
                  (ScannerUI.baseWorld w) in
   mkWorld
     (ScannerUI.mkState (react w1) (ScannerUI.flashOn (react w)) false []
        (ScannerUI.showHistory (react w)) (ScannerUI.clipboard (react w)))
     (calls w1) (timeouts w1)).
Proof.
  intros E. unfold ScannerUI.handleManualInput, bind, getState.
  cbn [fst snd]. rewrite E. rewrite liftBase_scan.
  rewrite liftBase_exec. reflexivity.
Qed.

Lemma trim_nonblank (s : str) :
  forallb isWhiteSpace s = false -> exists c t, trim s = c :: t.
Proof.
  intros H. destruct (trim s) as [|c t] eqn:E; [|now exists c, t].
  apply trim_blank in E. congruence.
Qed.

End ManualInput.

(** X8: the Go button of the manual input records nothing when the text
    is blank or the dispatcher is suppressed.  A text of blanks and line
    breaks only (or no text) leaves the whole screen as it is, the form
    open and the text in place.  Any other text submitted while the
    dispatcher is suppressed is lost: the form is closed and emptied, and
    neither the history nor the calls nor the timeouts change. *)
Theorem manual_input_dropped (P : Platform) (w : World ScannerUI.State)
    (now : N) (locale : string) :
  (forallb isWhiteSpace (ScannerUI.manualInput (react w)) = true ->
   ScannerUI.handleManualInput P now locale w = (Some tt, w)) /\
  (forallb isWhiteSpace (ScannerUI.manualInput (react w)) = false ->
   Scanner.isScanning (ScannerUI.base (react w)) = true ->
   ScannerUI.handleManualInput P now locale w =
     (Some tt,
      mkWorld
        (ScannerUI.mkState (ScannerUI.base (react w)) (ScannerUI.flashOn (react w))
           false [] (ScannerUI.showHistory (react w)) (ScannerUI.clipboard (react w)))
        (calls w) (timeouts w))).
Proof.
  split.
  - intros H. apply trim_blank in H.
    unfold ScannerUI.handleManualInput, bind, getState. cbn [fst snd].
    now rewrite H.
  - intros H Hs. destruct (trim_nonblank _ H) as (c & t & E).
    rewrite (handleManualInput_text P w now locale c t E).
    unfold exec. rewrite handleScannedData_suppressed by exact Hs.
    reflexivity.
Qed.

Lemma manual_input_dropped_witness :
  ScannerUI.handleManualInput reliable 5 "t"
    (mkWorld (ScannerUI.mkState Scanner.initial false true (lit "  ") false None)
             [] []) =
    (Some tt,
     mkWorld (ScannerUI.mkState Scanner.initial false true (lit "  ") false None)
             [] []) /\
  ScannerUI.handleManualInput reliable 5 "t"
    (mkWorld (ScannerUI.mkState (Scanner.mkState [] true false None 0) false true
                (lit " tel:1 ") false None) [] [(ResetScanning, 100%N)]) =
    (Some tt,
     mkWorld (ScannerUI.mkState (Scanner.mkState [] true false None 0) false false
                [] false None) [] [(ResetScanning, 100%N)]).
Proof.
  split.
  - apply (manual_input_dropped reliable). reflexivity.
  - apply (manual_input_dropped reliable); reflexivity.
Defined.

(** X9: the Go button with a text that is not blank, the dispatcher idle:
    the text without the blanks and line breaks around it is scanned as a
    decode event would be, so it is the payload of the newest history
    item; it neither starts nor ends with a blank; the form is closed and
    emptied. *)
Theorem manual_input_scans_trimmed (P : Platform) (w : World ScannerUI.State)
    (now : N) (locale : string) :
  forallb isWhiteSpace (ScannerUI.manualInput (react w)) = false ->
  Scanner.isScanning (ScannerUI.base (react w)) = false ->
  let text := trim (ScannerUI.manualInput (react w)) in
  let w' := exec (ScannerUI.handleManualInput P now locale) w in
  ScannerUI.baseWorld w' =
    exec (Scanner.handleScannedData P (mkScanEvent text now locale))
         (ScannerUI.baseWorld w) /\
  hd_error (Scanner.scanHistory (ScannerUI.base (react w'))) =
    Some (scannerItem (mkScanEvent text now locale)) /\
  ScannerUI.manualInput (react w') = [] /\
  ScannerUI.showManualInput (react w') = false /\
  (exists l r,
      ScannerUI.manualInput (react w) = l ++ text ++ r /\
      forallb isWhiteSpace l = true /\ forallb isWhiteSpace r = true) /\
  (exists c t, text = c :: t /\ isWhiteSpace c = false /\
               isWhiteSpace (last text c) = false).
Proof.
  intros H Hi text w'.
  destruct (trim_nonblank _ H) as (c & t & E).
  assert (W : w' = snd (ScannerUI.handleManualInput P now locale w)) by reflexivity.
  rewrite (handleManualInput_text P w now locale c t E) in W.
  cbn [snd] in W. rewrite W. fold text in E. rewrite E.
  destruct (trim_spec (ScannerUI.manualInput (react w)))
    as (l & r & Hs & Hl & Hr & Hfirst & Hlast).
  fold text in Hs, Hfirst, Hlast. rewrite E in Hs, Hfirst, Hlast.
  split; [|split; [|split; [|split; [|split]]]]; try reflexivity.
  - unfold ScannerUI.baseWorld.
    now destruct (exec (Scanner.handleScannedData P _) _).
  - cbn [react ScannerUI.base].
    destruct (handleScannedData_idle P (ScannerUI.baseWorld w)
                (mkScanEvent (c :: t) now locale) Hi) as (_ & _ & Hh & _).
    now rewrite Hh.
  - now exists l, r.
  - exists c, t. split; [reflexivity|]. split; [now apply (Hfirst c t)|].
    destruct (exists_last (l := c :: t) ltac:(discriminate)) as (u & d & Eu).
    rewrite Eu, last_last. now apply (Hlast u d).
Qed.

Lemma manual_input_scans_trimmed_witness :
  hd_error
    (Scanner.scanHistory
       (ScannerUI.base
          (react (exec (ScannerUI.handleManualInput reliable 5 "t")
                    (mkWorld (ScannerUI.mkState Scanner.initial false true
                                (lit "  tel:123 ") false None) [] []))))) =
    Some (Scanner.mkHistoryItem 5 (lit "tel:123") "Phone" "t").
Proof.
  destruct (manual_input_scans_trimmed reliable
              (mkWorld (ScannerUI.mkState Scanner.initial false true
                          (lit "  tel:123 ") false None) [] [])
              5 "t" eq_refl eq_refl) as (_ & H & _).
  exact H.
Defined.

(** * The search and copy buttons *)

Section Buttons.

Variable P : Platform.

Lemma searchOnWeb_run (w : World ScannerUI.State) (data : str)
    (info : Scanner.DataInfo) :
  Scanner.currentScannedData (ScannerUI.base (react w)) = Some (data, info) ->
  ScannerUI.searchOnWeb P w =
  match encodeURIComponent data with
  | Some q =>
      (if P (OpenURL (ScannerUI.searchPrefix ++ q)) then None else Some tt,
       mkWorld (react w) (calls w ++ [OpenURL (ScannerUI.searchPrefix ++ q)])
               (timeouts w))
  | None => (None, w)
  end.
Proof.
  intros H. unfold ScannerUI.searchOnWeb, bind, getState. cbn [fst snd].
  rewrite H. now destruct (encodeURIComponent data).
Qed.

End Buttons.

(** X10: the Search button with a payload on the result page whose text
    is well formed: the URL handed to [Linking.openURL] is the Google
    search prefix followed by the encoded payload, in which only
    unreserved characters and percent signs occur (so no [&], [=], [#] or
    blank that could end or extend the query), and the classifier takes
    that URL for a Website. *)
Theorem search_url_is_safe (P : Platform) (w : World ScannerUI.State)
    (data : str) (info : Scanner.DataInfo) :
  Scanner.currentScannedData (ScannerUI.base (react w)) = Some (data, info) ->
  codeUnits data ->
  isWellFormed data = true ->
  exists q,
    encodeURIComponent data = Some q /\
    forallb uriSafe q = true /\
    exec (ScannerUI.searchOnWeb P) w =
      mkWorld (react w) (calls w ++ [OpenURL (ScannerUI.searchPrefix ++ q)])
              (timeouts w) /\
    Scanner.type (Scanner.identifyDataType (ScannerUI.searchPrefix ++ q)) = "Website".
Proof.
  intros Hd Hu Hw.
  destruct (encodeURIComponent data) as [q|] eqn:E.
  - exists q. split; [reflexivity|]. split; [|split].
    + now apply (encodeURIComponent_safe data Hu).
    + unfold exec. rewrite (searchOnWeb_run P w data info Hd), E. reflexivity.
    + apply search_url_classified.
  - apply encodeURIComponent_throws in E. congruence.
Qed.

Lemma search_url_is_safe_witness :
  exists q,
    encodeURIComponent (lit "a b&c=d") = Some q /\
    forallb uriSafe q = true /\
    exec (ScannerUI.searchOnWeb reliable)
      (mkWorld (ScannerUI.mkState
                  (Scanner.mkState [] false true
                     (Some (lit "a b&c=d", Scanner.mkDataInfo "Text" "Display content"))
                     0) false false [] false None) [] []) =
      mkWorld (ScannerUI.mkState
                 (Scanner.mkState [] false true
                    (Some (lit "a b&c=d", Scanner.mkDataInfo "Text" "Display content"))
                    0) false false [] false None)
              ([] ++ [OpenURL (ScannerUI.searchPrefix ++ q)]) [] /\
    Scanner.type (Scanner.identifyDataType (ScannerUI.searchPrefix ++ q)) = "Website".
Proof.
  apply (search_url_is_safe reliable
           (mkWorld (ScannerUI.mkState
                       (Scanner.mkState [] false true
                          (Some (lit "a b&c=d",
                                 Scanner.mkDataInfo "Text" "Display content"))
                          0) false false [] false None) [] [])
           (lit "a b&c=d") (Scanner.mkDataInfo "Text" "Display content")).
  - reflexivity.
  - unfold codeUnits. repeat constructor.
  - reflexivity.
Defined.

Example encode_sample :
  encodeURIComponent (lit "a b&c=d") = Some (lit "a%20b%26c%3Dd").
Proof. reflexivity. Qed.

Example encode_pair :
  encodeURIComponent [55357; 56832]%N = Some (lit "%F0%9F%98%80").
Proof. reflexivity. Qed.

(** X11: the Search button with a payload that holds a surrogate without
    its partner: [encodeURIComponent] throws, the handler has no [catch],
    so the exception leaves the handler; nothing is opened and the screen
    is as it was. *)
Theorem search_throws_on_lone_surrogate (P : Platform)
    (w : World ScannerUI.State) (data : str) (info : Scanner.DataInfo) :
  Scanner.currentScannedData (ScannerUI.base (react w)) = Some (data, info) ->
  isWellFormed data = false ->
  ScannerUI.searchOnWeb P w = (None, w).
Proof.
  intros Hd Hw. rewrite (searchOnWeb_run P w data info Hd).
  apply encodeURIComponent_throws in Hw. now rewrite Hw.
Qed.

Lemma search_throws_on_lone_surrogate_witness :
  ScannerUI.searchOnWeb reliable
    (mkWorld (ScannerUI.mkState
                (Scanner.mkState [] false true
                   (Some ([97; 55357]%N, Scanner.mkDataInfo "Text" "Display content"))
                   0) false false [] false None) [] []) =
  (None,
   mkWorld (ScannerUI.mkState
              (Scanner.mkState [] false true
                 (Some ([97; 55357]%N, Scanner.mkDataInfo "Text" "Display content"))
                 0) false false [] false None) [] []).
Proof.
  apply (search_throws_on_lone_surrogate reliable _ [97; 55357]%N
           (Scanner.mkDataInfo "Text" "Display content")); reflexivity.
Defined.

(** * Timeouts that outlive a restart *)

(** X12: [restartCamera] does not cancel the reset that a scan has
    scheduled.  Take a scan in the general dispatcher, idle and with no
    timeout pending, then a restart, then a second scan: two resets are
    pending, and when the older one fires the dispatcher is idle although
    the reset of the second scan is still pending, so the next decode
    event is taken and recorded. *)
Theorem restart_keeps_old_reset (P : Platform) (w : World Scanner.State)
    (x y z : ScanEvent) :
  Scanner.isScanning (react w) = false ->
  timeouts w = [] ->
  let w1 := exec (Scanner.handleScannedData P x) w in
  let w2 := exec Scanner.restartCamera w1 in
  let w3 := exec (Scanner.handleScannedData P y) w2 in
  let w4 := exec Scanner.fireTimeout w3 in
  timeouts w3 = [(ResetScanning, 100%N); (ResetScanning, 100%N)] /\
  Scanner.isScanning (react w3) = true /\
  Scanner.isScanning (react w4) = false /\
  timeouts w4 = [(ResetScanning, 100%N)] /\
  Scanner.scanHistory (react (exec (Scanner.handleScannedData P z) w4)) =
    scannerItem z :: firstn 49 (scannerItem y :: firstn 49 (scannerItem x ::
      firstn 49 (Scanner.scanHistory (react w)))).
Proof.
  intros Hi Ht w1 w2 w3 w4.
  assert (E1 : w1 = scanned P x w).
  { subst w1. unfold exec. now rewrite handleScannedData_run. }
  assert (E2 : w2 = mkWorld
                      (Scanner.mkState (Scanner.scanHistory (react w1)) false
                         (Scanner.showResultPage (react w1))
                         (Scanner.currentScannedData (react w1))
                         (Scanner.cameraKey (react w1) + 1))
                      (calls w1) (timeouts w1)).
  { subst w2. now destruct w1 as [[h sc sh cur key] cs ts]. }
  assert (E3 : w3 = scanned P y w2).
  { subst w3. unfold exec. rewrite handleScannedData_run; [reflexivity|].
    now rewrite E2. }
  assert (T3 : timeouts w3 = [(ResetScanning, 100%N); (ResetScanning, 100%N)]).
  { rewrite E3. unfold scanned at 1. cbn [timeouts]. rewrite E2. cbn [timeouts].
    rewrite E1. unfold scanned at 1. cbn [timeouts]. now rewrite Ht. }
  assert (I3 : Scanner.isScanning (react w3) = true) by now rewrite E3.
  destruct (fireTimeout_pending w3 _ _ T3) as (_ & I4 & T4). fold w4 in I4, T4.
  assert (H4 : Scanner.scanHistory (react w4) = Scanner.scanHistory (react w3)).
  { subst w4. unfold Scanner.fireTimeout, exec. rewrite T3.
    now destruct w3 as [[h sc sh cur key] cs ts]. }
  repeat (split; [assumption|]).
  destruct (handleScannedData_idle P w4 z I4) as (_ & _ & Hh & _).
  rewrite Hh, H4, E3. unfold scanned at 1. cbn [react Scanner.scanHistory].
  rewrite E2. cbn [react Scanner.scanHistory]. rewrite E1. reflexivity.
Qed.

Lemma restart_keeps_old_reset_witness :
  Scanner.scanHistory
    (react
       (exec (Scanner.handleScannedData reliable (mkScanEvent (lit "c") 3 "t"))
          (exec Scanner.fireTimeout
             (exec (Scanner.handleScannedData reliable (mkScanEvent (lit "b") 2 "t"))
                (exec Scanner.restartCamera
                   (exec (Scanner.handleScannedData reliable
                            (mkScanEvent (lit "a") 1 "t")) Scanner.start)))))) =
    [Scanner.mkHistoryItem 3 (lit "c") "Text" "t";
     Scanner.mkHistoryItem 2 (lit "b") "Text" "t";
     Scanner.mkHistoryItem 1 (lit "a") "Text" "t"].
Proof.
  destruct (restart_keeps_old_reset reliable Scanner.start
              (mkScanEvent (lit "a") 1 "t") (mkScanEvent (lit "b") 2 "t")
              (mkScanEvent (lit "c") 3 "t") eq_refl eq_refl)
    as (_ & _ & _ & _ & H).
  exact H.
Defined.

(** * The QR code of a user *)

Section UserCode.

Lemma includes_char (s p : str) (c : N) :
  includes s p = true -> In c p -> In c s.
Proof.
  intros H Hc. apply includes_decompose in H as (x & y & ->).
  apply in_or_app. right. apply in_or_app. now left.
Qed.

Lemma no_slash_no_marker (uid : str) :
  ~ In 47%N uid ->
  includes uid (lit "://") = false /\ includes uid (lit "user/") = false /\
  includes uid (lit "qrcodeapp://") = false.
Proof.
  intros H.
  assert (G : forall p, In 47%N p -> includes uid p = false).
  { intros p Hp. destruct (includes uid p) eqn:E; [|reflexivity].
    destruct H. now apply (includes_char uid p). }
  repeat split; apply G; cbn; tauto.
Qed.

Lemma scanCalls_user (uid : str) :
  uid <> [] -> ~ In 47%N uid ->
  scanCalls (UserDetail.deepLink uid) = [Navigate "UserDetail" (Some uid)].
Proof.
  intros Hne Hs. destruct (no_slash_no_marker uid Hs) as (H1 & H2 & _).
  unfold scanCalls, UserDetail.deepLink.
  change (lit "qrcodeapp://user/" ++ uid)
    with (lit "qrcodeapp://" ++ (lit "user/" ++ uid)) at 1 2.
  rewrite app_prefix_classified. cbn [Scanner.type autoType].
  change (autoType "App deep link") with false. cbv iota.
  change ("App deep link" =? "App deep link") with true. cbv iota.
  rewrite (resolveSegment_plain_id uid H1 H2).
  destruct uid; [congruence|reflexivity].
Qed.

Lemma appOnlyScanCalls_user (uid : str) :
  uid <> [] -> ~ In 47%N uid ->
  appOnlyScanCalls (UserDetail.deepLink uid) = [Navigate "UserDetail" (Some uid)].
Proof.
  intros Hne Hs. destruct (no_slash_no_marker uid Hs) as (_ & H2 & H3).
  apply cut_none_iff in H2, H3.
  unfold appOnlyScanCalls, UserDetail.deepLink, appOnlyPathCalls, segment.
  cbn in *. rewrite H3. cbn. rewrite H2.
  destruct uid; [congruence|reflexivity].
Qed.

End UserCode.

(** X13: the QR code that the user screen draws for a user comes back to
    that user.  When the text of [user.user_id] is not empty and holds no
    [/], its deep link [qrcodeapp://user/<id>] is classified as an app
    deep link and accepted by the app-only gate, and a scan of it in
    either scanner, idle, makes exactly one call: the navigation to
    UserDetail with that [id]. *)
Theorem user_qr_round_trip (P : Platform) (uid : str) (now : N) (locale : string)
    (ws : World Scanner.State) (wa : World AppOnly.State) :
  uid <> [] ->
  ~ In 47%N uid ->
  Scanner.isScanning (react ws) = false ->
  AppOnly.isScanning (react wa) = false ->
  let link := UserDetail.deepLink uid in
  Scanner.type (Scanner.identifyDataType link) = "App deep link" /\
  AppOnly.isValid (AppOnly.validateAppQRCode link) = true /\
  calls (exec (Scanner.handleScannedData P (mkScanEvent link now locale)) ws) =
    calls ws ++ [Navigate "UserDetail" (Some uid)] /\
  calls (exec (AppOnly.handleAppOnlyScannedData P (mkScanEvent link now locale)) wa) =
    calls wa ++ [Navigate "UserDetail" (Some uid)].
Proof.
  intros Hne Hs Hi Ha link. split; [|split; [|split]].
  - subst link. unfold UserDetail.deepLink.
    change (lit "qrcodeapp://user/" ++ uid)
      with (lit "qrcodeapp://" ++ (lit "user/" ++ uid)).
    now rewrite app_prefix_classified.
  - reflexivity.
  - unfold exec. rewrite handleScannedData_run by exact Hi.
    unfold scanned. cbn [calls codeStringValue]. subst link.
    now rewrite scanCalls_user.
  - unfold exec. rewrite handleAppOnlyScannedData_run by exact Ha.
    unfold appOnlyScanned. cbn [calls codeStringValue]. subst link.
    now rewrite appOnlyScanCalls_user.
Qed.

Lemma user_qr_round_trip_witness :
  calls (exec (Scanner.handleScannedData reliable
                 (mkScanEvent (UserDetail.deepLink (lit "42")) 1 "t"))
           Scanner.start) = [] ++ [Navigate "UserDetail" (Some (lit "42"))] /\
  calls (exec (AppOnly.handleAppOnlyScannedData reliable
                 (mkScanEvent (UserDetail.deepLink (lit "42")) 1 "t"))
           AppOnly.start) = [] ++ [Navigate "UserDetail" (Some (lit "42"))].
Proof.
  assert (Hs : ~ In 47%N (lit "42")).
  { intros [H|[H|[]]]; discriminate H. }
  destruct (user_qr_round_trip reliable (lit "42") 1 "t" Scanner.start
              AppOnly.start ltac:(discriminate) Hs eq_refl eq_refl)
    as (_ & _ & H1 & H2).
  split; [exact H1|exact H2].
Defined.

(** X14: the Copy button puts on the clipboard the payload that the
    result page shows: after a scan of a Contact vCard, Calendar or Text
    payload in the general scanner, and after a scan of a payload without
    the app prefix in the app-only scanner (each idle), it is the payload
    just scanned; with nothing scanned yet the button does nothing. *)
Theorem copy_takes_presented_payload (P : Platform) :
  (forall (w : World ScannerUI.State) (e : ScanEvent),
      Scanner.isScanning (ScannerUI.base (react w)) = false ->
      In (Scanner.type (Scanner.identifyDataType (codeStringValue e)))
         ["Contact vCard"; "Calendar"; "Text"] ->
      ScannerUI.clipboard
        (react (ScannerUI.run P [ScannerUI.ReadCode e; ScannerUI.PressCopy] w)) =
        Some (codeStringValue e)) /\
  (forall (w : World AppOnlyUI.State) (e : ScanEvent),
      AppOnly.isScanning (AppOnlyUI.base (react w)) = false ->
      startsWith (codeStringValue e) (lit "qrcodeapp://") = false ->
      AppOnlyUI.clipboard
        (react (AppOnlyUI.run P [AppOnlyUI.ReadCode e; AppOnlyUI.PressCopy] w)) =
        Some (codeStringValue e)) /\
  ScannerUI.copyToClipboard P ScannerUI.start = (Some tt, ScannerUI.start) /\
  AppOnlyUI.copyToClipboard P AppOnlyUI.start = (Some tt, AppOnlyUI.start).
Proof.
  split; [|split; [|split]]; try reflexivity.
  - intros w e Hi Ht.
    cbn [ScannerUI.run ScannerUI.handle]. rewrite liftBase_exec.
    unfold exec at 2 3 4. rewrite handleScannedData_run by exact Hi.
    unfold exec, ScannerUI.copyToClipboard, bind, getState.
    cbn [fst snd react ScannerUI.base ScannerUI.setBase].
    unfold scanned, scanPage, scanCalls, ScannerUI.baseWorld.
    cbn [react Scanner.currentScannedData codeStringValue].
    destruct Ht as [Ht|[Ht|[Ht|[]]]]; rewrite <- Ht; reflexivity.
  - intros w e Hi Hp.
    cbn [AppOnlyUI.run AppOnlyUI.handle]. rewrite appOnly_liftBase_exec.
    unfold exec at 2 3 4. rewrite handleAppOnlyScannedData_run by exact Hi.
    unfold exec, AppOnlyUI.copyToClipboard, bind, getState.
    cbn [fst snd react AppOnlyUI.base AppOnlyUI.setBase].
    unfold appOnlyScanned, AppOnlyUI.baseWorld.
    cbn [react AppOnly.currentScannedData codeStringValue].
    rewrite Hp. reflexivity.
Qed.

Lemma copy_takes_presented_payload_witness :
  ScannerUI.clipboard
    (react (ScannerUI.run reliable
              [ScannerUI.ReadCode (mkScanEvent (lit "note") 1 "t");
               ScannerUI.PressCopy] ScannerUI.start)) = Some (lit "note") /\
  AppOnlyUI.clipboard
    (react (AppOnlyUI.run reliable
              [AppOnlyUI.ReadCode (mkScanEvent (lit "tel:9") 1 "t");
               AppOnlyUI.PressCopy] AppOnlyUI.start)) = Some (lit "tel:9").
Proof.
  destruct (copy_takes_presented_payload reliable) as (H1 & H2 & _).
  split.
  - apply (H1 ScannerUI.start (mkScanEvent (lit "note") 1 "t")).
    + reflexivity.
    + vm_compute. tauto.
  - apply (H2 AppOnlyUI.start (mkScanEvent (lit "tel:9") 1 "t")); reflexivity.
Defined.

(** * The encoder keeps payloads apart *)

Section EncodingInjective.

Local Open Scope N_scope.

Lemma hexDigit_inj (d d' : N) :
  d < 16 -> d' < 16 -> hexDigit d = hexDigit d' -> d = d'.
Proof.
  unfold hexDigit. intros Hd Hd'.
  destruct (d <? 10) eqn:A, (d' <? 10) eqn:B;
    rewrite ?N.ltb_lt, ?N.ltb_ge in *; lia.
Qed.

Lemma percent_inj (b b' : N) :
  b < 256 -> b' < 256 -> percent b = percent b' -> b = b'.
Proof.
  intros Hb Hb' H. unfold percent in H. injection H as H1 H2.
  apply hexDigit_inj in H1;
    [|apply N.Div0.div_lt_upper_bound; lia|apply N.Div0.div_lt_upper_bound; lia].
  apply hexDigit_inj in H2;
    [|apply N.mod_upper_bound; lia|apply N.mod_upper_bound; lia].
  rewrite (N.div_mod b 16), (N.div_mod b' 16) by lia. now rewrite H1, H2.
Qed.

Lemma percent_cons_inj (b b' : N) (o o' : str) :
  b < 256 -> b' < 256 -> percent b ++ o = percent b' ++ o' -> b = b' /\ o = o'.
Proof.
  intros Hb Hb' H. unfold percent in H. cbn [app] in H.
  injection H as H1 H2 H3. split; [|exact H3].
  apply percent_inj; try assumption. unfold percent. now rewrite H1, H2.
Qed.

(** The octets of a code point, with the facts that tell them apart. *)
Lemma utf8_cases (cp : N) :
  cp < 1114112 ->
  (cp < 128 /\ utf8 cp = [cp]) \/
  (128 <= cp < 2048 /\
   exists a b, utf8 cp = [192 + a; 128 + b] /\ a < 32 /\ b < 64 /\ cp = 64 * a + b) \/
  (2048 <= cp < 65536 /\
   exists a b c, utf8 cp = [224 + a; 128 + b; 128 + c] /\
                 a < 16 /\ b < 64 /\ c < 64 /\ cp = 4096 * a + 64 * b + c) \/
  (65536 <= cp /\
   exists a b c d, utf8 cp = [240 + a; 128 + b; 128 + c; 128 + d] /\
                   a < 5 /\ b < 64 /\ c < 64 /\ d < 64 /\
                   cp = 262144 * a + 4096 * b + 64 * c + d).
Proof.
  intros H. unfold utf8.
  pose proof (N.div_mod cp 64 ltac:(lia)) as E1.
  pose proof (N.mod_upper_bound cp 64 ltac:(lia)) as B1.
  pose proof (N.div_mod (cp / 64) 64 ltac:(lia)) as E2.
  pose proof (N.mod_upper_bound (cp / 64) 64 ltac:(lia)) as B2.
  pose proof (N.div_mod (cp / 4096) 64 ltac:(lia)) as E3.
  pose proof (N.mod_upper_bound (cp / 4096) 64 ltac:(lia)) as B3.
  assert (D2 : cp / 64 / 64 = cp / 4096) by (rewrite N.Div0.div_div; reflexivity).
  assert (D3 : cp / 4096 / 64 = cp / 262144) by (rewrite N.Div0.div_div; reflexivity).
  rewrite D2 in E2. rewrite D3 in E3.
  destruct (cp <? 128) eqn:C1; [left; apply N.ltb_lt in C1; now split|].
  apply N.ltb_ge in C1.
  destruct (cp <? 2048) eqn:C2.
  { apply N.ltb_lt in C2. right. left. split; [lia|].
    exists (cp / 64), (cp mod 64). repeat split; try lia.
    apply N.Div0.div_lt_upper_bound. lia. }
  apply N.ltb_ge in C2.
  destruct (cp <? 65536) eqn:C3.
  { apply N.ltb_lt in C3. right. right. left. split; [lia|].
    exists (cp / 4096), ((cp / 64) mod 64), (cp mod 64). repeat split; try lia.
    apply N.Div0.div_lt_upper_bound. lia. }
  apply N.ltb_ge in C3. right. right. right. split; [lia|].
  exists (cp / 262144), ((cp / 4096) mod 64), ((cp / 64) mod 64), (cp mod 64).
  repeat split; try lia.
  apply N.Div0.div_lt_upper_bound. lia.
Qed.

(** No encoding of a code point is the start of another's. *)
Lemma utf8_prefix_free (c1 c2 : N) (o1 o2 : str) :
  c1 < 1114112 -> c2 < 1114112 ->
  percentAll (utf8 c1) ++ o1 = percentAll (utf8 c2) ++ o2 ->
  c1 = c2 /\ o1 = o2.
Proof.
  intros H1 H2 E.
  destruct (utf8_cases c1 H1)
    as [(R1 & U1)|[(R1 & a1 & b1 & U1 & ?)|[(R1 & a1 & b1 & x1 & U1 & ?)|
        (R1 & a1 & b1 & x1 & y1 & U1 & ?)]]];
  destruct (utf8_cases c2 H2)
    as [(R2 & U2)|[(R2 & a2 & b2 & U2 & ?)|[(R2 & a2 & b2 & x2 & U2 & ?)|
        (R2 & a2 & b2 & x2 & y2 & U2 & ?)]]];
  rewrite U1, U2 in E; unfold percentAll in E; cbn [flat_map] in E;
  rewrite <- ?app_assoc in E; cbn [app] in E;
  repeat match type of E with
         | percent ?x ++ _ = percent ?y ++ _ =>
             let Hx := fresh "Hx" in
             apply percent_cons_inj in E as [Hx E]; [|lia|lia]
         end;
  try (split; [lia|assumption]); exfalso; lia.
Qed.

Lemma percentAll_head (cp : N) (o : str) :
  exists t, percentAll (utf8 cp) ++ o = 37 :: t.
Proof.
  unfold utf8.
  destruct (cp <? 128); [|destruct (cp <? 2048); [|destruct (cp <? 65536)]];
    cbn; eauto.
Qed.

Lemma unreserved_not_percent (c : N) : uriUnreserved c = true -> c <> 37.
Proof. intros H ->. discriminate H. Qed.

Lemma surrogatePair_inj (l t l' t' : N) :
  isLeadSurrogate l = true -> isTrailSurrogate t = true ->
  isLeadSurrogate l' = true -> isTrailSurrogate t' = true ->
  surrogatePair l t = surrogatePair l' t' -> l = l' /\ t = t'.
Proof.
  unfold isLeadSurrogate, isTrailSurrogate, surrogatePair.
  rewrite !andb_true_iff, !N.leb_le. lia.
Qed.

Lemma surrogatePair_high (l t : N) :
  isLeadSurrogate l = true -> isTrailSurrogate t = true ->
  65536 <= surrogatePair l t.
Proof. unfold surrogatePair. lia. Qed.

(** Two texts with the same encoding are the same text. *)
Lemma encodeURIComponent_inj (n : nat) :
  forall s1 s2 q,
    (List.length s1 <= n)%nat ->
    codeUnits s1 -> codeUnits s2 ->
    encodeURIComponent s1 = Some q -> encodeURIComponent s2 = Some q ->
    s1 = s2.
Proof.
  unfold codeUnits.
  induction n as [|n IH]; intros s1 s2 q Hn U1 U2 E1 E2.
  - destruct s1; [|simpl in Hn; lia]. simpl in E1. injection E1 as <-.
    destruct s2 as [|c2 r2]; [reflexivity|]. exfalso.
    rewrite encodeURIComponent_cons in E2.
    destruct (uriUnreserved c2);
      [destruct (encodeURIComponent r2); discriminate|].
    destruct (isTrailSurrogate c2); [discriminate|].
    destruct (isLeadSurrogate c2).
    + destruct r2 as [|d2 r2]; [discriminate|].
      destruct (isTrailSurrogate d2); [|discriminate].
      destruct (encodeURIComponent r2) as [o|]; [|discriminate].
      injection E2 as E2.
      destruct (percentAll_head (surrogatePair c2 d2) o) as [t Ht].
      rewrite Ht in E2. discriminate.
    + destruct (encodeURIComponent r2) as [o|]; [|discriminate].
      injection E2 as E2.
      destruct (percentAll_head c2 o) as [t Ht].
      rewrite Ht in E2. discriminate.
  - destruct s1 as [|c1 r1].
    { apply (IH [] s2 q); simpl; auto; lia. }
    destruct s2 as [|c2 r2].
    { symmetry. apply (IH [] (c1 :: r1) q); simpl; auto; try lia. }
    rewrite encodeURIComponent_cons in E1, E2.
    assert (Hc1 : c1 < 65536) by (inversion U1; assumption).
    assert (Hc2 : c2 < 65536) by (inversion U2; assumption).
    assert (Hr1 : Forall (fun c => c < 65536) r1) by (inversion U1; assumption).
    assert (Hr2 : Forall (fun c => c < 65536) r2) by (inversion U2; assumption).
    simpl in Hn.
    destruct (uriUnreserved c1) eqn:A1.
    + destruct (encodeURIComponent r1) as [o1|] eqn:R1; [|discriminate].
      injection E1 as <-.
      destruct (uriUnreserved c2) eqn:A2.
      * destruct (encodeURIComponent r2) as [o2|] eqn:R2; [|discriminate].
        injection E2 as -> ->. f_equal.
        apply (IH r1 r2 o1); auto; lia.
      * exfalso. apply unreserved_not_percent in A1.
        destruct (isTrailSurrogate c2); [discriminate|].
        destruct (isLeadSurrogate c2).
        -- destruct r2 as [|d2 r2]; [discriminate|].
           destruct (isTrailSurrogate d2); [|discriminate].
           destruct (encodeURIComponent r2) as [o|]; [|discriminate].
           injection E2 as E2.
           destruct (percentAll_head (surrogatePair c2 d2) o) as [t Ht].
           rewrite Ht in E2. congruence.
        -- destruct (encodeURIComponent r2) as [o|]; [|discriminate].
           injection E2 as E2.
           destruct (percentAll_head c2 o) as [t Ht].
           rewrite Ht in E2. congruence.
    + destruct (isTrailSurrogate c1) eqn:T1; [discriminate|].
      destruct (uriUnreserved c2) eqn:A2.
      { exfalso. apply unreserved_not_percent in A2.
        destruct (encodeURIComponent r2) as [o2|]; [|discriminate].
        injection E2 as <-.
        destruct (isLeadSurrogate c1).
        - destruct r1 as [|d1 r1]; [discriminate|].
          destruct (isTrailSurrogate d1); [|discriminate].
          destruct (encodeURIComponent r1) as [o|]; [|discriminate].
          injection E1 as E1.
          destruct (percentAll_head (surrogatePair c1 d1) o) as [t Ht].
          rewrite Ht in E1. congruence.
        - destruct (encodeURIComponent r1) as [o|]; [|discriminate].
          injection E1 as E1.
          destruct (percentAll_head c1 o) as [t Ht].
          rewrite Ht in E1. congruence. }
      destruct (isTrailSurrogate c2) eqn:T2; [discriminate|].
      destruct (isLeadSurrogate c1) eqn:L1.
      * destruct r1 as [|d1 r1]; [discriminate|].
        destruct (isTrailSurrogate d1) eqn:TD1; [|discriminate].
        destruct (encodeURIComponent r1) as [o1|] eqn:R1; [|discriminate].
        injection E1 as <-.
        pose proof (surrogatePair_bound c1 d1 L1 TD1) as B1.
        pose proof (surrogatePair_high c1 d1 L1 TD1) as G1.
        destruct (isLeadSurrogate c2) eqn:L2.
        -- destruct r2 as [|d2 r2]; [discriminate|].
           destruct (isTrailSurrogate d2) eqn:TD2; [|discriminate].
           destruct (encodeURIComponent r2) as [o2|] eqn:R2; [|discriminate].
           injection E2 as E2.
           pose proof (surrogatePair_bound c2 d2 L2 TD2) as B2.
           apply utf8_prefix_free in E2 as [Ecp Eo]; [|assumption|assumption].
           apply surrogatePair_inj in Ecp as [-> ->]; try assumption.
           do 2 f_equal. subst o2.
           apply (IH r1 r2 o1); auto.
           ++ simpl in Hn. lia.
           ++ now inversion Hr1.
           ++ now inversion Hr2.
        -- destruct (encodeURIComponent r2) as [o2|] eqn:R2; [|discriminate].
           injection E2 as E2.
           apply utf8_prefix_free in E2 as [Ecp Eo]; [|lia|assumption]. lia.
      * destruct (encodeURIComponent r1) as [o1|] eqn:R1; [|discriminate].
        injection E1 as <-.
        destruct (isLeadSurrogate c2) eqn:L2.
        -- destruct r2 as [|d2 r2]; [discriminate|].
           destruct (isTrailSurrogate d2) eqn:TD2; [|discriminate].
           destruct (encodeURIComponent r2) as [o2|] eqn:R2; [|discriminate].
           injection E2 as E2.
           pose proof (surrogatePair_bound c2 d2 L2 TD2) as B2.
           pose proof (surrogatePair_high c2 d2 L2 TD2) as G2.
           apply utf8_prefix_free in E2 as [Ecp Eo]; [|assumption|lia]. lia.
        -- destruct (encodeURIComponent r2) as [o2|] eqn:R2; [|discriminate].
           injection E2 as E2.
           apply utf8_prefix_free in E2 as [Ecp Eo]; [|lia|lia].
           subst c2 o2. f_equal. apply (IH r1 r2 o1); auto; lia.
Qed.

End EncodingInjective.

(** X15: the Search button opens the same URL for two payloads only when
    they are the same payload: [encodeURIComponent] maps different texts
    to different encodings. *)
Theorem search_urls_tell_payloads_apart (P : Platform)
    (w1 w2 : World ScannerUI.State) (d1 d2 : str) (i1 i2 : Scanner.DataInfo)
    (url : str) :
  Scanner.currentScannedData (ScannerUI.base (react w1)) = Some (d1, i1) ->
  Scanner.currentScannedData (ScannerUI.base (react w2)) = Some (d2, i2) ->
  codeUnits d1 -> codeUnits d2 ->
  calls (exec (ScannerUI.searchOnWeb P) w1) = calls w1 ++ [OpenURL url] ->
  calls (exec (ScannerUI.searchOnWeb P) w2) = calls w2 ++ [OpenURL url] ->
  d1 = d2.
Proof.
  intros H1 H2 U1 U2 C1 C2. unfold exec in C1, C2.
  rewrite (searchOnWeb_run P w1 d1 i1 H1) in C1.
  rewrite (searchOnWeb_run P w2 d2 i2 H2) in C2.
  destruct (encodeURIComponent d1) as [q1|] eqn:E1; cbn [snd calls] in C1.
  2:{ exfalso. apply (f_equal (@List.length call)) in C1.
      rewrite length_app in C1. simpl in C1. lia. }
  destruct (encodeURIComponent d2) as [q2|] eqn:E2; cbn [snd calls] in C2.
  2:{ exfalso. apply (f_equal (@List.length call)) in C2.
      rewrite length_app in C2. simpl in C2. lia. }
  apply app_inv_head in C1, C2.
  assert (Q : ScannerUI.searchPrefix ++ q1 = ScannerUI.searchPrefix ++ q2)
    by congruence.
  apply app_inv_head in Q. subst q2.
  now apply (encodeURIComponent_inj (List.length d1) d1 d2 q1).
Qed.

Lemma search_urls_tell_payloads_apart_witness : lit "a b" = lit "a b".
Proof.
  apply (search_urls_tell_payloads_apart reliable
           (mkWorld (ScannerUI.mkState
                       (Scanner.mkState [] false true
                          (Some (lit "a b", Scanner.mkDataInfo "Text" "Display content"))
                          0) false false [] false None) [] [])
           (mkWorld (ScannerUI.mkState
                       (Scanner.mkState [] false true
                          (Some (lit "a b", Scanner.mkDataInfo "Text" "Display content"))
                          1) true false [] false None) [] [])
           (lit "a b") (lit "a b")
           (Scanner.mkDataInfo "Text" "Display content")
           (Scanner.mkDataInfo "Text" "Display content")
           (ScannerUI.searchPrefix ++ lit "a%20b"));
    try reflexivity; unfold codeUnits; repeat constructor.
Defined.

(** X16: a payload that the app-only gate accepts makes exactly one call,
    a navigation to UserDetail, Users or Home or the alert that the
    scanner is already open.  When the call returns, the result page is
    left as it was; when it throws, the page shows the payload as
    [App Deep Link Error] / [Navigation failed]. *)
Theorem app_only_accepted_makes_one_call (P : Platform)
    (w : World AppOnly.State) (ev : ScanEvent) :
  AppOnly.isScanning (react w) = false ->
  startsWith (codeStringValue ev) (lit "qrcodeapp://") = true ->
  let w' := exec (AppOnly.handleAppOnlyScannedData P ev) w in
  exists c,
    calls w' = calls w ++ [c] /\
    match c with
    | OpenURL _ => False
    | Navigate screen _ => In screen ["UserDetail"; "Users"; "Home"]
    | AlertAlert title message =>
        title = "App Deep Link" /\ message = "Already on app scanner screen"
    end /\
    (AppOnly.showResultPage (react w'), AppOnly.currentScannedData (react w')) =
      if P c then
        (true,
         Some (codeStringValue ev,
               AppOnly.mkValidation false "App Deep Link Error" "Navigation failed"))
      else (AppOnly.showResultPage (react w), AppOnly.currentScannedData (react w)).
Proof.
  intros Hi Hp w'.
  assert (E : w' = appOnlyScanned P ev w).
  { subst w'. unfold exec. now rewrite handleAppOnlyScannedData_run. }
  rewrite E. unfold appOnlyScanned, appOnlyScanCalls. rewrite Hp.
  destruct (segment_of_includes _ _ (startsWith_includes _ _ Hp)) as [path Hs].
  rewrite Hs. cbn [react calls AppOnly.showResultPage AppOnly.currentScannedData].
  unfold appOnlyPathCalls.
  destruct (includes path (lit "user/"));
    [destruct (segment path (lit "user/")) as [[|u0 u]|]
    |destruct (includes path (lit "users"));
       [|destruct (includes path (lit "scanner"))]];
    (eexists; split; [reflexivity|]); cbn [afterCalls In];
    (split; [auto 10|]); destruct (P _); reflexivity.
Qed.

Lemma app_only_accepted_makes_one_call_witness :
  exists c,
    calls (exec (AppOnly.handleAppOnlyScannedData reliable
                   (mkScanEvent (lit "qrcodeapp://scanner") 1 "t")) AppOnly.start) =
      [] ++ [c] /\
    c = AlertAlert "App Deep Link" "Already on app scanner screen".
Proof.
  destruct (app_only_accepted_makes_one_call reliable AppOnly.start
              (mkScanEvent (lit "qrcodeapp://scanner") 1 "t") eq_refl eq_refl)
    as (c & Hc & _).
  exists c. split; [exact Hc|].
  vm_compute in Hc. now injection Hc as <-.
Defined.

(** X17: whatever the platform does, no exception leaves a handler of the
    scanning path: reading a code, the manual input, the restart, the
    close button, the focus effect and the timeouts always return.  Only
    the Copy and Search buttons of the result page can let one out. *)
Theorem scanning_handlers_always_return (P : Platform) :
  (forall (w : World ScannerUI.State) (ev : ScannerUI.event),
      match ev with
      | ScannerUI.PressCopy | ScannerUI.PressSearch => True
      | _ => returns (ScannerUI.handle P ev) w = true
      end) /\
  (forall (w : World AppOnlyUI.State) (ev : AppOnlyUI.event),
      match ev with
      | AppOnlyUI.PressCopy => True
      | _ => returns (AppOnlyUI.handle P ev) w = true
      end).
Proof.
  split; intros w ev; destruct ev; try exact I; try reflexivity;
    cbn [ScannerUI.handle AppOnlyUI.handle]; unfold returns.
  - now rewrite liftBase_scan.
  - unfold ScannerUI.handleManualInput, bind, getState. cbn [fst snd].
    destruct (trim (ScannerUI.manualInput (react w))) as [|c t] eqn:E;
      [reflexivity|].
    now rewrite liftBase_scan.
  - unfold ScannerUI.fireAt.
    destruct (nth_error (timeouts w) i) as [[[] d]|]; reflexivity.
  - unfold AppOnlyUI.liftBase.
    destruct (AppOnly.isScanning (react (AppOnlyUI.baseWorld w))) eqn:E.
    + now rewrite handleAppOnlyScannedData_suppressed.
    + now rewrite handleAppOnlyScannedData_run.
  - unfold AppOnlyUI.fireAt.
    destruct (nth_error (timeouts w) i) as [[[] d]|]; reflexivity.
Qed.

(** * From a scanner to the user screen *)

(** X18: a scanner never leaves the user screen without a request to
    wait for.  The screen starts in the loading state when it gets no
    [user] object, and only the effect that fetches the user ends that
    state; the effect runs when [id] is a text that is not empty.
    Whatever happens on either scanner screen, every navigation to
    UserDetail carries such an [id], so the user is fetched. *)
Theorem scanned_user_is_fetched (P : Platform) (User : Type) :
  (forall (evs : list ScannerUI.event) (id : option str),
      In (Navigate "UserDetail" id) (calls (ScannerUI.run P evs ScannerUI.start)) ->
      UserDetail.initialLoading (UserDetail.mkParams (@None User) id) = true /\
      UserDetail.fetches (UserDetail.mkParams (@None User) id) = true) /\
  (forall (evs : list AppOnlyUI.event) (id : option str),
      In (Navigate "UserDetail" id) (calls (AppOnlyUI.run P evs AppOnlyUI.start)) ->
      UserDetail.initialLoading (UserDetail.mkParams (@None User) id) = true /\
      UserDetail.fetches (UserDetail.mkParams (@None User) id) = true) /\
  UserDetail.initialLoading (UserDetail.mkParams (@None User) None) = true /\
  UserDetail.fetches (UserDetail.mkParams (@None User) None) = false /\
  UserDetail.fetches (UserDetail.mkParams (@None User) (Some [])) = false.
Proof.
  split; [|split; [|repeat split]].
  - intros evs id H.
    pose proof (scanner_run_keeps P evs _ scanner_start_keeps) as K.
    destruct K as [_ _ _ _ Hcs _ _]. rewrite Forall_forall in Hcs.
    destruct (Hcs _ H) as [[_ Hnav] _]. split; [reflexivity|].
    destruct Hnav as [[_ (uid & -> & Hne & _)]|[[E _]|[E _]]];
      try discriminate E.
    destruct uid; [congruence|reflexivity].
  - intros evs id H.
    pose proof (appOnly_run_keeps P evs _ appOnly_start_keeps) as K.
    destruct K as [_ _ _ _ Hcs _ _]. rewrite Forall_forall in Hcs.
    destruct (Hcs _ H) as [_ Hnav]. split; [reflexivity|].
    destruct Hnav as [[_ (uid & -> & Hne & _)]|[[E _]|[E _]]];
      try discriminate E.
    destruct uid; [congruence|reflexivity].
Qed.

Lemma scanned_user_is_fetched_witness :
  UserDetail.fetches (UserDetail.mkParams (@None unit) (Some (lit "42"))) = true /\
  UserDetail.fetches (UserDetail.mkParams (@None unit) (Some (lit "7"))) = true.
Proof.
  destruct (scanned_user_is_fetched reliable unit) as (H1 & H2 & _).
  split.
  - apply (H1 [ScannerUI.ReadCode (mkScanEvent (lit "qrcodeapp://user/42") 1 "t")]).
    vm_compute. now left.
  - apply (H2 [AppOnlyUI.ReadCode (mkScanEvent (lit "qrcodeapp://user/7") 1 "t")]).
    vm_compute. now left.
Defined.
